(** * Voice2Web: intent resolution and action dispatch

    A shallow embedding of the intent service (services/intent), the
    background dispatcher (background.js), the router and the content
    script of the Voice2Web browser extension, together with the
    properties of the pipeline that the specification states; then of the
    HTTP endpoint in front of the service, of what the handlers of the
    router and of the content script do to a page, of the relay between
    the two, and of the voice engine, with properties read off the code.

    Conventions.
    - A JavaScript string is a Rocq [string]; each character is read as one
      UTF-16 code unit below 256 (ISO-8859-1).  On this range [toLowerCase],
      [trim] and the regular-expression classes below are exactly those of
      ECMAScript.  Message literals of the source are carried verbatim.
    - A JavaScript value is a [value]; objects keep their keys in insertion
      order, as [Object.entries] and the spread operator observe it.
    - Code that can throw is a computation [comp]; the one outside call that
      the service hands a string to, [eval], is an explicit node of it.
    - What only the host can tell (the clock, the random draw, number
      printing, [parseInt], [JSON.parse], the provider's reply, what a DOM
      handler does) is a parameter. *)

From Stdlib Require Import String Ascii List Bool Arith ZArith QArith Lia.
From Stdlib Require Import DecimalString.
Import ListNotations.

Local Open Scope string_scope.
Local Open Scope nat_scope.

Set Implicit Arguments.

(* ------------------------------------------------------------------ *)
(** ** Strings *)

Module JsString.

Definition code (c : ascii) : nat := nat_of_ascii c.

Definition in_range (lo hi : nat) (c : ascii) : bool :=
  (lo <=? code c) && (code c <=? hi).

(** [\s], and the characters [trim] strips: TAB LF VT FF CR SP NBSP. *)
Definition is_space (c : ascii) : bool :=
  in_range 9 13 c || (code c =? 32) || (code c =? 160).

(** Line terminators, which [.] does not match. *)
Definition is_line_terminator (c : ascii) : bool :=
  (code c =? 10) || (code c =? 13).

Definition is_digit (c : ascii) : bool := in_range 48 57 c.

Definition lower_char (c : ascii) : ascii :=
  if in_range 65 90 c || (in_range 192 222 c && negb (code c =? 215))
  then ascii_of_nat (code c + 32) else c.

Fixpoint toLowerCase (s : string) : string :=
  match s with
  | EmptyString => EmptyString
  | String c s' => String (lower_char c) (toLowerCase s')
  end.

(** [toUpperCase]: the sharp s becomes "SS"; the two characters whose upper
    case lies above 255 (micro sign, y with diaeresis) are left as they are,
    which no comparison with an ASCII word can tell apart. *)
Fixpoint toUpperCase (s : string) : string :=
  match s with
  | EmptyString => EmptyString
  | String c s' =>
      if code c =? 223 then String "S" (String "S" (toUpperCase s'))
      else if in_range 97 122 c || (in_range 224 254 c && negb (code c =? 247))
      then String (ascii_of_nat (code c - 32)) (toUpperCase s')
      else String c (toUpperCase s')
  end.

Fixpoint trimStart (s : string) : string :=
  match s with
  | String c s' => if is_space c then trimStart s' else s
  | EmptyString => EmptyString
  end.

Fixpoint trimEnd (s : string) : string :=
  match s with
  | EmptyString => EmptyString
  | String c s' =>
      match trimEnd s' with
      | EmptyString => if is_space c then EmptyString else String c EmptyString
      | t => String c t
      end
  end.

Definition trim (s : string) : string := trimEnd (trimStart s).

Definition startsWith (s p : string) : bool := prefix p s.

(** [s.includes(k)] *)
Fixpoint includes (s k : string) : bool :=
  prefix k s ||
  match s with
  | EmptyString => false
  | String _ s' => includes s' k
  end.

(** [s.slice(0, n)] *)
Definition slice0 (n : nat) (s : string) : string := substring 0 n s.

(** The double quote, for the message templates that embed one. *)
Definition dq : string := String (ascii_of_nat 34) EmptyString.

(** Line feed. *)
Definition nl : string := String (ascii_of_nat 10) EmptyString.

Definition of_nat (n : nat) : string := NilEmpty.string_of_uint (Nat.to_uint n).

Fixpoint join (sep : string) (l : list string) : string :=
  match l with
  | [] => ""
  | [x] => x
  | x :: l' => x ++ sep ++ join sep l'
  end.

End JsString.
Import JsString.

(* ------------------------------------------------------------------ *)
(** ** Regular expressions

    A backtracking matcher with the priorities of ECMAScript: alternatives
    left to right, greedy quantifiers, an iteration of a star that consumes
    nothing is refused.  One capture group is recorded, which is all the
    source uses. *)

Module Regex.

Inductive cls : Type :=
| CCh (c : ascii)
| CRange (lo hi : ascii)
| CDigit
| CSpace
| CNonSpace.

Inductive regex : Type :=
| REmpty
| RChar (c : ascii)
| RAny
| RSet (neg : bool) (items : list cls)
| RSeq (r1 r2 : regex)
| RAlt (r1 r2 : regex)
| RStar (r : regex)
| RGroup (r : regex)
| RBol
| REol.

(** Derived forms. *)
Fixpoint lit (s : string) : regex :=
  match s with
  | EmptyString => REmpty
  | String c EmptyString => RChar c
  | String c s' => RSeq (RChar c) (lit s')
  end.

Definition RPlus (r : regex) : regex := RSeq r (RStar r).
Definition ROpt (r : regex) : regex := RAlt r REmpty.
Definition RDigit : regex := RSet false [CDigit].
Definition RSpace : regex := RSet false [CSpace].
(** [r{1,2}], [r{2}], [r{2,4}], [r{4}], [r{2,}] *)
Definition R1to2 (r : regex) : regex := RSeq r (ROpt r).
Definition R2 (r : regex) : regex := RSeq r r.
Definition R2to4 (r : regex) : regex := RSeq r (RSeq r (ROpt (RSeq r (ROpt r)))).
Definition R4 (r : regex) : regex := RSeq r (RSeq r (RSeq r r)).
Definition R2up (r : regex) : regex := RSeq r (RSeq r (RStar r)).

Fixpoint alts (l : list regex) : regex :=
  match l with
  | [] => REmpty
  | [r] => r
  | r :: l' => RAlt r (alts l')
  end.

Fixpoint seqs (l : list regex) : regex :=
  match l with
  | [] => REmpty
  | [r] => r
  | r :: l' => RSeq r (seqs l')
  end.

(** A pattern character against an input character, under the [i] flag
    when [ic] holds. *)
Definition char_eq (ic : bool) (p a : ascii) : bool :=
  if ic then Ascii.eqb (lower_char p) (lower_char a) else Ascii.eqb p a.

Definition cls_holds (it : cls) (a : ascii) : bool :=
  match it with
  | CCh c => Ascii.eqb c a
  | CRange lo hi => in_range (code lo) (code hi) a
  | CDigit => is_digit a
  | CSpace => is_space a
  | CNonSpace => negb (is_space a)
  end.

(** A class against an input character.  The classes that the source uses
    under the [i] flag hold digits and whitespace only, so the flag does not
    enter. *)
Definition set_holds (neg : bool) (items : list cls) (a : ascii) : bool :=
  xorb neg (existsb (fun it => cls_holds it a) items).

Record mstate : Type := MState {
  pos : nat;            (* characters consumed from the whole input *)
  rest : string;        (* what is left of it *)
  grp : option string   (* capture group 1 *)
}.

Definition step (st : mstate) (s' : string) : mstate :=
  MState (S (pos st)) s' (grp st).

(** The iterations of a star over the matcher [m] of its body: one more
    iteration first, which has to consume something, else the continuation.
    [n] bounds the iterations by the length of the input left. *)
Fixpoint star_loop (m : mstate -> (mstate -> option mstate) -> option mstate)
         (k : mstate -> option mstate) (n : nat) (st : mstate) {struct n}
  : option mstate :=
  match n with
  | O => k st
  | S n' =>
      match m st (fun st' => if pos st <? pos st' then star_loop m k n' st'
                             else None)
      with
      | Some x => Some x
      | None => k st
      end
  end.

Fixpoint rmatch (ic : bool) (r : regex) (st : mstate)
         (k : mstate -> option mstate) {struct r} : option mstate :=
  match r with
  | REmpty => k st
  | RChar c =>
      match rest st with
      | String a s' => if char_eq ic c a then k (step st s') else None
      | EmptyString => None
      end
  | RAny =>
      match rest st with
      | String a s' => if is_line_terminator a then None else k (step st s')
      | EmptyString => None
      end
  | RSet neg items =>
      match rest st with
      | String a s' => if set_holds neg items a then k (step st s') else None
      | EmptyString => None
      end
  | RSeq r1 r2 => rmatch ic r1 st (fun st' => rmatch ic r2 st' k)
  | RAlt r1 r2 =>
      match rmatch ic r1 st k with
      | Some x => Some x
      | None => rmatch ic r2 st k
      end
  | RStar r1 => star_loop (rmatch ic r1) k (S (String.length (rest st))) st
  | RGroup r1 =>
      rmatch ic r1 st
        (fun st' =>
           k (MState (pos st') (rest st')
                     (Some (substring 0 (pos st' - pos st) (rest st)))))
  | RBol => if pos st =? 0 then k st else None
  | REol =>
      match rest st with
      | EmptyString => k st
      | String _ _ => None
      end
  end.

(** A match attempt at position [i], where [s] is the input from there on. *)
Definition match_here (ic : bool) (r : regex) (i : nat) (s : string)
  : option mstate :=
  rmatch ic r (MState i s None) Some.

(** A found match: where it starts, its text, group 1, and what follows. *)
Record found : Type := Found {
  index : nat;
  text0 : string;
  group1 : option string;
  after : string
}.

(** Leftmost match at or after position [i]. *)
Fixpoint search (ic : bool) (r : regex) (i : nat) (s : string) : option found :=
  match match_here ic r i s with
  | Some st => Some (Found i (substring 0 (pos st - i) s) (grp st) (rest st))
  | None =>
      match s with
      | EmptyString => None
      | String _ s' => search ic r (S i) s'
      end
  end.

(** [re.test(s)] and [s.match(re)] for a regex without the [g] flag. *)
Definition exec (ic : bool) (r : regex) (s : string) : option found :=
  search ic r 0 s.

Definition test (ic : bool) (r : regex) (s : string) : bool :=
  match exec ic r s with Some _ => true | None => false end.

(** [s.match(re)] with the [g] flag: all matches, left to right; after an
    empty match the scan moves on by one character. *)
Fixpoint match_all_from (ic : bool) (r : regex) (fuel i : nat) (s : string)
  : list string :=
  match fuel with
  | O => []
  | S fuel' =>
      match search ic r i s with
      | None => []
      | Some f =>
          let e := index f + String.length (text0 f) in
          match text0 f, after f with
          | EmptyString, EmptyString => [text0 f]
          | EmptyString, String _ s' => text0 f :: match_all_from ic r fuel' (S e) s'
          | _, _ => text0 f :: match_all_from ic r fuel' e (after f)
          end
      end
  end.

Definition match_all (ic : bool) (r : regex) (s : string) : option (list string) :=
  match match_all_from ic r (S (String.length s)) 0 s with
  | [] => None
  | l => Some l
  end.

(** [s.replace(re, repl)] without the [g] flag: the first match only. *)
Definition replace_first (ic : bool) (r : regex) (repl s : string) : string :=
  match exec ic r s with
  | None => s
  | Some f => substring 0 (index f) s ++ repl ++ after f
  end.

(** [s.replace(re, repl)] with the [g] flag. *)
Fixpoint replace_all_from (ic : bool) (r : regex) (repl : string)
         (fuel i : nat) (s : string) : string :=
  match fuel with
  | O => s
  | S fuel' =>
      match search ic r i s with
      | None => s
      | Some f =>
          let pre := substring 0 (index f - i) s in
          let e := index f + String.length (text0 f) in
          match text0 f, after f with
          | EmptyString, EmptyString => pre ++ repl
          | EmptyString, String c s' =>
              pre ++ repl ++ String c (replace_all_from ic r repl fuel' (S e) s')
          | _, _ => pre ++ repl ++ replace_all_from ic r repl fuel' e (after f)
          end
      end
  end.

Definition replace_all (ic : bool) (r : regex) (repl s : string) : string :=
  replace_all_from ic r repl (S (String.length s)) 0 s.

End Regex.
Import Regex.

(* ------------------------------------------------------------------ *)
(** ** JavaScript values *)

Module Js.

#[warnings="-register-all"] Inductive value : Type :=
| VUndefined
| VNull
| VBool (b : bool)
| VNum (q : Q)                  (* a finite number *)
| VNaN
| VInfinity (negative : bool)
| VStr (s : string)
| VArr (l : list value)
| VObj (fields : list (string * value))
| VHost (printed : string).     (* any other object of the host, such as a
                                   RegExp, with the text it prints as *)

(** An object: its own keys in insertion order. *)
Definition obj : Type := list (string * value).

Fixpoint lookup (k : string) (o : obj) : option value :=
  match o with
  | [] => None
  | (k', v) :: o' => if String.eqb k k' then Some v else lookup k o'
  end.

(** [o[k] = v]: an existing key keeps its place, a new one goes last. *)
Fixpoint set (k : string) (v : value) (o : obj) : obj :=
  match o with
  | [] => [(k, v)]
  | (k', v') :: o' =>
      if String.eqb k k' then (k', v) :: o' else (k', v') :: set k v o'
  end.

(** [{ ...a, ...b }] *)
Definition spread (a b : obj) : obj :=
  fold_left (fun acc kv => set (fst kv) (snd kv) acc) b a.

(** The own enumerable properties that a spread copies. *)
Definition fields_of (v : value) : obj :=
  match v with
  | VObj o => o
  | _ => []
  end.

(** [v?.k], for a key that no prototype defines. *)
Definition get (v : value) (k : string) : value :=
  match v with
  | VObj o => match lookup k o with Some x => x | None => VUndefined end
  | _ => VUndefined
  end.

Definition truthy (v : value) : bool :=
  match v with
  | VUndefined | VNull => false
  | VBool b => b
  | VNum q => negb (Qeq_bool q 0)
  | VNaN => false
  | VInfinity _ => true
  | VStr s => negb (String.eqb s "")
  | VArr _ | VObj _ | VHost _ => true
  end.

(** [a || b] *)
Definition or_else (a b : value) : value := if truthy a then a else b.

Definition keys (o : obj) : list string := map fst o.

(** What can be thrown: an [ApiError] of the service, which carries a
    [statusCode], or any other error, of which the service reads the
    [status] property and the content script the [message]. *)
Inductive error : Type :=
| ApiError (statusCode : Z) (message : string)
| JsError (status : value) (message : string).

Definition error_message (e : error) : string :=
  match e with
  | ApiError _ m => m
  | JsError _ m => m
  end.

(** [error.status === n] *)
Definition status_is (e : error) (n : Z) : bool :=
  match e with
  | JsError (VNum q) _ => Qeq_bool q (inject_Z n)
  | _ => false
  end.

(** The [TypeError] of a property read on [undefined] or [null] (V8 wording). *)
Definition type_error (base : string) (prop : string) : error :=
  JsError VUndefined
    ("Cannot read properties of " ++ base ++ " (reading '" ++ prop ++ "')").

(** [v.k]: a [TypeError] when [v] is [null] or [undefined]. *)
Definition read (v : value) (k : string) : value + error :=
  match v with
  | VUndefined => inr (type_error "undefined" k)
  | VNull => inr (type_error "null" k)
  | _ => inl (get v k)
  end.

End Js.
Import Js.

(* ------------------------------------------------------------------ *)
(** ** Computations: results, exceptions, and calls of [eval] *)

Module Comp.

Inductive comp (A : Type) : Type :=
| Ret (a : A)
| Throw (e : error)
| CallEval (src : string) (k : value + error -> comp A).

Arguments Ret {A} a.
Arguments Throw {A} e.
Arguments CallEval {A} src k.

Fixpoint bind {A B : Type} (c : comp A) (f : A -> comp B) : comp B :=
  match c with
  | Ret a => f a
  | Throw e => Throw e
  | CallEval s k => CallEval s (fun o => bind (k o) f)
  end.

(** [try { c } catch (e) { h e }] *)
Fixpoint catch {A : Type} (c : comp A) (h : error -> comp A) : comp A :=
  match c with
  | Ret a => Ret a
  | Throw e => h e
  | CallEval s k => CallEval s (fun o => catch (k o) h)
  end.

(** [eval(src)]: the value it returns, or what it throws. *)
Definition js_eval (src : string) : comp value :=
  CallEval src (fun o => match o with inl v => Ret v | inr e => Throw e end).

(** [v.k] as a computation. *)
Definition member (v : value) (k : string) : comp value :=
  match read v k with
  | inl x => Ret x
  | inr e => Throw e
  end.

(** Running a computation against the host's [eval]. *)
Fixpoint run {A : Type} (ev : string -> value + error) (c : comp A) : A + error :=
  match c with
  | Ret a => inl a
  | Throw e => inr e
  | CallEval s k => run ev (k (ev s))
  end.

(** The strings a computation can hand to [eval]. *)
Inductive calls {A : Type} : comp A -> string -> Prop :=
| calls_here : forall s k, calls (CallEval s k) s
| calls_later : forall s k o s', calls (k o) s' -> calls (CallEval s k) s'.

End Comp.
Import Comp.

Notation "x <- c ;; k" := (bind c (fun x => k))
  (at level 61, c at next level, right associativity).

(* ------------------------------------------------------------------ *)
(** ** The host *)

(** What the service asks of the engine and of the clock. *)
Record Env : Type := {
  timeString : string;          (* now.toLocaleTimeString('en-US', ...) *)
  dateString : string;          (* now.toLocaleDateString('en-US', ...) *)
  random : nat;                 (* the draw behind Math.random() *)
  ToString : value -> string;   (* the text of a fraction, a large number,
                                   an array or an object in a template *)
  parseInt : string -> value;   (* parseInt of a run of digits *)
  JSON_parse : string -> option value   (* None: a SyntaxError *)
}.

(** [Number::toString] of an integer below 10^21 in absolute value: its
    decimal digits. *)
Definition integer_text (z : Z) : string := NilEmpty.string_of_int (Z.to_int z).

Definition is_small_integer (q : Q) : bool :=
  (Z.rem (Qnum q) (Zpos (Qden q)) =? 0)%Z &&
  (Z.abs (Qnum q / Zpos (Qden q)) <? 10 ^ 21)%Z.

(** The text of a value inside a template or a concatenation. *)
Definition template (E : Env) (v : value) : string :=
  match v with
  | VStr s => s
  | VUndefined => "undefined"
  | VNull => "null"
  | VBool true => "true"
  | VBool false => "false"
  | VNaN => "NaN"
  | VInfinity false => "Infinity"
  | VInfinity true => "-Infinity"
  | VHost printed => printed
  | VNum q =>
      if is_small_integer q then integer_text (Qnum q / Zpos (Qden q))
      else ToString E v
  | VArr _ | VObj _ => ToString E v
  end.

(** config/env *)
Record Config : Type := {
  maxTextLength : nat;
  llm_apiKey : string;
  llm_model : string
}.

(* ------------------------------------------------------------------ *)
(** ** Entity extraction (services/intent, extractEntities) *)

Module Entities.

(** [/\d+/g] *)
Definition numbers_re : regex := RPlus RDigit.

Definition am_pm : regex := alts [lit "am"; lit "pm"].

(** [/\d{1,2}:\d{2}\s?(?:am|pm)?|\d{1,2}\s?(?:am|pm)/gi] *)
Definition time_re : regex :=
  RAlt (seqs [R1to2 RDigit; RChar ":"; R2 RDigit; ROpt RSpace; ROpt am_pm])
       (seqs [R1to2 RDigit; ROpt RSpace; am_pm]).

(** [/https?:\/\/[^\s]+/g] *)
Definition url_re : regex :=
  seqs [lit "http"; ROpt (RChar "s"); lit "://"; RPlus (RSet true [CSpace])].

(** [/[a-zA-Z0-9._%+-]+@[a-zA-Z0-9.-]+\.[a-zA-Z]{2,}/g] *)
Definition email_re : regex :=
  seqs [RPlus (RSet false [CRange "a" "z"; CRange "A" "Z"; CRange "0" "9";
                           CCh "."; CCh "_"; CCh "%"; CCh "+"; CCh "-"]);
        RChar "@";
        RPlus (RSet false [CRange "a" "z"; CRange "A" "Z"; CRange "0" "9";
                           CCh "."; CCh "-"]);
        RChar ".";
        R2up (RSet false [CRange "a" "z"; CRange "A" "Z"])].

(** [/\d{1,2}\/\d{1,2}\/\d{2,4}/g], MM/DD/YYYY *)
Definition date_slash_re : regex :=
  seqs [R1to2 RDigit; RChar "/"; R1to2 RDigit; RChar "/"; R2to4 RDigit].

(** [/\d{4}-\d{2}-\d{2}/g], YYYY-MM-DD *)
Definition date_iso_re : regex :=
  seqs [R4 RDigit; RChar "-"; R2 RDigit; RChar "-"; R2 RDigit].

Definition datePatterns : list regex := [date_slash_re; date_iso_re].

(** [text.match(re)[0]] for a [g] regex, when there is a match. *)
Definition first_match (ic : bool) (r : regex) (text : string) : option string :=
  match match_all ic r text with
  | Some (m :: _) => Some m
  | _ => None
  end.

(** The loop over [datePatterns], leaving at the first pattern that matches. *)
Fixpoint first_date (ps : list regex) (text : string) : option string :=
  match ps with
  | [] => None
  | p :: ps' =>
      match first_match false p text with
      | Some m => Some m
      | None => first_date ps' text
      end
  end.

Definition set_if (k : string) (m : option string) (entities : obj) : obj :=
  match m with
  | Some x => set k (VStr x) entities
  | None => entities
  end.

Definition extractEntities (E : Env) (text : string) : obj :=
  let entities : obj := [] in
  let entities :=
    match match_all false numbers_re text with
    | Some numbers => set "numbers" (VArr (map (parseInt E) numbers)) entities
    | None => entities
    end in
  let entities := set_if "time" (first_match true time_re text) entities in
  let entities := set_if "url" (first_match false url_re text) entities in
  let entities := set_if "email" (first_match false email_re text) entities in
  let entities := set_if "date" (first_date datePatterns text) entities in
  entities.

End Entities.
Import Entities.

(* ------------------------------------------------------------------ *)
(** ** The fallback rule engine (services/intent, fallbackIntentRecognition) *)

Module Fallback.

(** What a handler returns: [{ message, entities }]. *)
Definition handler_result (message : value) (entities : obj) : value :=
  VObj [("message", message); ("entities", VObj entities)].

Definition time_handler (E : Env) (text : string) : comp value :=
  Ret (handler_result
         (VStr ("The current time is " ++ timeString E ++ "."))
         [("time", VStr (timeString E))]).

Definition date_handler (E : Env) (text : string) : comp value :=
  Ret (handler_result
         (VStr ("Today is " ++ dateString E ++ "."))
         [("date", VStr (dateString E))]).

(** [/search for|look up|find|google/gi] *)
Definition search_words_re : regex :=
  alts [lit "search for"; lit "look up"; lit "find"; lit "google"].

Definition search_handler (E : Env) (text : string) : comp value :=
  let query := trim (replace_all true search_words_re "" text) in
  Ret (handler_result
         (VStr ("I'll help you search for " ++ dq ++ query ++ dq ++ "."))
         [("query", VStr query); ("action", VStr "search")]).

(** [/(?:open|go to|navigate to|visit|launch)\s+(.+)/i] *)
Definition open_re : regex :=
  seqs [alts [lit "open"; lit "go to"; lit "navigate to"; lit "visit"; lit "launch"];
        RPlus RSpace; RGroup (RPlus RAny)].

(** [m ? m[1] : dflt] *)
Definition group1_or (m : option found) (dflt : string) : string :=
  match m with
  | Some f => match group1 f with Some g => g | None => dflt end
  | None => dflt
  end.

Definition open_website_handler (E : Env) (text : string) : comp value :=
  let siteMatch := exec true open_re text in
  let site :=
    match siteMatch with
    | Some f => trim (group1_or siteMatch "")
    | None => "the website"
    end in
  Ret (handler_result
         (VStr ("Opening " ++ site ++ "..."))
         [("website", VStr site); ("action", VStr "open")]).

(** [/remind me (?:to )?(.+)/i] *)
Definition remind_re : regex :=
  seqs [lit "remind me "; ROpt (lit "to "); RGroup (RPlus RAny)].

(** [/at (\d{1,2}:\d{2}(?:\s?(?:am|pm))?|\d{1,2}\s?(?:am|pm))/i] *)
Definition at_time_re : regex :=
  seqs [lit "at ";
        RGroup (RAlt (seqs [R1to2 RDigit; RChar ":"; R2 RDigit;
                            ROpt (seqs [ROpt RSpace; am_pm])])
                     (seqs [R1to2 RDigit; ROpt RSpace; am_pm]))].

(** [/at .+/i] *)
Definition at_rest_re : regex := seqs [lit "at "; RPlus RAny].

Definition reminder_handler (E : Env) (text : string) : comp value :=
  let reminderMatch := exec true remind_re text in
  let reminder :=
    match reminderMatch with
    | Some f => trim (group1_or reminderMatch "")
    | None => "that"
    end in
  let timeMatch := exec true at_time_re reminder in
  let time : value :=
    match timeMatch with
    | Some f => VStr (group1_or timeMatch "")
    | None => VNull
    end in
  let task :=
    if truthy time then trim (replace_first true at_rest_re "" reminder)
    else reminder in
  Ret (handler_result
         (VStr ("I'll remind you to " ++ task ++
                (if truthy time then " at " ++ group1_or timeMatch "" else "")
                ++ "."))
         [("task", VStr task); ("time", time); ("action", VStr "reminder")]).

(** [/(?:calculate|what is)\s+(.+)/i] *)
Definition calc_re : regex :=
  seqs [alts [lit "calculate"; lit "what is"]; RPlus RSpace; RGroup (RPlus RAny)].

(** [/multiply(?:ed)? by/gi] *)
Definition multiply_by_re : regex :=
  seqs [lit "multiply"; ROpt (lit "ed"); lit " by"].

(** The class [0-9+\-*/().\s] of the two last regular expressions. *)
Definition arith_class : list cls :=
  [CRange "0" "9"; CCh "+"; CCh "-"; CCh "*"; CCh "/"; CCh "("; CCh ")";
   CCh "."; CSpace].

(** [/[^0-9+\-*/().\s]/g] *)
Definition unsafe_re : regex := RSet true arith_class.

(** [/^[0-9+\-*/().\s]+$/] *)
Definition safe_re : regex := seqs [RBol; RPlus (RSet false arith_class); REol].

(** The expression the calculation handler builds from the text. *)
Definition calc_expression (text : string) : string :=
  let mathMatch := exec true calc_re text in
  let expression := group1_or mathMatch text in
  let expression := replace_all true (lit "plus") "+" expression in
  let expression := replace_all true (lit "add") "+" expression in
  let expression := replace_all true (lit "minus") "-" expression in
  let expression := replace_all true (lit "subtract") "-" expression in
  let expression := replace_all true (lit "times") "*" expression in
  let expression := replace_all true multiply_by_re "*" expression in
  let expression := replace_all true (lit "divided by") "/" expression in
  let expression := replace_all false unsafe_re "" expression in
  trim expression.

Definition calculation_handler (E : Env) (text : string) : comp value :=
  catch
    (let expression := calc_expression text in
     if test false safe_re expression then
       result <- js_eval expression ;;
       Ret (handler_result
              (VStr ("The answer is " ++ template E result ++ "."))
              [("expression", VStr expression); ("result", result);
               ("action", VStr "calculate")])
     else
       Ret (handler_result
              (VStr "I couldn't understand that calculation. Try asking like 'what is 5 plus 3?'")
              []))
    (fun error =>
       Ret (handler_result
              (VStr "Sorry, I couldn't calculate that. Please try again.")
              [])).

Definition jokes : list string :=
  ["Why don't scientists trust atoms? Because they make up everything!";
   "I told my wife she was drawing her eyebrows too high. She looked surprised.";
   "Why did the scarecrow win an award? He was outstanding in his field!";
   "What do you call a fake noodle? An impasta!";
   "Why don't eggs tell jokes? They'd crack each other up!";
   "What do you call a bear with no teeth? A gummy bear!";
   "Why did the math book look sad? Because it had too many problems.";
   "What do you call a pile of cats? A meowtain!";
   "Why don't oysters donate to charity? Because they're shellfish!";
   "What did the ocean say to the beach? Nothing, it just waved!"].

(** [jokes[Math.floor(Math.random() * jokes.length)]]: an index below the
    length, here the draw reduced modulo it. *)
Definition joke_handler (E : Env) (text : string) : comp value :=
  let joke := nth (random E mod List.length jokes) jokes "" in
  Ret (handler_result (VStr joke) [("type", VStr "joke")]).

(** One entry of the [patterns] table. *)
Record pattern : Type := {
  name : string;
  keywords : list string;
  message : option string;
  confidence : Q;
  entities : option obj;
  handler : option (Env -> string -> comp value)
}.

Definition patterns : list pattern :=
  [ {| name := "greeting";
       keywords := ["hello"; "hi"; "hey"; "greetings"; "good morning";
                    "good afternoon"; "good evening"];
       message := Some "Hello! I'm VoiceReplica. How can I help you today?";
       confidence := 0.85; entities := None; handler := None |};
    {| name := "farewell";
       keywords := ["bye"; "goodbye"; "see you"; "farewell"; "good night"];
       message := Some "Goodbye! Have a great day!";
       confidence := 0.85; entities := None; handler := None |};
    {| name := "thanks";
       keywords := ["thank"; "thanks"; "appreciate"; "grateful"];
       message := Some "You're welcome! Happy to help!";
       confidence := 0.85; entities := None; handler := None |};
    {| name := "help";
       keywords := ["help"; "assist"; "what can you do"; "support"];
       message := Some ("I can help you with:" ++ nl ++
                        "• Answering questions" ++ nl ++
                        "• Checking time and date" ++ nl ++
                        "• Opening websites" ++ nl ++
                        "• Setting reminders" ++ nl ++
                        "• Simple calculations" ++ nl ++
                        "• Telling jokes" ++ nl ++
                        "• And much more!");
       confidence := 0.80; entities := None; handler := None |};
    {| name := "time";
       keywords := ["time"; "what time"; "what's the time"; "current time"];
       message := None;
       confidence := 0.90; entities := None; handler := Some time_handler |};
    {| name := "date";
       keywords := ["date"; "what date"; "what's the date"; "today"; "what day"];
       message := None;
       confidence := 0.90; entities := None; handler := Some date_handler |};
    {| name := "weather";
       keywords := ["weather"; "temperature"; "forecast"; "raining"; "sunny";
                    "cloudy"];
       message := Some "I don't have real-time weather data yet, but you can check your local weather service!";
       confidence := 0.75;
       entities := Some [("needsWeatherAPI", VBool true)];
       handler := None |};
    {| name := "search";
       keywords := ["search for"; "look up"; "find"; "google"];
       message := None;
       confidence := 0.85; entities := None; handler := Some search_handler |};
    {| name := "open_website";
       keywords := ["open"; "go to"; "navigate to"; "visit"; "launch"];
       message := None;
       confidence := 0.88; entities := None;
       handler := Some open_website_handler |};
    {| name := "reminder";
       keywords := ["remind me"; "set reminder"; "remember to"; "don't forget"];
       message := None;
       confidence := 0.82; entities := None; handler := Some reminder_handler |};
    {| name := "calculation";
       keywords := ["calculate"; "what is"; "plus"; "minus"; "times"; "divided";
                    "multiply"; "add"; "subtract"];
       message := None;
       confidence := 0.85; entities := None;
       handler := Some calculation_handler |};
    {| name := "joke";
       keywords := ["joke"; "make me laugh"; "something funny";
                    "tell me a joke"; "funny"];
       message := None;
       confidence := 0.80; entities := None; handler := Some joke_handler |} ].

(** The inner loop: is one of the keywords inside the lowered text? *)
Definition matches (lowerText : string) (data : pattern) : bool :=
  existsb (fun keyword => includes lowerText keyword) (keywords data).

(** The outer loop: the first entry of the table with such a keyword. *)
Fixpoint find_pattern (lowerText : string) (table : list pattern)
  : option pattern :=
  match table with
  | [] => None
  | data :: table' =>
      if matches lowerText data then Some data
      else find_pattern lowerText table'
  end.

Definition fallback_model : string := "fallback-rule-based".

Definition intent_result (intent : string) (ents : obj) (msg : value)
           (conf : Q) (model : string) : value :=
  VObj [("intent", VStr intent); ("entities", VObj ents); ("message", msg);
        ("confidence", VNum conf); ("model", VStr model)].

(** The body of the match: what is returned for the winning entry. *)
Definition answer (E : Env) (text : string) (data : pattern) : comp value :=
  let message0 :=
    match message data with Some m => VStr m | None => VUndefined end in
  let entities0 : obj :=
    match entities data with Some e => e | None => [] end in
  me <- match handler data with
        | Some h =>
            result <- h E text ;;
            Ret (get result "message",
                 spread entities0 (fields_of (get result "entities")))
        | None => Ret (message0, entities0)
        end ;;
  Ret (intent_result (name data)
         (spread (snd me) (extractEntities E text))
         (fst me) (confidence data) fallback_model).

Definition fallbackIntentRecognition (E : Env) (text : string) : comp value :=
  let lowerText := trim (toLowerCase text) in
  match find_pattern lowerText patterns with
  | Some data => answer E text data
  | None =>
      Ret (intent_result "unknown" (extractEntities E text)
             (VStr ("I heard: " ++ dq ++ text ++ dq ++
                    ". I'm not sure how to help with that yet. Try saying 'help' to see what I can do!"))
             0.30 fallback_model)
  end.

End Fallback.
Import Fallback.

(* ------------------------------------------------------------------ *)
(** ** The classifier and the facade (services/intent) *)

Module IntentService.

(** What awaiting [grokClient.responses.create(...)] gives: a completion
    with its [output_text], or a rejection. *)
Inductive provider_outcome : Type :=
| Replied (output_text : option string)   (* None: no [output_text] *)
| Rejected (e : error).

(** The client handle, as far as the service uses it: from the prompt sent
    to the outcome of the call. *)
Definition client : Type := string -> provider_outcome.

(** [/\{[\s\S]*\}/] *)
Definition json_object_re : regex :=
  seqs [RChar "{"; RStar (RSet false [CSpace; CNonSpace]); RChar "}"].

(** The values of the [intent] enumeration in the response schema. *)
Definition schema_intents : list string :=
  ["search"; "qna"; "summarize"; "form_fill"; "book_ticket"; "website_search";
   "navigation"; "other"].

Section Service.

Variable E : Env.
Variable config : Config.
(** The fixed instruction text that opens every prompt. *)
Variable systemPrompt : string.

(** [initializeGrokClient]: the value returned and the module variable
    [grokClient] afterwards.  [construct] is what [new OpenAI(...)] gives,
    [None] when it throws. *)
Definition initializeGrokClient (construct : option client)
           (grokClient : option client) : option client * option client :=
  if String.eqb (llm_apiKey config) "" then (None, grokClient)
  else match construct with
       | Some c => (Some c, Some c)
       | None => (None, grokClient)
       end.

(** The module variable once the module is loaded. *)
Definition grokClient_at_load (construct : option client) : option client :=
  snd (initializeGrokClient construct None).

Definition reinitializeGrokClient (construct : option client)
           (grokClient : option client) : bool * option client :=
  let r := fst (initializeGrokClient construct grokClient) in
  (match r with Some _ => true | None => false end, r).

Definition finalPrompt (userText : string) : string :=
  systemPrompt ++ nl ++ nl ++
  "Analyze the following user command and generate a structured response in the required JSON format.Follow all system rules strictly.User Command: "
  ++ userText.

Definition syntax_error : error := JsError VUndefined "Unexpected token in JSON".

(** The [try] block of [callGrok]. *)
Definition callGrok_try (grokClient : option client) (userText : string)
  : comp value :=
  match grokClient with
  | None => fallbackIntentRecognition E userText
  | Some c =>
      match c (finalPrompt userText) with
      | Rejected e => Throw e
      | Replied None =>
          (* JSON.parse(undefined) is a SyntaxError, then content.match throws *)
          Throw (type_error "undefined" "match")
      | Replied (Some content) =>
          match JSON_parse E content with
          | Some parsedResponse => Ret parsedResponse
          | None =>
              match exec false json_object_re content with
              | None => Throw (JsError VUndefined "Grok response is not valid JSON")
              | Some jsonMatch =>
                  match JSON_parse E (text0 jsonMatch) with
                  | Some parsedResponse => Ret parsedResponse
                  | None => Throw syntax_error
                  end
              end
          end
      end
  end.

(** The [catch] block of [callGrok]. *)
Definition callGrok_catch (userText : string) (error : error) : comp value :=
  if status_is error 401 then
    Throw (ApiError 502 "Invalid LLM API key configuration")
  else if status_is error 429 then
    Throw (ApiError 429 "Rate limit exceeded. Please try again later.")
  else if status_is error 500 || status_is error 503 then
    fallbackIntentRecognition E userText
  else
    fallbackIntentRecognition E userText.

Definition callGrok (grokClient : option client) (userText : string)
  : comp value :=
  catch (callGrok_try grokClient userText) (callGrok_catch userText).

(** The input checks that open [processIntent]; the trimmed text when they
    pass. *)
Definition validate (text : value) : comp string :=
  match text with
  | VStr s =>
      if String.eqb s "" then Throw (ApiError 400 "Invalid text input")
      else
        let trimmedText := trim s in
        if String.length trimmedText =? 0 then
          Throw (ApiError 400 "Text cannot be empty")
        else if maxTextLength config <? String.length trimmedText then
          Throw (ApiError 400 ("Text exceeds maximum length of " ++
                               of_nat (maxTextLength config) ++ " characters"))
        else Ret trimmedText
  | _ => Throw (ApiError 400 "Invalid text input")
  end.

(** The [catch] block of [processIntent]. *)
Definition rethrow (error : error) : comp value :=
  match error with
  | ApiError _ _ => Throw error
  | JsError _ _ => Throw (ApiError 500 "Failed to process intent")
  end.

(** [processIntent], as the service has it now: the fields are read under
    [result.data]. *)
Definition processIntent (grokClient : option client) (text : value)
  : comp value :=
  catch
    (trimmedText <- validate text ;;
     result <- callGrok grokClient trimmedText ;;
     Ret (VObj
       [("intent", or_else (get (get result "data") "intent") (VStr "unknown"));
        ("entities", or_else (get (get result "data") "entities") (VObj []));
        ("message", or_else (get (get result "data") "message")
                            (VStr "Processing complete"));
        ("confidence", or_else (get (get result "data") "confidence") (VNum 0.5));
        ("model", or_else (get (get (get result "data") "metadata") "model")
                          (VStr (llm_model config)))]))
    rethrow.

(** [processIntent], as the copy of the service with the [open_site] prompt
    has it: the fields are read on [result] itself. *)
Definition processIntent_flat (grokClient : option client) (text : value)
  : comp value :=
  catch
    (trimmedText <- validate text ;;
     result <- callGrok grokClient trimmedText ;;
     intent <- member result "intent" ;;
     Ret (VObj
       [("intent", or_else intent (VStr "unknown"));
        ("entities", or_else (get result "entities") (VObj []));
        ("message", or_else (get result "message") (VStr "Processing complete"));
        ("confidence", or_else (get result "confidence") (VNum 0.5));
        ("model", or_else (get result "model") (VStr (llm_model config)))]))
    rethrow.

End Service.

End IntentService.
Import IntentService.

(* ------------------------------------------------------------------ *)
(** ** The background dispatcher (background.js, class IntentHandler) *)

Module Background.

(** An element of an array under [join]. *)
Definition join_item (E : Env) (v : value) : string :=
  match v with
  | VUndefined | VNull => ""
  | _ => template E v
  end.

(** [const { ... } = v]: a [TypeError] on [undefined] and [null]. *)
Definition destructurable (v : value) : comp unit :=
  match v with
  | VUndefined => Throw (JsError VUndefined "Cannot destructure 'undefined'")
  | VNull => Throw (JsError VUndefined "Cannot destructure 'null'")
  | _ => Ret tt
  end.

Definition handleSearch (E : Env) (entities : value) : comp value :=
  _ <- destructurable entities ;;
  let query := get entities "query" in
  let keywords := get entities "keywords" in
  let website := get entities "website" in
  finalQuery <-
    match keywords with
    | VArr [] => Ret query
    | VArr l => Ret (VStr (template E query ++ " " ++ join " " (map (join_item E) l)))
    | VStr s =>
        if String.eqb s "" then Ret query
        else Throw (JsError VUndefined "keywords.join is not a function")
    | VObj o =>
        if truthy (get keywords "length")
        then Throw (JsError VUndefined "keywords.join is not a function")
        else Ret query
    | _ => Ret query
    end ;;
  let finalQuery :=
    if truthy website
    then VStr ("site:" ++ template E website ++ " " ++ template E finalQuery)
    else finalQuery in
  Ret (VObj [("action", VStr "CHROME_SEARCH"); ("text", finalQuery)]).

Definition handleOpenSite (entities : value) : comp value :=
  website <- member entities "website" ;;
  match website with
  | VStr w =>
      let url := if startsWith w "http" then w else "https://" ++ w in
      Ret (VObj [("action", VStr "OPEN_URL"); ("url", VStr url)])
  | VUndefined => Throw (type_error "undefined" "startsWith")
  | VNull => Throw (type_error "null" "startsWith")
  | _ => Throw (JsError VUndefined "entities.website.startsWith is not a function")
  end.

Definition handleDefault (intent : value) : comp value :=
  Ret (VObj [("action", VStr "NONE")]).

(** What [this.handlers[intent] || this.handleDefault] selects.  The table
    has four own keys; [summarize] is bound to a method the class does not
    define, so it falls to the default; two lower-case keys are inherited
    from [Object.prototype]. *)
Inductive selected : Type :=
| SelSearch
| SelOpenSite
| SelDefault
| SelObject         (* "constructor": the function Object *)
| SelNotCallable.   (* "__proto__": an object, not a function *)

Definition select (intent : string) : selected :=
  if String.eqb intent "search" then SelSearch
  else if String.eqb intent "website_search" then SelSearch
  else if String.eqb intent "summarize" then SelDefault
  else if String.eqb intent "open_site" then SelOpenSite
  else if String.eqb intent "constructor" then SelObject
  else if String.eqb intent "__proto__" then SelNotCallable
  else SelDefault.

(** What [execute] asks of the browser. *)
Inductive chrome_call : Type :=
| search_query (text : value)      (* chrome.search.query, in a new tab *)
| tabs_create (url : value).       (* chrome.tabs.create *)

Definition execute (result : value) : list chrome_call :=
  match get result "action" with
  | VStr a =>
      if String.eqb a "CHROME_SEARCH" then [search_query (get result "text")]
      else if String.eqb a "OPEN_URL" then [tabs_create (get result "url")]
      else []
  | _ => []
  end.

(** Step 1 of [process]: the action computed for the input. *)
Definition process_result (E : Env) (input : value) : comp value :=
  _ <- destructurable input ;;
  let success := get input "success" in
  let data := get input "data" in
  if negb (truthy success) || negb (truthy data) then
    Throw (JsError VUndefined "Invalid input format")
  else
    match get data "intent" with
    | VStr i =>
        let intent := toLowerCase i in
        match select intent with
        | SelSearch => handleSearch E (get data "entities")
        | SelOpenSite => handleOpenSite (get data "entities")
        | SelDefault => handleDefault (get data "entities")
        | SelObject =>
            Ret match get data "entities" with
                | VUndefined | VNull => VObj []
                | v => v
                end
        | SelNotCallable => Throw (JsError VUndefined "handler is not a function")
        end
    | VUndefined => Throw (type_error "undefined" "toLowerCase")
    | VNull => Throw (type_error "null" "toLowerCase")
    | _ => Throw (JsError VUndefined "data.intent.toLowerCase is not a function")
    end.

(** [process]: step 1, then step 2, [execute]. *)
Definition process (E : Env) (input : value) : comp (list chrome_call) :=
  result <- process_result E input ;;
  Ret (execute result).

End Background.
Import Background.

(* ------------------------------------------------------------------ *)
(** ** Message listeners: the router and the content script *)

Module Messaging.

(** A listener's run: the replies handed to [sendResponse], in order, and
    what the code returned or threw. *)
Definition io (A : Type) : Type := (list value * (A + error))%type.

Definition io_ret {A : Type} (a : A) : io A := ([], inl a).
Definition io_throw {A : Type} (e : error) : io A := ([], inr e).

Definition io_bind {A B : Type} (c : io A) (f : A -> io B) : io B :=
  match c with
  | (out, inl a) => let (out', r) := f a in ((out ++ out')%list, r)
  | (out, inr e) => (out, inr e)
  end.

Definition io_catch {A : Type} (c : io A) (h : error -> io A) : io A :=
  match c with
  | (out, inl a) => (out, inl a)
  | (out, inr e) => let (out', r) := h e in ((out ++ out')%list, r)
  end.

Definition sendResponse (v : value) : io unit := ([v], inl tt).

(** A handler that has settled: with its result, or with what it threw. *)
Definition settled {A : Type} (r : A + error) : io A := ([], r).

Definition reply_ok (result : value) : value :=
  VObj [("success", VBool true); ("data", result)].

Definition reply_error (err : error) : value :=
  VObj [("success", VBool false); ("error", VStr (error_message err))].

(** The body every listener shares:
    [try { result = ...; sendResponse(ok) } catch (err) { sendResponse(failed) }] *)
Definition reply_always (work : io value) : io unit :=
  io_catch (io_bind work (fun result => sendResponse (reply_ok result)))
           (fun err => sendResponse (reply_error err)).

(** [s.replace(/\s+/g, ' ')] *)
Definition collapse_spaces (s : string) : string :=
  replace_all false (RPlus RSpace) " " s.

End Messaging.
Import Messaging.

(** The content script.  What its DOM handlers do depends on the page; each
    is taken as it settles, with a result or with an error. *)
Module Content.

Section Page.

(** [document.body.innerText] *)
Variable innerText : string.
Variables googleSearch websiteSearch formFill bookTicket : value -> value + error.

Definition summarize : value :=
  let text := slice0 5000 (collapse_spaces innerText) in
  VObj [("summary", VStr text)].

Definition run_command (msg : value) : io value :=
  io_bind (settled (read msg "type")) (fun type =>
      match type with
      | VStr type =>
          if String.eqb type "SEARCH" then settled (googleSearch (get msg "payload"))
          else if String.eqb type "WEBSITE_SEARCH" then settled (websiteSearch (get msg "payload"))
          else if String.eqb type "FORM_FILL" then settled (formFill (get msg "payload"))
          else if String.eqb type "BOOK_TICKET" then settled (bookTicket (get msg "payload"))
          else if String.eqb type "SUMMARIZE" then io_ret summarize
          else io_throw (JsError VUndefined "Unknown command")
      | _ => io_throw (JsError VUndefined "Unknown command")
      end).

(** The listener: the asynchronous body, then [return true]. *)
Definition listener (msg : value) : io value :=
  io_bind (reply_always (run_command msg)) (fun _ => io_ret (VBool true)).

End Page.

End Content.

(** The router, which relays a command to the content script of a tab. *)
Module Router.

Section Tabs.

Variable innerText : string.
Variables handleGoogleSearch handleNavigation handleFormFill
          handleWebsiteSearch handleBooking : value -> value + error.

Definition handleSummarize : value :=
  let clean := slice0 5000 (trim (collapse_spaces innerText)) in
  VObj [("success", VBool true); ("summary", VStr clean);
        ("message", VStr "Page content extracted")].

(** [message.data.data.intent.toUpperCase()] *)
Definition command_of (message : value) : io string :=
  io_bind (settled (read message "data")) (fun data =>
  io_bind (settled (read data "data")) (fun data' =>
  io_bind (settled (read data' "intent")) (fun intent =>
       match intent with
       | VStr i => io_ret (toUpperCase i)
       | VUndefined => io_throw (type_error "undefined" "toUpperCase")
       | VNull => io_throw (type_error "null" "toUpperCase")
       | _ => io_throw (JsError VUndefined
                          "message.data.data.intent.toUpperCase is not a function")
       end))).

Definition run_command (message : value) : io value :=
  io_bind (command_of message) (fun cmd =>
    let data := get (get message "data") "data" in
    if String.eqb cmd "SEARCH" then settled (handleGoogleSearch data)
    else if String.eqb cmd "NAVIGATION" then settled (handleNavigation data)
    else if String.eqb cmd "FORM_FILL" then settled (handleFormFill data)
    else if String.eqb cmd "WEBSITE_SEARCH" then settled (handleWebsiteSearch data)
    else if String.eqb cmd "BOOK_TICKET" then settled (handleBooking data)
    else if String.eqb cmd "SUMMARIZE" then io_ret handleSummarize
    else io_ret (VObj [("success", VBool false); ("error", VStr "Unknown command")])).

(** The listener: the logging line, which reads the command outside any
    [try], the asynchronous body, then [return true]. *)
Definition listener (message : value) : io value :=
  io_bind (command_of message) (fun _ =>
  io_bind (reply_always (run_command message)) (fun _ =>
  io_ret (VBool true))).

End Tabs.

End Router.

(* ------------------------------------------------------------------ *)
(** ** String conversion that can throw

    A template, a concatenation and [encodeURIComponent] convert an object
    by calling its [toString], then its [valueOf].  A value out of
    [JSON.parse] or off a message holds data only: an object with a key
    [toString] of its own has hidden the method it inherits by something
    that cannot be called, and [valueOf] hands back the object, so the
    conversion ends in a [TypeError].  An array converts its elements, with
    [join]. *)

Module Conversion.

Fixpoint convertible (v : value) : bool :=
  match v with
  | VObj o => negb (existsb (fun kv => String.eqb (fst kv) "toString") o)
  | VArr l => forallb convertible l
  | _ => true
  end.

(** The [TypeError] of the conversion (V8 wording). *)
Definition not_primitive : error :=
  JsError VUndefined "Cannot convert object to primitive value".

(** [`${v}`] *)
Definition in_template (E : Env) (v : value) : comp string :=
  if convertible v then Ret (template E v) else Throw not_primitive.

End Conversion.
Import Conversion.

(* ------------------------------------------------------------------ *)
(** ** The HTTP endpoint (controllers/process, middlewares/validate,
       middlewares/error, routes/process, app) *)

Module Http.

(** What a handler sends: [res.status(status).json(body)]. *)
Record response : Type := Response {
  status : value;
  body : value
}.

(** [new ApiResponse(success, data, message)] *)
Definition ApiResponse (success : bool) (data : value) (message : string)
  : value :=
  VObj [("success", VBool success); ("data", data); ("message", VStr message)].

(** [asyncHandler(fn)]: what [fn] sends when its promise resolves, and
    [next(err)] when it rejects. *)
Definition asyncHandler (fn : value -> comp response)
           (next : error -> response) (ev : string -> value + error)
           (req_body : value) : response :=
  match run ev (fn req_body) with
  | inl sent => sent
  | inr err => next err
  end.

Section Server.

Variable E : Env.
Variable config : Config.
Variable systemPrompt : string.
(** [config.env] *)
Variable env : string.
(** The module variable of the intent service. *)
Variable grokClient : option client.
(** [Date.now()] on entry and once the service has answered, and
    [new Date().toISOString()]. *)
Variables startTime endTime : Z.
Variable timestamp : string.
(** [err.stack], and [err] as [res.json] prints it. *)
Variables stack_of printed : error -> value.
(** The rate limiter of app.js on this request: [None] when it lets the
    request through, else the status it answers with. *)
Variable limiter : option value.
(** [processSchema.validate(body, { abortEarly: false, stripUnknown: true })]:
    the validated value, or the messages of the error's details.  What Joi
    makes of the schema is the library's. *)
Variable schema_validate : value -> value + list string.

(** [text.substring(0, 50)] and [text.length] in the logging line: the text
    of a parsed JSON body has the method only when it is a string. *)
Definition logged (text : value) : comp unit :=
  match text with
  | VStr _ => Ret tt
  | VUndefined => Throw (type_error "undefined" "substring")
  | VNull => Throw (type_error "null" "substring")
  | _ => Throw (JsError VUndefined "text.substring is not a function")
  end.

(** The function that [processVoiceCommand] wraps.  Its second logging
    line puts [result.intent] into a template. *)
Definition processVoiceCommand (req_body : value) : comp response :=
  _ <- destructurable req_body ;;
  let text := get req_body "text" in
  _ <- logged text ;;
  result <- processIntent E config systemPrompt grokClient text ;;
  let processingTime := VNum (inject_Z (endTime - startTime)) in
  intent <- member result "intent" ;;
  _ <- in_template E intent ;;
  Ret (Response (VNum 200)
         (ApiResponse true
            (VObj [("intent", intent);
                   ("entities", get result "entities");
                   ("message", get result "message");
                   ("confidence", get result "confidence");
                   ("metadata",
                    VObj [("processingTime",
                           VStr (template E processingTime ++ "ms"));
                          ("timestamp", VStr timestamp);
                          ("model", get result "model")])])
            "Command processed successfully")).

(** [errorHandler].  An error that is not an [ApiError] is rebuilt as one;
    those of this development carry no [statusCode], so it becomes 500. *)
Definition errorHandler (err : error) : response :=
  let error :=
    match err with
    | ApiError statusCode message => (statusCode, message)
    | JsError _ message =>
        (500%Z, if String.eqb message "" then "Internal Server Error" else message)
    end in
  Response (VNum (inject_Z (fst error)))
    (VObj ([("success", VBool false); ("message", VStr (snd error))] ++
           (if String.eqb env "development"
            then [("stack", stack_of err); ("originalError", printed err)]
            else []))).

(** [notFoundHandler], for a request to [originalUrl]. *)
Definition notFoundHandler (originalUrl : string) : response :=
  errorHandler (ApiError 404 ("Route " ++ originalUrl ++ " not found")).

(** The exported handler: the function above under [asyncHandler], with
    the [errorHandler] of the application as [next]. *)
Definition controller (ev : string -> value + error) (req_body : value)
  : response :=
  asyncHandler processVoiceCommand errorHandler ev req_body.

(** [validate(processSchema)]: it throws an [ApiError] with the messages
    joined, or replaces the body by the validated value. *)
Definition validateProcessRequest (req_body : value) : value + error :=
  match schema_validate req_body with
  | inr details => inr (ApiError 400 (join ", " details))
  | inl value => inl value
  end.

(** What the limiter sends when it refuses. *)
Definition too_many_requests : value :=
  VObj [("success", VBool false);
        ("message",
         VStr "Too many requests from this IP, please try again later.")].

(** [POST /api/process] on a parsed body: the limiter of [/api/], then
    [router.post('/process', validateProcessRequest, processVoiceCommand)];
    what a middleware throws goes to [errorHandler]. *)
Definition process_route (ev : string -> value + error) (req_body : value)
  : response :=
  match limiter with
  | Some st => Response st too_many_requests
  | None =>
      match validateProcessRequest req_body with
      | inr err => errorHandler err
      | inl value => controller ev value
      end
  end.

End Server.

End Http.
Import Http.

(* ------------------------------------------------------------------ *)
(** ** Runs that leave a trace *)

Module Trace.

(** A run: the effects of kind [T] it had, in order, and what it returned
    or threw. *)
Definition traced (T A : Type) : Type := (list T * (A + error))%type.

Definition t_ret {T A : Type} (a : A) : traced T A := ([], inl a).
Definition t_throw {T A : Type} (e : error) : traced T A := ([], inr e).
Definition t_lift {T A : Type} (r : A + error) : traced T A := ([], r).
Definition perform {T : Type} (e : T) : traced T unit := ([e], inl tt).

Definition t_bind {T A B : Type} (c : traced T A) (f : A -> traced T B)
  : traced T B :=
  match c with
  | (out, inl a) => let (out', r) := f a in ((out ++ out')%list, r)
  | (out, inr e) => (out, inr e)
  end.

(** [try { c } catch (err) { h err }] *)
Definition t_catch {T A : Type} (c : traced T A) (h : error -> traced T A)
  : traced T A :=
  match c with
  | (out, inl a) => (out, inl a)
  | (out, inr e) => let (out', r) := h e in ((out ++ out')%list, r)
  end.

End Trace.
Import Trace.

Notation "x <~ c ;; k" := (t_bind c (fun x => k))
  (at level 61, c at next level, right associativity).

(* ------------------------------------------------------------------ *)
(** ** The page: what the handlers of the content script and of the router
    do to the document *)

Module Dom.

(** [encodeURIComponent] on code units below 256: the unreserved characters
    stay, every other one becomes the escapes of its UTF-8 bytes. *)
Definition is_unreserved (c : ascii) : bool :=
  in_range 65 90 c || in_range 97 122 c || in_range 48 57 c ||
  existsb (Ascii.eqb c) ["-"; "_"; "."; "!"; "~"; "*"; "'"; "("; ")"]%char.

Definition hex_digit (n : nat) : ascii :=
  if n <? 10 then ascii_of_nat (48 + n) else ascii_of_nat (55 + n).

Definition escape (byte : nat) : string :=
  String "%" (String (hex_digit (byte / 16)) (String (hex_digit (byte mod 16)) "")).

Fixpoint encodeURIComponent (s : string) : string :=
  match s with
  | EmptyString => ""
  | String c s' =>
      (if is_unreserved c then String c ""
       else if code c <? 128 then escape (code c)
       else escape (192 + code c / 64) ++ escape (128 + code c mod 64))
      ++ encodeURIComponent s'
  end.

(** An element of the page. *)
Definition element : Type := nat.

(** What a handler does to the page, in order. *)
Inductive effect : Type :=
| Focus (el : element)                      (* el.focus() *)
| SetValue (el : element) (v : value)       (* el.value = v *)
| Dispatch (el : element) (type : string)   (* el.dispatchEvent(new Event(type)) *)
| Submit (el : element)                     (* el.form.submit() *)
| Click (el : element)                      (* el.click() *)
| Wait (ms : nat)                           (* await wait(ms) *)
| Navigate (url : string) (ms : nat).       (* location.href = url, ms later *)

(** The document: [querySelector], which throws on a selector that is not
    valid, and whether an element lies in a form. *)
Record document : Type := {
  querySelector : string -> option element + error;
  has_form : element -> bool
}.

(** A handler's run: its effects, and what it returned or threw. *)
Definition act (A : Type) : Type := traced effect A.

(** The properties a [for ... in], [Object.keys] or [Object.entries] goes
    through: those of an object, the indices of an array or of a string. *)
Fixpoint indexed (i : nat) (l : list value) : list (string * value) :=
  match l with
  | [] => []
  | v :: l' => (of_nat i, v) :: indexed (S i) l'
  end.

Fixpoint characters (s : string) : list value :=
  match s with
  | EmptyString => []
  | String c s' => VStr (String c "") :: characters s'
  end.

Definition enumerate (v : value) : list (string * value) :=
  match v with
  | VObj o => o
  | VArr l => indexed 0 l
  | VStr s => indexed 0 (characters s)
  | _ => []
  end.

Section Page.

Variable E : Env.
Variable doc : document.

Definition message_of (m : string) : value := VObj [("message", VStr m)].

(** *** The content script *)

(** The callback of the timer converts the query when it runs, after
    [googleSearch] has returned: when the conversion throws there, nothing
    navigates. *)
Definition googleSearch (data : value) : act value :=
  entities <~ t_lift (read data "entities") ;;
  q <~ t_lift (read entities "query") ;;
  if negb (truthy q) then t_throw (JsError VUndefined "No query")
  else
    _ <~ (if convertible q
          then perform (Navigate ("https://www.google.com/search?q=" ++
                                   encodeURIComponent (template E q)) 200)
          else t_ret tt) ;;
    t_ret (message_of "Redirecting to Google").

(** [input[type="search"], input[name*=search]] *)
Definition search_box : string :=
  "input[type=" ++ dq ++ "search" ++ dq ++ "], input[name*=search]".

Definition websiteSearch (data : value) : act value :=
  entities <~ t_lift (read data "entities") ;;
  q <~ t_lift (read entities "query") ;;
  if negb (truthy q) then t_throw (JsError VUndefined "No query")
  else
    input <~ t_lift (querySelector doc search_box) ;;
    match input with
    | None => t_throw (JsError VUndefined "Search box not found")
    | Some input =>
        _ <~ perform (Focus input) ;;
        _ <~ perform (SetValue input q) ;;
        _ <~ perform (Dispatch input "input") ;;
        _ <~ perform (Wait 300) ;;
        _ <~ (if has_form doc input then perform (Submit input) else t_ret tt) ;;
        t_ret (message_of "Search submitted")
    end.

(** [input[name*="k"], textarea[name*="k"]] *)
Definition field_of (k : string) : string :=
  "input[name*=" ++ dq ++ k ++ dq ++ "], textarea[name*=" ++ dq ++ k ++ dq ++ "]".

(** The loop of [formFill], with the count so far. *)
Fixpoint fill (fields : list (string * value)) (count : nat) : act nat :=
  match fields with
  | [] => t_ret count
  | (k, v) :: fields' =>
      el <~ t_lift (querySelector doc (field_of k)) ;;
      match el with
      | None => fill fields' count
      | Some el =>
          _ <~ perform (SetValue el v) ;;
          _ <~ perform (Dispatch el "input") ;;
          fill fields' (S count)
      end
  end.

Definition formFill (data : value) : act value :=
  entities <~ t_lift (read data "entities") ;;
  fields <~ t_lift (read entities "form_fields") ;;
  if negb (truthy fields) then t_throw (JsError VUndefined "No fields")
  else
    count <~ fill (enumerate fields) 0 ;;
    t_ret (message_of ("Filled " ++ of_nat count ++ " fields")).

(** [input[name*="name"]] *)
Definition named (name : string) : string :=
  "input[name*=" ++ dq ++ name ++ dq ++ "]".

Definition auto (name : string) (val : value) : act unit :=
  if negb (truthy val) then t_ret tt
  else
    el <~ t_lift (querySelector doc (named name)) ;;
    match el with
    | None => t_ret tt
    | Some el =>
        _ <~ perform (SetValue el val) ;;
        _ <~ perform (Dispatch el "input") ;;
        perform (Wait 200)
    end.

Definition bookTicket (data : value) : act value :=
  entities <~ t_lift (read data "entities") ;;
  from <~ t_lift (read entities "from") ;;
  _ <~ auto "from" from ;;
  to <~ t_lift (read entities "to") ;;
  _ <~ auto "to" to ;;
  date <~ t_lift (read entities "date") ;;
  _ <~ auto "date" date ;;
  submit <~ t_lift (querySelector doc "button[type=submit]") ;;
  _ <~ match submit with
       | Some submit => perform (Click submit)
       | None => t_ret tt
       end ;;
  t_ret (message_of "Booking submitted").

(** *** The router *)

(** [input[name*="k"], input[id*="k"], textarea[name*="k"]] *)
Definition input_of (key : string) : string :=
  "input[name*=" ++ dq ++ key ++ dq ++ "], input[id*=" ++ dq ++ key ++ dq ++
  "], textarea[name*=" ++ dq ++ key ++ dq ++ "]".

Fixpoint fill_entries (entries : list (string * value)) (filled : nat)
  : act nat :=
  match entries with
  | [] => t_ret filled
  | (key, v) :: entries' =>
      input <~ t_lift (querySelector doc (input_of key)) ;;
      match input with
      | None => fill_entries entries' filled
      | Some input =>
          _ <~ perform (Focus input) ;;
          _ <~ perform (SetValue input v) ;;
          _ <~ perform (Dispatch input "input") ;;
          _ <~ perform (Dispatch input "change") ;;
          fill_entries entries' (S filled)
      end
  end.

Definition handleFormFill (data : value) : act value :=
  entities <~ t_lift (read data "entities") ;;
  fields <~ t_lift (read entities "form_fields") ;;
  if negb (truthy fields) || (List.length (enumerate fields) =? 0) then
    t_throw (JsError VUndefined "No form fields provided")
  else
    filled <~ fill_entries (enumerate fields) 0 ;;
    t_ret (VObj [("success", VBool true);
                   ("message", VStr ("Filled " ++ of_nat filled ++ " fields"))]).

(** [input[name*="name"], input[id*="name"]] *)
Definition named_or_id (name : string) : string :=
  "input[name*=" ++ dq ++ name ++ dq ++ "], input[id*=" ++ dq ++ name ++ dq ++ "]".

Definition autoFill (name : string) (v : value) : act unit :=
  if negb (truthy v) then t_ret tt
  else
    el <~ t_lift (querySelector doc (named_or_id name)) ;;
    match el with
    | None => t_ret tt
    | Some el =>
        _ <~ perform (Focus el) ;;
        _ <~ perform (SetValue el v) ;;
        _ <~ perform (Dispatch el "input") ;;
        _ <~ perform (Dispatch el "change") ;;
        perform (Wait 200)
    end.

(** [button[type="submit"], input[type="submit"]] *)
Definition submit_control : string :=
  "button[type=" ++ dq ++ "submit" ++ dq ++ "], input[type=" ++ dq ++ "submit" ++ dq ++ "]".

(** [const { from, to, date } = data.entities] *)
Definition destructured (v : value) : act unit :=
  match v with
  | VUndefined => t_throw (JsError VUndefined "Cannot destructure 'undefined'")
  | VNull => t_throw (JsError VUndefined "Cannot destructure 'null'")
  | _ => t_ret tt
  end.

Definition handleBooking (data : value) : act value :=
  entities <~ t_lift (read data "entities") ;;
  _ <~ destructured entities ;;
  _ <~ autoFill "from" (get entities "from") ;;
  _ <~ autoFill "to" (get entities "to") ;;
  _ <~ autoFill "date" (get entities "date") ;;
  submit <~ t_lift (querySelector doc submit_control) ;;
  _ <~ match submit with
       | Some submit => perform (Click submit)
       | None => t_ret tt
       end ;;
  t_ret (VObj [("success", VBool true);
                 ("message", VStr "Booking form processed")]).

End Page.

End Dom.
Import Dom.

(* ------------------------------------------------------------------ *)
(** ** The router's relay to the content script (sendToContent) *)

Module Relay.

(** A tab, as far as the router reads it: [url] is missing without the
    permission to see it. *)
Record tab : Type := {
  tab_id : value;
  tab_url : option string
}.

(** What the callback of [chrome.tabs.sendMessage] finds: [lastError] set,
    or the response. *)
Inductive delivery : Type :=
| LastError (message : string)
| Delivered (response : value).

(** The browser, at one call of [sendToContent]. *)
Record browser : Type := {
  active_tabs : list tab + error;    (* tabs.query({active, currentWindow}) *)
  all_tabs : list tab + error;       (* tabs.query({}) *)
  new_tab : option tab;              (* what tabs.create hands to its callback *)
  inject : value -> option error;    (* scripting.executeScript: how it rejects *)
  deliver : value -> value -> delivery
}.

(** What the router asks of the browser, in order. *)
Inductive request : Type :=
| QueryActive
| QueryAll
| CreateTab (url : string)
| Pause (ms : nat)
| ExecuteScript (tabId : value)
| SendMessage (tabId : value) (payload : value).

(** The test of [allTabs.find]. *)
Definition usable (t : tab) : bool :=
  match tab_url t with
  | Some url =>
      negb (String.eqb url "") && negb (startsWith url "chrome://") &&
      negb (startsWith url "edge://") && negb (startsWith url "about:")
  | None => false
  end.

Definition failed (err : error) : value :=
  VObj [("success", VBool false); ("error", VStr (error_message err))].

Section Browser.

Variable B : browser.

(** Steps 1 to 3: the tab the message goes to. *)
Definition choose_tab : traced request (option tab) :=
  _ <~ perform QueryActive ;;
  tabs <~ t_lift (active_tabs B) ;;
  match tabs with
  | t :: _ => t_ret (Some t)
  | [] =>
      _ <~ perform QueryAll ;;
      allTabs <~ t_lift (all_tabs B) ;;
      match find usable allTabs with
      | Some t => t_ret (Some t)
      | None =>
          _ <~ perform (CreateTab "https://www.google.com") ;;
          _ <~ perform (Pause 2000) ;;
          t_ret (new_tab B)
      end
  end.

Definition sendToContent (payload : value) : traced request value :=
  t_catch
    (tab <~ choose_tab ;;
     tabId <~ match tab with
              | Some t => t_ret (tab_id t)
              | None => t_throw (type_error "undefined" "id")
              end ;;
     _ <~ perform (ExecuteScript tabId) ;;
     _ <~ match inject B tabId with
          | Some err => t_throw err
          | None => t_ret tt
          end ;;
     _ <~ perform (Pause 600) ;;
     _ <~ perform (SendMessage tabId payload) ;;
     match deliver B tabId payload with
     | LastError message => t_throw (JsError VUndefined message)
     | Delivered response =>
         if negb (truthy response)
         then t_throw (JsError VUndefined "No response from content.js")
         else t_ret response
     end)
    (fun err => t_ret (failed err)).

Definition command (type : string) (data : value) : value :=
  VObj [("type", VStr type); ("payload", data)].

Definition handleGoogleSearch (data : value) : traced request value :=
  sendToContent (command "SEARCH" data).

Definition handleWebsiteSearch (data : value) : traced request value :=
  sendToContent (command "WEBSITE_SEARCH" data).

Definition handleNavigation (data : value) : traced request value :=
  sendToContent (command "NAVIGATION" data).

End Browser.

(** *** The two listeners, with their handlers in place *)

Section Extension.

Variable E : Env.
(** The page of the router and the page of the tab. *)
Variables here there : document.
Variables innerText_here innerText_there : string.

(** The listener of the content script in the tab. *)
Definition content (msg : value) : io value :=
  Content.listener innerText_there
    (fun data => snd (googleSearch E data))
    (fun data => snd (websiteSearch there data))
    (fun data => snd (formFill there data))
    (fun data => snd (bookTicket there data))
    msg.

(** The listener of the router, in a browser [B]. *)
Definition router (B : browser) (message : value) : io value :=
  Router.listener innerText_here
    (fun data => snd (handleGoogleSearch B data))
    (fun data => snd (handleNavigation B data))
    (fun data => snd (handleFormFill here data))
    (fun data => snd (handleWebsiteSearch B data))
    (fun data => snd (handleBooking here data))
    message.

(** The tab answers with the first reply of its content script. *)
Definition answered (payload : value) : delivery :=
  match fst (content payload) with
  | response :: _ => Delivered response
  | [] => Delivered VUndefined
  end.

End Extension.

End Relay.
Import Relay.

(* ------------------------------------------------------------------ *)
(** ** The voice engine (voiceEngine)

    The private variables of the module are the fields of [engine]; the
    timers of the host that are set and have neither fired nor been cleared
    are kept beside them.  A registered callback is known by its identity;
    what it does is its own affair, and it is taken not to call back into
    the engine while it runs.  What the browser decides (whether the API is
    there, whether a method of the recognition object throws, what the
    clock reads) comes with every step as a [host]. *)

Module VoiceEngine.

Inductive channel : Type := Transcript | Error | End | StateChange.

(** [config] *)
Record settings : Type := {
  language : value;
  continuous : bool;
  interimResults : bool;
  maxAlternatives : value;
  restartDelay : value
}.

(** [callbacks]: four Sets, each in insertion order. *)
Record registry : Type := {
  on_transcript : list nat;
  on_error : list nat;
  on_end : list nat;
  on_stateChange : list nat
}.

Definition subscribers (ch : channel) (r : registry) : list nat :=
  match ch with
  | Transcript => on_transcript r
  | Error => on_error r
  | End => on_end r
  | StateChange => on_stateChange r
  end.

Definition with_subscribers (ch : channel) (l : list nat) (r : registry)
  : registry :=
  match ch with
  | Transcript => {| on_transcript := l; on_error := on_error r;
                     on_end := on_end r; on_stateChange := on_stateChange r |}
  | Error => {| on_transcript := on_transcript r; on_error := l;
                on_end := on_end r; on_stateChange := on_stateChange r |}
  | End => {| on_transcript := on_transcript r; on_error := on_error r;
              on_end := l; on_stateChange := on_stateChange r |}
  | StateChange => {| on_transcript := on_transcript r; on_error := on_error r;
                      on_end := on_end r; on_stateChange := l |}
  end.

Record engine : Type := Engine {
  recognition : bool;              (* recognition !== null *)
  isInitialized : bool;
  isListening : bool;
  shouldAutoRestart : bool;
  restartTimeout : option nat;     (* null, or the id setTimeout gave *)
  callbacks : registry;
  config : settings;
  timers : list nat;               (* the host's pending timers *)
  issued : nat                     (* the last timer id the host gave *)
}.

Definition initial : engine := {|
  recognition := false;
  isInitialized := false;
  isListening := false;
  shouldAutoRestart := true;
  restartTimeout := None;
  callbacks := {| on_transcript := []; on_error := []; on_end := [];
                  on_stateChange := [] |};
  config := {| language := VStr "en-US"; continuous := true;
               interimResults := true; maxAlternatives := VNum 1;
               restartDelay := VNum 300 |};
  timers := [];
  issued := 0
|}.

(** What the engine does to the outside, in order. *)
Inductive effect : Type :=
| Notify (ch : channel) (callback : nat) (data : value)
| Construct                        (* new SpeechRecognition() *)
| Configure (s : settings)         (* lang, continuous, ... on the instance *)
| Attach                           (* onstart, onresult, onerror, onend set *)
| Detach                           (* the same four set to null *)
| RecStart                         (* recognition.start() *)
| RecStop                          (* recognition.stop() *)
| RecAbort                         (* recognition.abort() *)
| SetTimeout (id : nat) (delay : value)
| ClearTimeout (id : nat).

(** An exception: its [name] and its [message]. *)
Record thrown : Type := {
  thrown_name : string;
  thrown_message : string
}.

Inductive support : Type :=
| Unsupported                      (* neither constructor is defined *)
| ConstructorThrows (e : thrown)
| Constructs.

Record host : Type := {
  SpeechRecognition : support;
  start_throws : option thrown;    (* recognition.start() *)
  stop_throws : option thrown;     (* recognition.stop() *)
  abort_throws : option thrown;    (* recognition.abort() *)
  now : nat -> Z                   (* Date.now(), at its n-th reading *)
}.

(** *** Stateful code *)

Definition M (A : Type) : Type := engine -> engine * list effect * (A + thrown).

Definition ret {A : Type} (a : A) : M A := fun s => (s, [], inl a).
Definition throw {A : Type} (e : thrown) : M A := fun s => (s, [], inr e).
Definition get_state : M engine := fun s => (s, [], inl s).
Definition put (s : engine) : M unit := fun _ => (s, [], inl tt).
Definition emit (e : effect) : M unit := fun s => (s, [e], inl tt).

Definition bind {A B : Type} (m : M A) (f : A -> M B) : M B :=
  fun s =>
    match m s with
    | (s', out, inl a) =>
        match f a s' with
        | (s'', out', r) => (s'', (out ++ out')%list, r)
        end
    | (s', out, inr e) => (s', out, inr e)
    end.

(** [try { m } catch (error) { h error }] *)
Definition try_catch {A : Type} (m : M A) (h : thrown -> M A) : M A :=
  fun s =>
    match m s with
    | (s', out, inl a) => (s', out, inl a)
    | (s', out, inr e) =>
        match h e s' with
        | (s'', out', r) => (s'', (out ++ out')%list, r)
        end
    end.

Declare Scope engine_scope.
Delimit Scope engine_scope with engine.
Notation "x <- m ;; k" := (bind m (fun x => k))
  (at level 61, m at next level, right associativity) : engine_scope.
Notation "m ;; k" := (bind m (fun _ => k))
  (at level 61, right associativity) : engine_scope.
Local Open Scope engine_scope.

Definition set_recognition (b : bool) : M unit := fun s =>
  (Engine b (isInitialized s) (isListening s) (shouldAutoRestart s)
          (restartTimeout s) (callbacks s) (config s) (timers s) (issued s),
   [], inl tt).

Definition set_isInitialized (b : bool) : M unit := fun s =>
  (Engine (recognition s) b (isListening s) (shouldAutoRestart s)
          (restartTimeout s) (callbacks s) (config s) (timers s) (issued s),
   [], inl tt).

Definition set_isListening (b : bool) : M unit := fun s =>
  (Engine (recognition s) (isInitialized s) b (shouldAutoRestart s)
          (restartTimeout s) (callbacks s) (config s) (timers s) (issued s),
   [], inl tt).

Definition set_shouldAutoRestart (b : bool) : M unit := fun s =>
  (Engine (recognition s) (isInitialized s) (isListening s) b
          (restartTimeout s) (callbacks s) (config s) (timers s) (issued s),
   [], inl tt).

Definition set_callbacks (r : registry) : M unit := fun s =>
  (Engine (recognition s) (isInitialized s) (isListening s)
          (shouldAutoRestart s) (restartTimeout s) r (config s) (timers s)
          (issued s),
   [], inl tt).

Definition set_config (c : settings) : M unit := fun s =>
  (Engine (recognition s) (isInitialized s) (isListening s)
          (shouldAutoRestart s) (restartTimeout s) (callbacks s) c (timers s)
          (issued s),
   [], inl tt).

(** [clearTimeout(id)], and [restartTimeout = null]. *)
Definition clear_timer (id : nat) : M unit := fun s =>
  (Engine (recognition s) (isInitialized s) (isListening s)
          (shouldAutoRestart s) None (callbacks s) (config s)
          (List.remove Nat.eq_dec id (timers s)) (issued s),
   [ClearTimeout id], inl tt).

(** [restartTimeout = setTimeout(..., delay)]: the host gives a new id. *)
Definition set_timer (delay : value) : M unit := fun s =>
  let id := S (issued s) in
  (Engine (recognition s) (isInitialized s) (isListening s)
          (shouldAutoRestart s) (Some id) (callbacks s) (config s)
          (id :: timers s) id,
   [SetTimeout id delay], inl tt).

(** The host takes a timer that fires off its list. *)
Definition fired (id : nat) : M unit := fun s =>
  (Engine (recognition s) (isInitialized s) (isListening s)
          (shouldAutoRestart s) (restartTimeout s) (callbacks s) (config s)
          (List.remove Nat.eq_dec id (timers s)) (issued s),
   [], inl tt).

(** *** Event emission: every callback of the channel is called, in the
    order of registration; what a callback throws is caught and logged. *)

Definition notify (ch : channel) (data : value) : M unit := fun s =>
  (s, map (fun callback => Notify ch callback data)
          (subscribers ch (callbacks s)),
   inl tt).

Definition emitTranscript : value -> M unit := notify Transcript.
Definition emitError : value -> M unit := notify Error.
Definition emitEnd : value -> M unit := notify End.
Definition emitStateChange : value -> M unit := notify StateChange.

(** *** Auto-restart *)

Definition clearRestartTimeout : M unit :=
  s <- get_state ;;
  match restartTimeout s with
  | Some id => clear_timer id
  | None => ret tt
  end.

(** A method of the recognition object: a [TypeError] when there is no
    object, else the call, which may throw. *)
Definition recognition_call (method : string) (e : effect)
           (throws : option thrown) : M unit :=
  s <- get_state ;;
  if recognition s then
    emit e ;;
    match throws with
    | Some error => throw error
    | None => ret tt
    end
  else
    throw {| thrown_name := "TypeError";
             thrown_message :=
               "Cannot read properties of null (reading '" ++ method ++ "')" |}.

(** The callback of the timer. *)
Definition restart (h : host) : M unit :=
  s <- get_state ;;
  if shouldAutoRestart s && negb (isListening s) then
    try_catch (recognition_call "start" RecStart (start_throws h))
        (fun error =>
           emitError (VObj [("type", VStr "restart-failed");
                            ("message", VStr (thrown_message error));
                            ("recoverable", VBool true)]))
  else ret tt.

Definition scheduleRestart : M unit :=
  clearRestartTimeout ;;
  s <- get_state ;;
  set_timer (restartDelay (config s)).

(** *** Event handlers *)

Definition handleStart : M unit :=
  set_isListening true ;;
  clearRestartTimeout ;;
  emitStateChange (VObj [("state", VStr "listening"); ("isListening", VBool true)]).

(** One result of a recognition event: its alternatives, of which the
    first is read, and whether it is final. *)
Record alternative : Type := {
  transcript : string;
  confidence : value
}.

Record result : Type := {
  alternatives : list alternative;
  isFinal : bool
}.

Record recognition_event : Type := {
  resultIndex : nat;
  results : list result
}.

(** The loop of [handleResult], at its [n]-th iteration. *)
Fixpoint emit_results (h : host) (n : nat) (l : list result) : M unit :=
  match l with
  | [] => ret tt
  | r :: l' =>
      match alternatives r with
      | [] =>
          throw {| thrown_name := "TypeError";
                   thrown_message :=
                     "Cannot read properties of undefined (reading 'transcript')" |}
      | first :: _ =>
          emitTranscript
            (VObj [("transcript", VStr (trim (transcript first)));
                   ("isFinal", VBool (isFinal r));
                   ("confidence", confidence first);
                   ("timestamp", VNum (inject_Z (now h n)))]) ;;
          emit_results h (S n) l'
      end
  end.

Definition handleResult (h : host) (event : recognition_event) : M unit :=
  emit_results h 0 (skipn (resultIndex event) (results event)).

Definition error_info (type message : string) (recoverable : bool)
           (fatal : bool) : value :=
  VObj ([("type", VStr type); ("message", VStr message);
         ("recoverable", VBool recoverable)] ++
        (if fatal then [("fatal", VBool true)] else [])).

(** The names that every object inherits from [Object.prototype]. *)
Definition inherited : list string :=
  ["constructor"; "__defineGetter__"; "__defineSetter__"; "hasOwnProperty";
   "__lookupGetter__"; "__lookupSetter__"; "isPrototypeOf";
   "propertyIsEnumerable"; "toString"; "valueOf"; "__proto__";
   "toLocaleString"].

(** [errorMap[errorType] || { type: 'unknown', ... }] *)
Definition errorInfo_of (errorType : string) : value :=
  if String.eqb errorType "no-speech" then
    error_info "no-speech" "No speech was detected" true false
  else if String.eqb errorType "audio-capture" then
    error_info "audio-capture"
               "No microphone was found or microphone is not working" false true
  else if String.eqb errorType "not-allowed" then
    error_info "permission-denied" "Microphone permission was denied" false true
  else if String.eqb errorType "network" then
    error_info "network" "Network error occurred during recognition" true false
  else if String.eqb errorType "aborted" then
    error_info "aborted" "Recognition was aborted" true false
  else if String.eqb errorType "service-not-allowed" then
    error_info "service-not-allowed"
               "Speech recognition service is not allowed" false true
  else if existsb (String.eqb errorType) inherited then
    VHost ("Object.prototype." ++ errorType)
  else
    error_info "unknown" ("Unknown error: " ++ errorType) false false.

Definition handleError (errorType : string) : M unit :=
  let errorInfo := errorInfo_of errorType in
  set_isListening false ;;
  emitError errorInfo ;;
  emitStateChange (VObj [("state", VStr "error"); ("isListening", VBool false);
                         ("error", errorInfo)]) ;;
  if truthy (get errorInfo "fatal") then set_shouldAutoRestart false
  else ret tt.

Definition handleEnd (h : host) : M unit :=
  set_isListening false ;;
  emitEnd (VObj [("timestamp", VNum (inject_Z (now h 0)))]) ;;
  emitStateChange (VObj [("state", VStr "stopped"); ("isListening", VBool false)]) ;;
  s <- get_state ;;
  if shouldAutoRestart s && isInitialized s then scheduleRestart
  else ret tt.

(** *** Initialization and control *)

Definition not_supported : string :=
  "Web Speech API is not supported in this browser".

Definition initialize (h : host) : M bool :=
  s <- get_state ;;
  if isInitialized s then ret true
  else
    match SpeechRecognition h with
    | Unsupported =>
        emitError (VObj [("type", VStr "not-supported");
                         ("message", VStr not_supported);
                         ("fatal", VBool true)]) ;;
        throw {| thrown_name := "Error"; thrown_message := not_supported |}
    | ConstructorThrows error =>
        emit Construct ;;
        emitError (VObj [("type", VStr "initialization-failed");
                         ("message", VStr (thrown_message error));
                         ("fatal", VBool true)]) ;;
        throw error
    | Constructs =>
        emit Construct ;;
        set_recognition true ;;
        emit (Configure (config s)) ;;
        emit Attach ;;
        set_isInitialized true ;;
        ret true
    end.

Definition start (h : host) : M bool :=
  s <- get_state ;;
  (if negb (isInitialized s) then initialize h else ret true) ;;
  s <- get_state ;;
  if isListening s then ret true
  else
    try_catch (set_shouldAutoRestart true ;;
         recognition_call "start" RecStart (start_throws h) ;;
         ret true)
        (fun error =>
           if String.eqb (thrown_name error) "InvalidStateError" then ret true
           else
             emitError (VObj [("type", VStr "start-failed");
                              ("message", VStr (thrown_message error));
                              ("recoverable", VBool false)]) ;;
             ret false).

Definition stop (h : host) : M bool :=
  s <- get_state ;;
  if negb (isInitialized s) || negb (recognition s) then ret false
  else
    try_catch (set_shouldAutoRestart false ;;
         clearRestartTimeout ;;
         s <- get_state ;;
         (if isListening s
          then recognition_call "stop" RecStop (stop_throws h)
          else ret tt) ;;
         ret true)
        (fun error =>
           emitError (VObj [("type", VStr "stop-failed");
                            ("message", VStr (thrown_message error));
                            ("recoverable", VBool true)]) ;;
           ret false).

Definition abort (h : host) : M bool :=
  s <- get_state ;;
  if negb (isInitialized s) || negb (recognition s) then ret false
  else
    try_catch (set_shouldAutoRestart false ;;
         clearRestartTimeout ;;
         recognition_call "abort" RecAbort (abort_throws h) ;;
         set_isListening false ;;
         ret true)
        (fun error =>
           emitError (VObj [("type", VStr "abort-failed");
                            ("message", VStr (thrown_message error));
                            ("recoverable", VBool false)]) ;;
           ret false).

(** *** Registration *)

(** The argument of [onTranscript] and its like: a function, known by its
    identity, or something else. *)
Inductive argument : Type :=
| Function (callback : nat)
| Other (v : value).

(** [Set.prototype.add] *)
Definition add (callback : nat) (l : list nat) : list nat :=
  if existsb (Nat.eqb callback) l then l else (l ++ [callback])%list.

(** [onTranscript], [onError], [onEnd], [onStateChange]: the function
    returned is [unsubscribe ch callback]. *)
Definition subscribe (ch : channel) (callback : argument) : M unit :=
  match callback with
  | Other _ =>
      throw {| thrown_name := "TypeError";
               thrown_message := "Callback must be a function" |}
  | Function callback =>
      s <- get_state ;;
      set_callbacks (with_subscribers ch (add callback (subscribers ch (callbacks s)))
                                      (callbacks s))
  end.

(** [() => callbacks.ch.delete(callback)] *)
Definition unsubscribe (ch : channel) (callback : nat) : M bool :=
  s <- get_state ;;
  let l := subscribers ch (callbacks s) in
  set_callbacks (with_subscribers ch (List.remove Nat.eq_dec callback l)
                                  (callbacks s)) ;;
  ret (existsb (Nat.eqb callback) l).

(** *** Configuration *)

Definition is_number (v : value) : bool :=
  match v with
  | VNum _ | VNaN | VInfinity _ => true
  | _ => false
  end.

(** The five conditional assignments of [configure]. *)
Definition updated (options : value) (c : settings) : settings :=
  {| language :=
       if truthy (get options "language") then get options "language"
       else language c;
     continuous :=
       match get options "continuous" with VBool b => b | _ => continuous c end;
     interimResults :=
       match get options "interimResults" with
       | VBool b => b
       | _ => interimResults c
       end;
     maxAlternatives :=
       if is_number (get options "maxAlternatives")
       then get options "maxAlternatives" else maxAlternatives c;
     restartDelay :=
       if is_number (get options "restartDelay")
       then get options "restartDelay" else restartDelay c |}.

Definition configure (h : host) (options : value) : M bool :=
  let options := match options with VUndefined => VObj [] | _ => options end in
  s <- get_state ;;
  let wasListening := isListening s in
  (if wasListening then stop h else ret false) ;;
  match options with
  | VNull =>
      throw {| thrown_name := "TypeError";
               thrown_message :=
                 "Cannot read properties of null (reading 'language')" |}
  | _ =>
      s <- get_state ;;
      set_config (updated options (config s)) ;;
      s <- get_state ;;
      (if isInitialized s && recognition s then emit (Configure (config s))
       else ret tt) ;;
      (if wasListening then start h else ret false) ;;
      ret true
  end.

Definition getConfig (s : engine) : value :=
  VObj [("language", language (config s));
        ("continuous", VBool (continuous (config s)));
        ("interimResults", VBool (interimResults (config s)));
        ("maxAlternatives", maxAlternatives (config s));
        ("restartDelay", restartDelay (config s))].

Definition getStatus (s : engine) : value :=
  VObj [("isInitialized", VBool (isInitialized s));
        ("isListening", VBool (isListening s));
        ("shouldAutoRestart", VBool (shouldAutoRestart s));
        ("language", language (config s));
        ("continuous", VBool (continuous (config s)));
        ("interimResults", VBool (interimResults (config s)))].

(** *** Cleanup *)

Definition destroy (h : host) : M unit :=
  stop h ;;
  set_callbacks {| on_transcript := []; on_error := []; on_end := [];
                   on_stateChange := [] |} ;;
  s <- get_state ;;
  (if recognition s then emit Detach ;; set_recognition false else ret tt) ;;
  set_isInitialized false ;;
  set_isListening false.

(** *** The engine in time *)

(** A call of the public interface. *)
Inductive call : Type :=
| Start
| Stop
| Abort
| Reconfigure (options : value)
| Destroy
| Subscribe (ch : channel) (callback : argument)
| Unsubscribe (ch : channel) (callback : nat).

(** Something the browser does: an event of the recognition object, or a
    timer that fires. *)
Inductive occurrence : Type :=
| Started
| Recognised (event : recognition_event)
| Failed (errorType : string)
| Ended
| Timer (id : nat).

Definition forget {A : Type} (m : M A) : M unit := m ;; ret tt.

Definition called (h : host) (c : call) : M unit :=
  match c with
  | Start => forget (start h)
  | Stop => forget (stop h)
  | Abort => forget (abort h)
  | Reconfigure options => forget (configure h options)
  | Destroy => destroy h
  | Subscribe ch callback => subscribe ch callback
  | Unsubscribe ch callback => forget (unsubscribe ch callback)
  end.

(** The browser calls a handler only while the handlers are attached to an
    instance, and runs the callback of a timer only while it is pending. *)
Definition occurred (h : host) (o : occurrence) : M unit :=
  s <- get_state ;;
  match o with
  | Timer id =>
      if existsb (Nat.eqb id) (timers s) then fired id ;; restart h else ret tt
  | _ =>
      if recognition s then
        match o with
        | Started => handleStart
        | Recognised event => handleResult h event
        | Failed errorType => handleError errorType
        | Ended => handleEnd h
        | Timer _ => ret tt
        end
      else ret tt
  end.

Inductive step : Type :=
| Called (h : host) (c : call)
| Occurred (h : host) (o : occurrence).

Definition perform_step (st : step) : M unit :=
  match st with
  | Called h c => called h c
  | Occurred h o => occurred h o
  end.

(** A run: the state it ends in and all its effects.  What a step throws
    ends that step only. *)
Fixpoint run_steps (steps : list step) (s : engine) : engine * list effect :=
  match steps with
  | [] => (s, [])
  | st :: steps' =>
      match perform_step st s with
      | (s', out, _) =>
          match run_steps steps' s' with
          | (s'', out') => (s'', (out ++ out')%list)
          end
      end
  end.

End VoiceEngine.

(* ================================================================== *)
(** * Properties *)

(* ------------------------------------------------------------------ *)
(** ** Strings *)

Module StringFacts.

Lemma app_empty_r (s : string) : s ++ "" = s.
Proof. induction s as [|c s IH]; simpl; [reflexivity | now rewrite IH]. Qed.

Lemma app_assoc (a b c : string) : (a ++ b) ++ c = a ++ b ++ c.
Proof. induction a as [|x a IH]; simpl; [reflexivity | now rewrite IH]. Qed.

Lemma length_app (a b : string) :
  String.length (a ++ b) = String.length a + String.length b.
Proof. induction a as [|x a IH]; simpl; [reflexivity | now rewrite IH]. Qed.

Lemma substring_app (w r : string) : substring 0 (String.length w) (w ++ r) = w.
Proof.
  induction w as [|x w IH]; simpl.
  - destruct r; reflexivity.
  - now rewrite IH.
Qed.

Lemma length_substring_le (n : nat) (s : string) :
  String.length (substring 0 n s) <= n.
Proof.
  revert s; induction n as [|n IH]; intros [|c s]; simpl; try lia.
  specialize (IH s); lia.
Qed.

Lemma prefix_app (p s : string) : prefix p s = true <-> exists b, s = p ++ b.
Proof.
  revert s; induction p as [|x p IH]; intros s.
  - split; [intros _; now exists s | intros _; destruct s; reflexivity].
  - destruct s as [|y s]; simpl.
    + split; [discriminate | intros [b Hb]; discriminate].
    + destruct (ascii_dec x y) as [->|Hxy].
      * rewrite IH. split; intros [b Hb]; exists b; [now rewrite Hb | now inversion Hb].
      * split; [discriminate | intros [b Hb]; inversion Hb; congruence].
Qed.

(** [k] occurs inside [s]. *)
Definition occurs_in (k s : string) : Prop := exists a b, s = a ++ k ++ b.

Lemma includes_occurs (s k : string) : includes s k = true <-> occurs_in k s.
Proof.
  induction s as [|c s IH].
  - cbn [includes]. rewrite orb_false_r, prefix_app. split.
    + intros [b Hb]. now exists "", b.
    + intros [a [b Hab]]. destruct a; simpl in Hab; [now exists b | discriminate].
  - cbn [includes]. rewrite orb_true_iff, IH, prefix_app. split.
    + intros [[b Hb] | [a [b Hab]]].
      * now exists "", b.
      * exists (String c a), b. simpl. now rewrite Hab.
    + intros [a [b Hab]]. destruct a as [|x a]; simpl in Hab.
      * left. now exists b.
      * right. inversion Hab. now exists a, b.
Qed.

Lemma includes_not_occurs (s k : string) :
  includes s k = false <-> ~ occurs_in k s.
Proof.
  rewrite <- includes_occurs. destruct (includes s k); split; intros H;
    try reflexivity; try discriminate; try congruence.
Qed.

End StringFacts.
Import StringFacts.

(* ------------------------------------------------------------------ *)
(** ** The matcher against a declarative reading of a regex *)

Module RegexFacts.

(** [Matches ic r p w a]: [r] matches the word [w] found at position [p],
    with [a] what follows it in the input. *)
Inductive Matches (ic : bool) : regex -> nat -> string -> string -> Prop :=
| M_empty : forall p a, Matches ic REmpty p "" a
| M_char : forall c x p a,
    char_eq ic c x = true -> Matches ic (RChar c) p (String x "") a
| M_any : forall x p a,
    is_line_terminator x = false -> Matches ic RAny p (String x "") a
| M_set : forall neg items x p a,
    set_holds neg items x = true -> Matches ic (RSet neg items) p (String x "") a
| M_seq : forall r1 r2 p w1 w2 a,
    Matches ic r1 p w1 (w2 ++ a) ->
    Matches ic r2 (p + String.length w1) w2 a ->
    Matches ic (RSeq r1 r2) p (w1 ++ w2) a
| M_alt_l : forall r1 r2 p w a,
    Matches ic r1 p w a -> Matches ic (RAlt r1 r2) p w a
| M_alt_r : forall r1 r2 p w a,
    Matches ic r2 p w a -> Matches ic (RAlt r1 r2) p w a
| M_star_nil : forall r p a, Matches ic (RStar r) p "" a
| M_star_cons : forall r p w1 w2 a,
    w1 <> "" ->
    Matches ic r p w1 (w2 ++ a) ->
    Matches ic (RStar r) (p + String.length w1) w2 a ->
    Matches ic (RStar r) p (w1 ++ w2) a
| M_group : forall r p w a, Matches ic r p w a -> Matches ic (RGroup r) p w a
| M_bol : forall a, Matches ic RBol 0 "" a
| M_eol : forall p, Matches ic REol p "" "".

(** The input consumed between two states of the matcher. *)
Definition consumed (st st' : mstate) (w : string) : Prop :=
  rest st = w ++ rest st' /\ pos st' = pos st + String.length w.

Lemma consumed_refl (st : mstate) : consumed st st "".
Proof. split; simpl; [reflexivity | lia]. Qed.

Lemma consumed_step (st : mstate) (x : ascii) (s' : string) :
  rest st = String x s' -> consumed st (step st s') (String x "").
Proof. intros H. split; simpl; [exact H | lia]. Qed.

Lemma consumed_trans (st1 st2 st3 : mstate) (w1 w2 : string) :
  consumed st1 st2 w1 -> consumed st2 st3 w2 -> consumed st1 st3 (w1 ++ w2).
Proof.
  intros [H1 P1] [H2 P2]. split.
  - now rewrite H1, H2, app_assoc.
  - rewrite P2, P1, length_app. lia.
Qed.

(** Whatever the matcher answers was handed to it by the continuation, at a
    state reached by consuming a word that the regex matches. *)
Lemma rmatch_sound (ic : bool) (r : regex) :
  forall st k x,
    rmatch ic r st k = Some x ->
    exists w st', consumed st st' w /\
                  Matches ic r (pos st) w (rest st') /\
                  k st' = Some x.
Proof.
  induction r as [ | c | | neg items | r1 IH1 r2 IH2 | r1 IH1 r2 IH2
                 | r IH | r IH | | ]; intros st k x H; cbn [rmatch] in H.
  - exists "", st. split; [apply consumed_refl | split; [constructor | exact H]].
  - destruct (rest st) as [|a s'] eqn:Hr; [discriminate|].
    destruct (char_eq ic c a) eqn:Hc; [|discriminate].
    exists (String a ""), (step st s').
    split; [now apply consumed_step | split; [now constructor | exact H]].
  - destruct (rest st) as [|a s'] eqn:Hr; [discriminate|].
    destruct (is_line_terminator a) eqn:Hc; [discriminate|].
    exists (String a ""), (step st s').
    split; [now apply consumed_step | split; [now constructor | exact H]].
  - destruct (rest st) as [|a s'] eqn:Hr; [discriminate|].
    destruct (set_holds neg items a) eqn:Hc; [|discriminate].
    exists (String a ""), (step st s').
    split; [now apply consumed_step | split; [now constructor | exact H]].
  - apply IH1 in H. destruct H as (w1 & st1 & K1 & M1 & H).
    apply IH2 in H. destruct H as (w2 & st2 & K2 & M2 & H).
    exists (w1 ++ w2), st2. split; [eapply consumed_trans; eauto|].
    split; [|exact H]. constructor.
    + destruct K2 as [K2 _]. now rewrite <- K2.
    + destruct K1 as [_ K1]. now rewrite <- K1.
  - destruct (rmatch ic r1 st k) as [y|] eqn:H1.
    + apply IH1 in H1. destruct H1 as (w & st' & K0 & M & H1).
      exists w, st'. split; [exact K0|]. split; [now apply M_alt_l | congruence].
    + apply IH2 in H. destruct H as (w & st' & K0 & M & H).
      exists w, st'. split; [exact K0|]. split; [now apply M_alt_r | exact H].
  - cbn [rmatch] in H. revert H. generalize (S (String.length (rest st))).
    intros n. revert st. induction n as [|n IHn]; intros st H.
    + exists "", st. split; [apply consumed_refl | split; [apply M_star_nil | exact H]].
    + cbn [star_loop] in H.
      match type of H with
      | match ?m with _ => _ end = _ => destruct m as [y|] eqn:H1
      end.
      * inversion H; subst y; clear H.
        apply IH in H1. destruct H1 as (w1 & st1 & K1 & M1 & H1).
        destruct (pos st <? pos st1) eqn:Hlt; [|discriminate].
        apply Nat.ltb_lt in Hlt.
        apply IHn in H1. destruct H1 as (w2 & st2 & K2 & M2 & H1).
        exists (w1 ++ w2), st2. split; [eapply consumed_trans; eauto|].
        split; [|exact H1]. apply M_star_cons.
        -- destruct K1 as [_ K1]. intros ->. simpl in K1. lia.
        -- destruct K2 as [K2 _]. now rewrite <- K2.
        -- destruct K1 as [_ K1]. now rewrite <- K1.
      * exists "", st. split; [apply consumed_refl | split; [apply M_star_nil | exact H]].
  - apply IH in H. destruct H as (w & st' & K0 & M & H).
    eexists w, _. split; [|split; [|exact H]].
    + exact K0.
    + now constructor.
  - destruct (pos st =? 0) eqn:Hp; [|discriminate]. apply Nat.eqb_eq in Hp.
    exists "", st. split; [apply consumed_refl|]. split; [|exact H].
    rewrite Hp. constructor.
  - destruct (rest st) as [|a s'] eqn:Hr; [|discriminate].
    exists "", st. split; [apply consumed_refl|]. split; [|exact H].
    rewrite Hr. constructor.
Qed.

(** Regexes that can match the empty word. *)
Fixpoint nullable (r : regex) : bool :=
  match r with
  | REmpty | RStar _ | RBol | REol => true
  | RChar _ | RAny | RSet _ _ => false
  | RSeq r1 r2 => nullable r1 && nullable r2
  | RAlt r1 r2 => nullable r1 || nullable r2
  | RGroup r1 => nullable r1
  end.

Lemma app_eq_empty (a b : string) : a ++ b = "" -> a = "" /\ b = "".
Proof. destruct a; simpl; [intros ->; now split | discriminate]. Qed.

Lemma Matches_not_nullable (ic : bool) (r : regex) (p : nat) (w a : string) :
  Matches ic r p w a -> nullable r = false -> w <> "".
Proof.
  induction 1; simpl; intros Hn; try discriminate.
  - apply andb_false_iff in Hn. intros Hw. apply app_eq_empty in Hw.
    destruct Hw as [-> ->]. destruct Hn as [Hn | Hn]; [now apply IHMatches1 | now apply IHMatches2].
  - apply orb_false_iff in Hn. now apply IHMatches.
  - apply orb_false_iff in Hn. now apply IHMatches.
  - now apply IHMatches.
Qed.

(** A match found by [search]: where it lies in the input, and that no
    earlier position admits one. *)
Lemma match_here_sound (ic : bool) (r : regex) (i : nat) (s : string) (st : mstate) :
  match_here ic r i s = Some st ->
  exists w, s = w ++ rest st /\ pos st = i + String.length w /\
            Matches ic r i w (rest st).
Proof.
  unfold match_here. intros H. apply rmatch_sound in H.
  destruct H as (w & st' & [C P] & M & H). inversion H; subst st'.
  exists w. simpl in *. auto.
Qed.

Lemma match_here_found (ic : bool) (r : regex) (i : nat) (s : string) (st : mstate) :
  match_here ic r i s = Some st ->
  s = substring 0 (pos st - i) s ++ rest st /\
  Matches ic r i (substring 0 (pos st - i) s) (rest st).
Proof.
  intros H. apply match_here_sound in H. destruct H as (w & Hs & Hp & M).
  replace (pos st - i) with (String.length w) by lia.
  subst s. rewrite substring_app. now split.
Qed.

Lemma search_sound (ic : bool) (r : regex) :
  forall s i f,
    search ic r i s = Some f ->
    exists pre,
      s = pre ++ text0 f ++ after f /\
      index f = i + String.length pre /\
      Matches ic r (index f) (text0 f) (after f).
Proof.
  induction s as [|c s IH]; intros i f H; cbn [search] in H.
  - destruct (match_here ic r i "") as [st|] eqn:Hm; [|discriminate].
    inversion H; subst f; clear H. apply match_here_found in Hm.
    destruct Hm as [Hs M]. exists "". cbn [index text0 after].
    split; [exact Hs | split; [simpl; lia | exact M]].
  - destruct (match_here ic r i (String c s)) as [st|] eqn:Hm.
    + inversion H; subst f; clear H. apply match_here_found in Hm.
      destruct Hm as [Hs M]. exists "". cbn [index text0 after].
      split; [exact Hs | split; [simpl; lia | exact M]].
    + apply IH in H. destruct H as (pre & Hs & Hi & M).
      exists (String c pre). simpl. rewrite <- Hs.
      split; [reflexivity | split; [lia | exact M]].
Qed.

(** The text of a match of a regex that cannot match the empty word is not
    empty. *)
Lemma search_nonempty (ic : bool) (r : regex) (s : string) (i : nat) (f : found) :
  nullable r = false -> search ic r i s = Some f -> text0 f <> "".
Proof.
  intros Hn H. apply search_sound in H. destruct H as (pre & _ & _ & M).
  eapply Matches_not_nullable; eauto.
Qed.


(** *** Completeness: a match that exists is found *)

Lemma mstate_eta (st : mstate) : st = MState (pos st) (rest st) (grp st).
Proof. now destruct st. Qed.

(** What completeness says of one match; for a star, with any bound on the
    iterations that the word found respects. *)
Definition complete_for (ic : bool) (r : regex) (p : nat) (w a : string) : Prop :=
  forall st k,
    pos st = p -> rest st = w ++ a ->
    (forall g, k (MState (p + String.length w) a g) <> None) ->
    rmatch ic r st k <> None /\
    match r with
    | RStar r0 =>
        forall n, String.length w <= n -> star_loop (rmatch ic r0) k n st <> None
    | _ => True
    end.

Lemma continue_step (st : mstate) (k : mstate -> option mstate) (x : ascii) (a : string) :
  rest st = String x a ->
  (forall g, k (MState (pos st + 1) a g) <> None) ->
  k (step st a) <> None.
Proof.
  intros Hr Hk. unfold step. rewrite <- Nat.add_1_r. apply Hk.
Qed.

Lemma continue_here (st : mstate) (k : mstate -> option mstate) (a : string) :
  rest st = a ->
  (forall g, k (MState (pos st + 0) a g) <> None) ->
  k st <> None.
Proof.
  intros Hr Hk. rewrite (mstate_eta st), Hr, <- (Nat.add_0_r (pos st)). apply Hk.
Qed.

Lemma rmatch_complete (ic : bool) (r : regex) (p : nat) (w a : string) :
  Matches ic r p w a -> complete_for ic r p w a.
Proof.
  induction 1 as [ p a | c x p a Hc | x p a Hc | neg items x p a Hc
                 | r1 r2 p w1 w2 a M1 IH1 M2 IH2
                 | r1 r2 p w a M IH | r1 r2 p w a M IH
                 | r p a | r p w1 w2 a Hw M1 IH1 M2 IH2
                 | r p w a M IH | a | p ];
    intros st k Hp Hr Hk; try subst p.
  - split; [|exact I]. cbn [rmatch]. now apply continue_here with (a := a).
  - split; [|exact I]. cbn [rmatch]. cbn [append] in Hr. rewrite Hr, Hc.
    now apply continue_step with (x := x).
  - split; [|exact I]. cbn [rmatch]. cbn [append] in Hr. rewrite Hr, Hc.
    now apply continue_step with (x := x).
  - split; [|exact I]. cbn [rmatch]. cbn [append] in Hr. rewrite Hr, Hc.
    now apply continue_step with (x := x).
  - split; [|exact I]. cbn [rmatch]. rewrite app_assoc in Hr.
    apply (IH1 st _ eq_refl Hr). intros g.
    apply (IH2 (MState (pos st + String.length w1) (w2 ++ a) g) k eq_refl eq_refl).
    intros g'. rewrite <- Nat.add_assoc, <- length_app. apply Hk.
  - split; [|exact I]. cbn [rmatch].
    destruct (rmatch ic r1 st k) eqn:H1; [discriminate|].
    exfalso. now apply (proj1 (IH st k eq_refl Hr Hk)).
  - split; [|exact I]. cbn [rmatch].
    destruct (rmatch ic r1 st k) eqn:H1; [discriminate|].
    apply (IH st k eq_refl Hr Hk).
  - assert (Hn : forall n, star_loop (rmatch ic r) k n st <> None).
    { intros [|n]; cbn [star_loop].
      - now apply continue_here with (a := a).
      - match goal with
        | |- match ?m with _ => _ end <> None => destruct m; [discriminate|]
        end.
        now apply continue_here with (a := a). }
    split; [apply Hn | intros n _; apply Hn].
  - assert (Hn : forall n, String.length (w1 ++ w2) <= n ->
                           star_loop (rmatch ic r) k n st <> None).
    { intros n Hn. rewrite length_app in Hn.
      destruct n as [|n].
      - destruct w1; [congruence | simpl in Hn; lia].
      - cbn [star_loop].
        match goal with
        | |- match ?m with _ => _ end <> None => destruct m eqn:Hm; [discriminate|]
        end.
        exfalso. revert Hm. rewrite app_assoc in Hr.
        apply (IH1 st _ eq_refl Hr). intros g. cbn [pos].
        replace (pos st <? pos st + String.length w1) with true.
        + apply (proj2 (IH2 (MState (pos st + String.length w1) (w2 ++ a) g) k
                          eq_refl eq_refl
                          (fun g' => eq_ind _ (fun m => k (MState m a g') <> None)
                                       (Hk g') _
                                       (eq_trans (f_equal (Nat.add (pos st)) (length_app w1 w2))
                                                 (Nat.add_assoc _ _ _))))).
          destruct w1; [congruence | simpl in Hn; lia].
        + symmetry. apply Nat.ltb_lt. destruct w1; [congruence | simpl; lia]. }
    split; [|exact Hn]. cbn [rmatch]. apply Hn. rewrite Hr, !length_app. lia.
  - split; [|exact I]. cbn [rmatch].
    apply (IH st _ eq_refl Hr). intros g. apply Hk.
  - split; [|exact I]. cbn [rmatch]. rewrite Hp. cbn [Nat.eqb].
    apply continue_here with (a := a); [exact Hr|]. now rewrite Hp.
  - split; [|exact I]. cbn [rmatch]. cbn [append] in Hr. rewrite Hr.
    now apply continue_here with (a := "").
Qed.

(** *** What the matcher prefers

    [beyond b] is the continuation that accepts only an end after position
    [b]: the matcher answers [None] under it exactly when no match reaches
    further than [b]. *)

Definition beyond (b : nat) (st : mstate) : option mstate :=
  if pos st <=? b then None else Some st.

Lemma star_loop_answers (m : mstate -> (mstate -> option mstate) -> option mstate)
      (n : nat) (st : mstate) :
  star_loop m Some n st <> None.
Proof.
  destruct n; cbn [star_loop]; [discriminate|].
  match goal with |- match ?c with _ => _ end <> _ => destruct c; discriminate end.
Qed.

(** A continuation that refuses more refuses the whole attempt when the
    other one does. *)
Lemma rmatch_none_mono (ic : bool) (r : regex) :
  forall st k k',
    (forall st', k st' = None -> k' st' = None) ->
    rmatch ic r st k = None -> rmatch ic r st k' = None.
Proof.
  induction r as [ | c | | neg items | r1 IH1 r2 IH2 | r1 IH1 r2 IH2
                 | r IH | r IH | | ]; intros st k k' Hk; cbn [rmatch].
  - apply Hk.
  - destruct (rest st); [reflexivity|]. destruct (char_eq ic c a); [apply Hk | reflexivity].
  - destruct (rest st); [reflexivity|]. destruct (is_line_terminator a); [reflexivity | apply Hk].
  - destruct (rest st); [reflexivity|]. destruct (set_holds neg items a); [apply Hk | reflexivity].
  - apply IH1. intros st'. now apply IH2.
  - destruct (rmatch ic r1 st k) eqn:H1; [discriminate|].
    rewrite (IH1 st k k' Hk H1). now apply IH2.
  - generalize (S (String.length (rest st))). intros n. revert st.
    induction n as [|n IHn]; intros st; cbn [star_loop]; [apply Hk|].
    match goal with
    | |- match ?c with _ => _ end = None -> _ => destruct c eqn:H1; [discriminate|]
    end.
    intros H. rewrite (Hk st H).
    match goal with
    | |- match ?c with _ => _ end = None => replace c with (@None mstate); [reflexivity|]
    end.
    symmetry. revert H1. apply IH. intros st'.
    destruct (pos st <? pos st'); [apply IHn | reflexivity].
  - apply IH. intros st'. apply Hk.
  - destruct (pos st =? 0); [apply Hk | reflexivity].
  - destruct (rest st); [apply Hk | reflexivity].
Qed.

Lemma star_loop_none_mono (ic : bool) (r : regex) :
  forall n st k k',
    (forall st', k st' = None -> k' st' = None) ->
    star_loop (rmatch ic r) k n st = None -> star_loop (rmatch ic r) k' n st = None.
Proof.
  induction n as [|n IHn]; intros st k k' Hk; cbn [star_loop]; [apply Hk|].
  match goal with
  | |- match ?c with _ => _ end = None -> _ => destruct c eqn:H1; [discriminate|]
  end.
  intros H. rewrite (Hk st H).
  match goal with
  | |- match ?c with _ => _ end = None => replace c with (@None mstate); [reflexivity|]
  end.
  symmetry. revert H1. apply rmatch_none_mono. intros st'.
  destruct (pos st <? pos st'); [now apply IHn | reflexivity].
Qed.

(** The length of the longest prefix made of characters of a class. *)
Fixpoint run_length (P : ascii -> bool) (s : string) : nat :=
  match s with
  | String c s' => if P c then S (run_length P s') else 0
  | EmptyString => 0
  end.

Section ClassStar.

Variable ic : bool.
Variables (neg : bool) (items : list cls).

Local Abbreviation P := (set_holds neg items).
Local Abbreviation m := (rmatch ic (RSet neg items)).

Lemma class_star_step (k : mstate -> option mstate) (n : nat) (st : mstate) :
  star_loop m k (S n) st =
  match rest st with
  | String c s' =>
      if P c
      then match star_loop m k n (MState (S (pos st)) s' (grp st)) with
           | Some x => Some x
           | None => k st
           end
      else k st
  | EmptyString => k st
  end.
Proof.
  cbn [star_loop].
  assert (Hm : forall k', m st k' =
                          match rest st with
                          | String c s' => if P c then k' (step st s') else None
                          | EmptyString => None
                          end) by reflexivity.
  rewrite Hm. destruct (rest st) as [|c s']; [reflexivity|].
  destruct (P c); [|reflexivity].
  unfold step; cbn [pos]. now rewrite (proj2 (Nat.ltb_lt _ _)) by lia.
Qed.

Lemma class_star_beyond (n : nat) :
  forall st b,
    pos st + run_length P (rest st) <= b -> star_loop m (beyond b) n st = None.
Proof.
  induction n as [|n IH]; intros st b Hb.
  - cbn [star_loop]. unfold beyond.
    rewrite (proj2 (Nat.leb_le _ _)); [reflexivity | lia].
  - rewrite class_star_step.
    assert (Hst : beyond b st = None)
      by (unfold beyond; rewrite (proj2 (Nat.leb_le _ _)); [reflexivity | lia]).
    destruct (rest st) as [|c s'] eqn:Hr; [exact Hst|].
    cbn [run_length] in Hb. destruct (P c) eqn:Hc; [|exact Hst].
    rewrite IH; [exact Hst | cbn [pos rest]; lia].
Qed.

Lemma class_star_some (n : nat) :
  forall st x,
    String.length (rest st) <= n -> star_loop m Some n st = Some x ->
    pos st + run_length P (rest st) <= pos x.
Proof.
  induction n as [|n IH]; intros st x Hn.
  - cbn [star_loop]. destruct (rest st); [|simpl in Hn; lia].
    intros [= <-]. simpl. lia.
  - rewrite class_star_step.
    destruct (rest st) as [|c s'] eqn:Hr; [intros [= <-]; simpl; lia|].
    cbn [run_length]. destruct (P c); [|intros [= <-]; lia].
    destruct (star_loop m Some n (MState (S (pos st)) s' (grp st))) as [y|] eqn:Hy.
    + intros [= <-]. simpl in Hn.
      assert (Hl : String.length (rest (MState (S (pos st)) s' (grp st))) <= n)
        by (cbn [rest]; lia).
      specialize (IH _ _ Hl Hy). cbn [pos rest] in IH. lia.
    + now apply star_loop_answers in Hy.
Qed.

(** A star of a class at the end of a regex takes the longest run. *)
Lemma class_star_bounded (st x : mstate) :
  rmatch ic (RStar (RSet neg items)) st Some = Some x ->
  forall b, pos x <= b ->
    rmatch ic (RStar (RSet neg items)) st (beyond b) = None.
Proof.
  cbn [rmatch]. intros H b Hb. apply class_star_beyond.
  apply class_star_some in H; [lia | lia].
Qed.

(** A star of a class before something that no character of the class
    can start. *)
Lemma class_star_exclusive
      (K : (mstate -> option mstate) -> mstate -> option mstate) :
  (forall f st c s', rest st = String c s' -> P c = true -> K f st = None) ->
  (forall st x, K Some st = Some x ->
                forall b, pos x <= b -> K (beyond b) st = None) ->
  forall n st x,
    star_loop m (K Some) n st = Some x ->
    forall b, pos x <= b -> star_loop m (K (beyond b)) n st = None.
Proof.
  intros Hex Hbd. induction n as [|n IH]; intros st x H b Hb.
  - cbn [star_loop] in *. now apply (Hbd st x).
  - rewrite class_star_step in H |- *.
    destruct (rest st) as [|c s'] eqn:Hr; [now apply (Hbd st x)|].
    destruct (P c) eqn:Hc; [|now apply (Hbd st x)].
    destruct (star_loop m (K Some) n (MState (S (pos st)) s' (grp st))) as [y|] eqn:Hy.
    + injection H as <-. rewrite (IH _ _ Hy b Hb). now apply (Hex _ st c s').
    + now rewrite (Hex Some st c s' Hr Hc) in H.
Qed.

End ClassStar.

Section ClassStarOfRegex.

Variable ic : bool.
Variables (neg : bool) (items : list cls).

Lemma star_of_class_some (st x : mstate) :
  rmatch ic (RStar (RSet neg items)) st Some = Some x ->
  pos st + run_length (set_holds neg items) (rest st) <= pos x.
Proof.
  intros H.
  apply (@class_star_some ic neg items (S (String.length (rest st))) st x);
    [lia | exact H].
Qed.

Lemma star_of_class_beyond (st : mstate) (b : nat) :
  pos st + run_length (set_holds neg items) (rest st) <= b ->
  rmatch ic (RStar (RSet neg items)) st (beyond b) = None.
Proof.
  intros H.
  exact (@class_star_beyond ic neg items (S (String.length (rest st))) st b H).
Qed.

Lemma star_of_class_exclusive
      (K : (mstate -> option mstate) -> mstate -> option mstate) :
  (forall f st c s', rest st = String c s' -> set_holds neg items c = true ->
                     K f st = None) ->
  (forall st x, K Some st = Some x ->
                forall b, pos x <= b -> K (beyond b) st = None) ->
  forall st x,
    rmatch ic (RStar (RSet neg items)) st (K Some) = Some x ->
    forall b, pos x <= b ->
      rmatch ic (RStar (RSet neg items)) st (K (beyond b)) = None.
Proof.
  intros Hex Hbd st x.
  exact (@class_star_exclusive ic neg items K Hex Hbd
           (S (String.length (rest st))) st x).
Qed.

End ClassStarOfRegex.

Lemma char_eq_exact (c a : ascii) : char_eq false c a = true -> a = c.
Proof. unfold char_eq. intros H. apply Ascii.eqb_eq in H. now symmetry. Qed.

Lemma match_here_complete (ic : bool) (r : regex) (i : nat) (w a : string) :
  Matches ic r i w a -> match_here ic r i (w ++ a) <> None.
Proof.
  intros M. unfold match_here.
  apply (proj1 (@rmatch_complete ic r i w a M (MState i (w ++ a) None) Some
                  eq_refl eq_refl (fun g H => eq_ind (Some _) (fun o => match o with Some _ => True | None => False end) I None H))).
Qed.

(** A regex whose preferred match at a position is the longest one there:
    once the matcher has answered, no attempt reaches further. *)
Definition bounded (ic : bool) (r : regex) : Prop :=
  forall i s x,
    match_here ic r i s = Some x ->
    forall b, pos x <= b -> rmatch ic r (MState i s None) (beyond b) = None.

Lemma bounded_longest (ic : bool) (r : regex) (i : nat) (s : string) (x : mstate) :
  bounded ic r -> match_here ic r i s = Some x ->
  forall w a, s = w ++ a -> Matches ic r i w a -> i + String.length w <= pos x.
Proof.
  intros Hb Hx w a Hs M.
  destruct (le_lt_dec (i + String.length w) (pos x)) as [Hle | Hlt]; [exact Hle|].
  exfalso.
  refine (proj1 (@rmatch_complete ic r i w a M (MState i s None) (beyond (pos x))
                   eq_refl Hs _) (Hb i s x Hx (pos x) (le_n _))).
  intros g. unfold beyond. cbn [pos].
  rewrite (proj2 (Nat.leb_gt _ _)) by lia. discriminate.
Qed.

Lemma search_unfold (ic : bool) (r : regex) (i : nat) (s : string) :
  search ic r i s =
  match match_here ic r i s with
  | Some st => Some (Found i (substring 0 (pos st - i) s) (grp st) (rest st))
  | None =>
      match s with
      | EmptyString => None
      | String _ s' => search ic r (S i) s'
      end
  end.
Proof. destruct s; reflexivity. Qed.

(** A match that exists is found, at its position or before. *)
Lemma search_complete (ic : bool) (r : regex) :
  forall pre i w post,
    Matches ic r (i + String.length pre) w post ->
    exists f, search ic r i (pre ++ w ++ post) = Some f /\
              index f <= i + String.length pre.
Proof.
  induction pre as [|c pre IH]; intros i w post M; rewrite search_unfold.
  - cbn [append String.length] in *. rewrite Nat.add_0_r in M.
    destruct (match_here ic r i (w ++ post)) as [st|] eqn:Hm.
    + eexists. split; [reflexivity|]. cbn [index]. lia.
    + now apply match_here_complete in M.
  - destruct (match_here ic r i (String c pre ++ w ++ post)) as [st|].
    + eexists. split; [reflexivity|]. cbn [index]. lia.
    + cbn [append String.length] in *. rewrite <- plus_n_Sm in M.
      destruct (IH (S i) w post M) as (f & Hf & Hi).
      exists f. split; [exact Hf | lia].
Qed.

Lemma match_here_length (ic : bool) (r : regex) (i : nat) (s : string) (st : mstate) :
  match_here ic r i s = Some st ->
  pos st = i + String.length (substring 0 (pos st - i) s).
Proof.
  intros H. destruct (match_here_sound _ _ _ _ H) as (w & Hs & Hp & _).
  assert (Hw : pos st - i = String.length w) by lia.
  rewrite Hw. subst s. now rewrite substring_app.
Qed.

(** Where [search] stops, the matcher has answered with the text found. *)
Lemma search_here (ic : bool) (r : regex) :
  forall s i f,
    search ic r i s = Some f ->
    exists pre tl x,
      s = pre ++ tl /\ index f = i + String.length pre /\
      match_here ic r (index f) tl = Some x /\
      pos x = index f + String.length (text0 f).
Proof.
  induction s as [|c s IH]; intros i f; rewrite search_unfold.
  - destruct (match_here ic r i "") as [st|] eqn:Hm; [|discriminate].
    intros [= <-]. exists "", "", st. cbn [index text0 append String.length].
    repeat split; [lia | exact Hm | exact (@match_here_length ic r i "" st Hm)].
  - destruct (match_here ic r i (String c s)) as [st|] eqn:Hm.
    + intros [= <-]. exists "", (String c s), st.
      cbn [index text0 append String.length].
      repeat split;
        [lia | exact Hm | exact (@match_here_length ic r i (String c s) st Hm)].
    + intros H. destruct (IH _ _ H) as (pre & tl & x & Hs & Hi & Hx & Hp).
      exists (String c pre), tl, x. cbn [append String.length].
      rewrite <- Hs. repeat split; try assumption; lia.
Qed.

Lemma app_same_length (a b a' b' : string) :
  a ++ b = a' ++ b' -> String.length a = String.length a' -> a = a' /\ b = b'.
Proof.
  revert a'. induction a as [|x a IH]; intros [|y a']; simpl; intros H Hl;
    try discriminate.
  - now split.
  - inversion H; subst. destruct (IH a' H2) as [-> ->]; [lia | now split].
Qed.

End RegexFacts.
Import RegexFacts.

(* ------------------------------------------------------------------ *)
(** ** Computations *)

Module CompFacts.

Lemma run_bind {A B : Type} (ev : string -> value + error) (c : comp A)
      (f : A -> comp B) :
  run ev (bind c f) =
  match run ev c with
  | inl a => run ev (f a)
  | inr e => inr e
  end.
Proof. induction c as [a | e | s k IH]; simpl; auto. Qed.

Lemma run_catch {A : Type} (ev : string -> value + error) (c : comp A)
      (h : error -> comp A) :
  run ev (catch c h) =
  match run ev c with
  | inl a => inl a
  | inr e => run ev (h e)
  end.
Proof. induction c as [a | e | s k IH]; simpl; auto. Qed.

Lemma calls_bind {A B : Type} (c : comp A) (f : A -> comp B) (s : string) :
  calls (bind c f) s -> calls c s \/ exists a, calls (f a) s.
Proof.
  induction c as [a | e | src k IH]; simpl; intros H.
  - right. now exists a.
  - inversion H.
  - inversion H; subst.
    + left. constructor.
    + match goal with
      | Hc : calls (bind (k ?o) f) s |- _ =>
          destruct (IH o Hc) as [Hl | Hr]; [left; econstructor 2; eauto | now right]
      end.
Qed.

Lemma calls_catch {A : Type} (c : comp A) (h : error -> comp A) (s : string) :
  calls (catch c h) s -> calls c s \/ exists e, calls (h e) s.
Proof.
  induction c as [a | e | src k IH]; simpl; intros H.
  - inversion H.
  - right. now exists e.
  - inversion H; subst.
    + left. constructor.
    + match goal with
      | Hc : calls (catch (k ?o) h) s |- _ =>
          destruct (IH o Hc) as [Hl | Hr]; [left; econstructor 2; eauto | now right]
      end.
Qed.

Lemma calls_bind_l {A B : Type} (c : comp A) (f : A -> comp B) (s : string) :
  calls c s -> calls (bind c f) s.
Proof.
  induction 1; simpl; [constructor | econstructor 2; eauto].
Qed.

Lemma calls_catch_l {A : Type} (c : comp A) (h : error -> comp A) (s : string) :
  calls c s -> calls (catch c h) s.
Proof.
  induction 1; simpl; [constructor | econstructor 2; eauto].
Qed.

End CompFacts.
Import CompFacts.

(* ------------------------------------------------------------------ *)
(** ** The fallback rule engine *)

Module FallbackFacts.

(** A handler that, whatever [eval] does, returns [{ message, entities }]
    with a message that is not empty. *)
Definition returns_message (c : comp value) : Prop :=
  forall ev, exists m ents,
    run ev c = inl (handler_result (VStr m) ents) /\ m <> "".

Ltac returns_now :=
  intros ev; eexists; eexists; split; [reflexivity | simpl; discriminate].

Lemma time_handler_returns E text : returns_message (time_handler E text).
Proof. returns_now. Qed.

Lemma date_handler_returns E text : returns_message (date_handler E text).
Proof. returns_now. Qed.

Lemma search_handler_returns E text : returns_message (search_handler E text).
Proof. returns_now. Qed.

Lemma open_website_handler_returns E text :
  returns_message (open_website_handler E text).
Proof. returns_now. Qed.

Lemma reminder_handler_returns E text :
  returns_message (reminder_handler E text).
Proof. returns_now. Qed.

Lemma calculation_handler_returns E text :
  returns_message (calculation_handler E text).
Proof.
  intros ev. unfold calculation_handler. rewrite run_catch.
  destruct (test false safe_re (calc_expression text)).
  - rewrite run_bind. cbn [js_eval run].
    destruct (ev (calc_expression text)) as [v | e]; cbn [run];
      eexists; eexists; (split; [reflexivity | simpl; discriminate]).
  - eexists; eexists; (split; [reflexivity | simpl; discriminate]).
Qed.

Lemma jokes_nonempty : Forall (fun j => j <> "") jokes.
Proof. unfold jokes. repeat constructor; discriminate. Qed.

Lemma joke_handler_returns E text : returns_message (joke_handler E text).
Proof.
  intros ev. unfold joke_handler. eexists; eexists; split; [reflexivity|].
  assert (Hin : In (nth (random E mod List.length jokes) jokes "") jokes).
  { apply nth_In. apply Nat.mod_upper_bound. discriminate. }
  exact (proj1 (Forall_forall _ _) jokes_nonempty _ Hin).
Qed.

(** An entry of the table always yields a message: its handler does, or it
    declares one. *)
Definition entry_ok (data : pattern) : Prop :=
  match handler data with
  | Some h => forall E text, returns_message (h E text)
  | None => exists m, message data = Some m /\ m <> ""
  end.

Lemma patterns_ok : Forall entry_ok patterns.
Proof.
  unfold patterns.
  repeat (apply Forall_cons; [unfold entry_ok; cbn [handler message] |]);
    try apply Forall_nil;
    try (eexists; split; [reflexivity | simpl; discriminate]).
  - apply time_handler_returns.
  - apply date_handler_returns.
  - apply search_handler_returns.
  - apply open_website_handler_returns.
  - apply reminder_handler_returns.
  - apply calculation_handler_returns.
  - apply joke_handler_returns.
Qed.

Lemma answer_shape E text data ev :
  entry_ok data ->
  exists ents m,
    run ev (answer E text data) =
      inl (intent_result (name data) ents (VStr m) (confidence data) fallback_model)
    /\ m <> "".
Proof.
  unfold entry_ok, answer. destruct (handler data) as [h|]; intros H.
  - destruct (H E text ev) as (m & ents & Hr & Hm).
    rewrite !run_bind, Hr. cbn.
    eexists; exists m; split; [reflexivity | exact Hm].
  - destruct H as (m & Hmsg & Hm). rewrite Hmsg. cbn.
    eexists; exists m; split; [reflexivity | exact Hm].
Qed.

Lemma find_pattern_In lowerText table data :
  find_pattern lowerText table = Some data ->
  In data table /\ matches lowerText data = true.
Proof.
  induction table as [|p table IH]; simpl; [discriminate|].
  destruct (matches lowerText p) eqn:Hm.
  - intros H; inversion H; subst. auto.
  - intros H. destruct (IH H). auto.
Qed.

(** First match wins: the entry found is the first of the table that
    matches. *)
Lemma find_pattern_first lowerText before data after :
  (forall p, In p before -> matches lowerText p = false) ->
  matches lowerText data = true ->
  find_pattern lowerText (before ++ data :: after) = Some data.
Proof.
  induction before as [|p before IH]; simpl; intros Hb Hd.
  - now rewrite Hd.
  - rewrite (Hb p (or_introl eq_refl)). apply IH; auto.
Qed.

Lemma find_pattern_none lowerText table :
  find_pattern lowerText table = None <->
  forall p, In p table -> matches lowerText p = false.
Proof.
  induction table as [|p table IH]; simpl.
  - split; [intros _ p [] | reflexivity].
  - destruct (matches lowerText p) eqn:Hm.
    + split; [discriminate | intros H; specialize (H p (or_introl eq_refl)); congruence].
    + rewrite IH. split.
      * intros H q [<- | Hq]; auto.
      * intros H q Hq. apply H. now right.
Qed.

Lemma matches_occurs lowerText data :
  matches lowerText data = true <->
  exists keyword, In keyword (keywords data) /\ occurs_in keyword lowerText.
Proof.
  unfold matches. rewrite existsb_exists.
  split; intros (kw & Hin & H); exists kw; split; auto;
    now apply includes_occurs.
Qed.

Lemma matches_no_occurs lowerText data :
  matches lowerText data = false <->
  forall keyword, In keyword (keywords data) -> ~ occurs_in keyword lowerText.
Proof.
  split.
  - intros H kw Hin Ho.
    assert (matches lowerText data = true) by (apply matches_occurs; eauto).
    congruence.
  - intros H. destruct (matches lowerText data) eqn:Hm; [|reflexivity].
    apply matches_occurs in Hm. destruct Hm as (kw & Hin & Ho).
    exfalso. eapply H; eauto.
Qed.

(** A check that can be computed: none of the entries matches. *)
Lemma none_matches lowerText (ps : list pattern) :
  forallb (fun p => negb (matches lowerText p)) ps = true ->
  forall p, In p ps -> matches lowerText p = false.
Proof.
  intros H p Hp. rewrite forallb_forall in H. specialize (H p Hp).
  now apply negb_true_iff in H.
Qed.

Lemma fallback_match E text ev data :
  find_pattern (trim (toLowerCase text)) patterns = Some data ->
  exists ents m,
    run ev (fallbackIntentRecognition E text) =
      inl (intent_result (name data) ents (VStr m) (confidence data) fallback_model)
    /\ m <> "".
Proof.
  intros H. unfold fallbackIntentRecognition. rewrite H.
  apply answer_shape. apply find_pattern_In in H.
  exact (proj1 (Forall_forall _ _) patterns_ok _ (proj1 H)).
Qed.

Lemma fallback_unknown E text ev :
  find_pattern (trim (toLowerCase text)) patterns = None ->
  exists m,
    run ev (fallbackIntentRecognition E text) =
      inl (intent_result "unknown" (extractEntities E text) (VStr m) 0.30
                         fallback_model)
    /\ m <> "".
Proof.
  intros H. unfold fallbackIntentRecognition. rewrite H.
  eexists; split; [reflexivity | simpl; discriminate].
Qed.

(** The rule engine is total and its result always has the five fields,
    with the fallback marker as [model]. *)
Lemma fallback_total E text ev :
  exists intent ents m conf,
    run ev (fallbackIntentRecognition E text) =
      inl (intent_result intent ents (VStr m) conf fallback_model)
    /\ m <> ""
    /\ (find_pattern (trim (toLowerCase text)) patterns = None /\
        intent = "unknown" /\ conf = 0.30%Q
        \/ exists data,
          find_pattern (trim (toLowerCase text)) patterns = Some data /\
          intent = name data /\ conf = confidence data).
Proof.
  destruct (find_pattern (trim (toLowerCase text)) patterns) as [data|] eqn:Hf.
  - destruct (fallback_match E text ev Hf) as (ents & m & Hr & Hm).
    exists (name data), ents, m, (confidence data).
    split; [exact Hr | split; [exact Hm | right; now exists data]].
  - destruct (fallback_unknown E text ev Hf) as (m & Hr & Hm).
    exists "unknown", (extractEntities E text), m, 0.30%Q.
    split; [exact Hr | split; [exact Hm | now left]].
Qed.

End FallbackFacts.
Import FallbackFacts.

(* ------------------------------------------------------------------ *)
(** ** A sample host, for the examples *)

Module Sample.

Definition quoted (s : string) : string := dq ++ s ++ dq.

(** A reply of the provider that obeys the schema as far as the facade
    reads it, and the value it parses to. *)
Definition reply0 : string :=
  "{" ++ quoted "data" ++ ":{" ++ quoted "intent" ++ ":" ++ quoted "search" ++ "}}".

Definition parsed0 : value := VObj [("data", VObj [("intent", VStr "search")])].

Definition host0 : Env := {|
  timeString := "10:15:00 AM";
  dateString := "Monday, November 2, 2026";
  random := 3;
  ToString := fun v =>
    match v with
    | VObj _ => "[object Object]"
    | _ => "1e+21"
    end;
  parseInt := fun s =>
    match NilEmpty.uint_of_string s with
    | Some u => VNum (inject_Z (Z.of_uint u))
    | None => VUndefined
    end;
  JSON_parse := fun s => if String.eqb s reply0 then Some parsed0 else None
|}.

(** An [eval] that knows one sum. *)
Definition eval0 (src : string) : value + error :=
  if String.eqb src "5 + 3" then inl (VNum 8)
  else inr (JsError VUndefined "Unexpected end of input").

(** The configuration when the environment sets nothing. *)
Definition config0 : Config := {|
  maxTextLength := 1000;
  llm_apiKey := "";
  llm_model := "grok-beta"
|}.

(** A provider that always sends [reply0]. *)
Definition client0 : client := fun _ => Replied (Some reply0).

End Sample.
Import Sample.

(* ------------------------------------------------------------------ *)
(** ** The facade *)

Module FacadeFacts.

(** The texts that pass the input checks of [processIntent]. *)
Definition valid (config : Config) (s : string) : Prop :=
  s <> "" /\ trim s <> "" /\ String.length (trim s) <= maxTextLength config.

Lemma length_zero (s : string) : String.length s = 0 <-> s = "".
Proof. destruct s; simpl; split; intros H; try reflexivity; discriminate. Qed.

Lemma validate_valid config s :
  valid config s -> validate config (VStr s) = Ret (trim s).
Proof.
  intros (H1 & H2 & H3). unfold validate.
  destruct (String.eqb_spec s "") as [->|_]; [contradiction|].
  destruct (Nat.eqb_spec (String.length (trim s)) 0) as [H0|_].
  - apply length_zero in H0. contradiction.
  - destruct (Nat.ltb_spec (maxTextLength config) (String.length (trim s)));
      [lia | reflexivity].
Qed.

Lemma validate_throws config text e ev :
  run ev (validate config text) = inr e -> exists m, e = ApiError 400 m.
Proof.
  unfold validate. destruct text; simpl; try (intros H; inversion H; eauto).
  revert H. destruct (String.eqb s ""); simpl; [intros H; inversion H; eauto|].
  destruct (String.length (trim s) =? 0); simpl; [intros H; inversion H; eauto|].
  destruct (maxTextLength config <? String.length (trim s)); simpl;
    intros H; inversion H; eauto.
Qed.

(** With no API key the module variable stays [null]. *)
Lemma no_key_no_client config construct :
  llm_apiKey config = "" -> grokClient_at_load config construct = None.
Proof.
  intros H. unfold grokClient_at_load, initializeGrokClient. now rewrite H.
Qed.

(** With no client [callGrok] is the rule engine. *)
Lemma callGrok_unconfigured E sys text ev :
  run ev (callGrok E sys None text) = run ev (fallbackIntentRecognition E text).
Proof.
  unfold callGrok. rewrite run_catch. cbn [callGrok_try].
  destruct (fallback_total E text ev) as (i & ents & m & c & Hr & _).
  now rewrite Hr.
Qed.

(** The facade of the current service, with no client: the result of the
    rule engine has no [data] field, so every field takes its default. *)
Lemma processIntent_unconfigured E config sys ev s :
  valid config s ->
  run ev (processIntent E config sys None (VStr s)) =
  inl (intent_result "unknown" [] (VStr "Processing complete") 0.5
                     (llm_model config)).
Proof.
  intros Hv. unfold processIntent.
  rewrite run_catch, (validate_valid Hv). cbn [bind].
  rewrite run_bind, callGrok_unconfigured.
  destruct (fallback_total E (trim s) ev) as (i & ents & m & c & Hr & _).
  rewrite Hr. reflexivity.
Qed.

(** The facade of the copy that reads the fields on the result itself, with
    no client: the result of the rule engine, unchanged. *)
Lemma processIntent_flat_unconfigured E config sys ev s :
  valid config s ->
  run ev (processIntent_flat E config sys None (VStr s)) =
  run ev (fallbackIntentRecognition E (trim s))
  /\ exists r, run ev (processIntent_flat E config sys None (VStr s)) = inl r
               /\ get r "model" = VStr fallback_model.
Proof.
  intros Hv. unfold processIntent_flat.
  rewrite run_catch, (validate_valid Hv). cbn [bind].
  rewrite run_bind, callGrok_unconfigured.
  destruct (fallback_total E (trim s) ev) as (i & ents & m & c & Hr & Hm & Hi).
  rewrite Hr. cbn [run bind member read intent_result get lookup String.eqb Ascii.eqb Bool.eqb].
  assert (Hti : truthy (VStr i) = true).
  { destruct Hi as [(_ & -> & _) | (data & Hf & -> & _)]; [reflexivity|].
    apply find_pattern_In in Hf. destruct Hf as [Hin _].
    unfold patterns in Hin. simpl in Hin.
    repeat (destruct Hin as [<- | Hin]; [reflexivity|]). contradiction. }
  assert (Htm : truthy (VStr m) = true).
  { simpl. destruct (String.eqb_spec m ""); [contradiction | reflexivity]. }
  assert (Htc : truthy (VNum c) = true).
  { destruct Hi as [(_ & _ & ->) | (data & Hf & _ & ->)]; [reflexivity|].
    apply find_pattern_In in Hf. destruct Hf as [Hin _].
    unfold patterns in Hin. simpl in Hin.
    repeat (destruct Hin as [<- | Hin]; [reflexivity|]). contradiction. }
  unfold or_else. rewrite Hti, Htm, Htc. cbn.
  split; [reflexivity | eexists; split; reflexivity].
Qed.

(** C1, at the text "hello" and the default configuration, which has no API
    key: the rule engine answers with intent [greeting] and the model
    [fallback-rule-based], but [processIntent] reads the fields under
    [result.data], finds none, and returns the defaults, with the configured
    model name [grok-beta] as [model], not the fallback marker. *)
Theorem processIntent_unconfigured_hello :
  forall E ev systemPrompt construct,
    run ev (processIntent E config0 systemPrompt
              (grokClient_at_load config0 construct) (VStr "hello")) =
    inl (VObj [("intent", VStr "unknown"); ("entities", VObj []);
               ("message", VStr "Processing complete");
               ("confidence", VNum 0.5); ("model", VStr "grok-beta")])
    /\ run ev (fallbackIntentRecognition E "hello") =
       inl (VObj [("intent", VStr "greeting"); ("entities", VObj []);
                  ("message", VStr "Hello! I'm VoiceReplica. How can I help you today?");
                  ("confidence", VNum 0.85);
                  ("model", VStr "fallback-rule-based")]).
Proof.
  intros E ev sys construct. split.
  - rewrite no_key_no_client by reflexivity.
    rewrite processIntent_unconfigured; [reflexivity|].
    repeat split; try discriminate. vm_compute. lia.
  - reflexivity.
Qed.

End FacadeFacts.
Import FacadeFacts.

(* ------------------------------------------------------------------ *)
(** ** The intents a result can carry *)

Module IntentFacts.

(** The closed set the specification names. *)
Definition closed_intents : list string :=
  ["search"; "qna"; "summarize"; "form_fill"; "book_ticket"; "website_search";
   "navigation"; "other"; "unknown"].

(** The names of the pattern table, and [unknown]. *)
Definition fallback_intents : list string :=
  ["greeting"; "farewell"; "thanks"; "help"; "time"; "date"; "weather";
   "search"; "open_website"; "reminder"; "calculation"; "joke"; "unknown"].

Lemma fallback_intents_table : fallback_intents = (map name patterns ++ ["unknown"])%list.
Proof. reflexivity. Qed.

Lemma schema_intents_closed i : In i schema_intents -> In i closed_intents.
Proof.
  unfold schema_intents, closed_intents. simpl.
  intros H. repeat (destruct H as [<- | H]; [tauto|]). contradiction.
Qed.

(** With a client that replies [content], which parses to [v], [callGrok]
    returns [v]. *)
Lemma callGrok_replied E sys ev (c : client) text content v :
  c (finalPrompt sys text) = Replied (Some content) ->
  JSON_parse E content = Some v ->
  run ev (callGrok E sys (Some c) text) = inl v.
Proof.
  intros Hc Hp. unfold callGrok. rewrite run_catch.
  cbn [callGrok_try]. now rewrite Hc, Hp.
Qed.

(** C2 as stated fails: for the text "hello" the rule engine answers with
    the intent [greeting], which is not in the closed set. *)
Lemma fallback_intent_outside_closed_set :
  ~ (forall E ev text,
        exists r, run ev (fallbackIntentRecognition E text) = inl r /\
                  In (get r "intent") (map VStr closed_intents)).
Proof.
  intros H. destruct (H host0 eval0 "hello") as (r & Hr & Hin).
  vm_compute in Hr. inversion Hr; subst r; clear Hr. simpl in Hin.
  repeat (destruct Hin as [Hin | Hin]; [discriminate|]). contradiction.
Qed.

(** C2, amended: for every text the rule engine returns a result whose
    intent is a name of its own pattern table or [unknown]; on the model
    path the facade returns the intent of the reply when there is one and
    [unknown] otherwise, so a reply whose intent obeys the schema gives an
    intent of the closed set. *)
Theorem intent_of_result :
  forall E ev,
    (forall text,
        exists r, run ev (fallbackIntentRecognition E text) = inl r /\
                  In (get r "intent") (map VStr fallback_intents))
    /\
    (forall config sys (c : client) s content v,
        valid config s ->
        c (finalPrompt sys (trim s)) = Replied (Some content) ->
        JSON_parse E content = Some v ->
        exists r,
          run ev (processIntent E config sys (Some c) (VStr s)) = inl r /\
          get r "intent" = or_else (get (get v "data") "intent") (VStr "unknown") /\
          (In (get (get v "data") "intent") (map VStr schema_intents) ->
           In (get r "intent") (map VStr closed_intents))).
Proof.
  intros E ev. split.
  - intros text.
    destruct (fallback_total E text ev) as (i & ents & m & c & Hr & _ & Hi).
    eexists; split; [exact Hr|]. cbn.
    destruct Hi as [(_ & -> & _) | (data & Hf & -> & _)].
    + simpl. tauto.
    + apply find_pattern_In in Hf. destruct Hf as [Hin _].
      unfold patterns in Hin. simpl in Hin.
      repeat (destruct Hin as [<- | Hin]; [simpl; tauto|]). contradiction.
  - intros config sys c s content v Hv Hc Hp.
    unfold processIntent. rewrite run_catch, (validate_valid Hv). cbn [bind].
    rewrite run_bind, (callGrok_replied E sys ev c (trim s) Hc Hp).
    cbn [run]. eexists; split; [reflexivity|].
    cbn [get lookup String.eqb Ascii.eqb Bool.eqb]. split; [reflexivity|].
    intros Hin. apply in_map_iff in Hin. destruct Hin as (i & Hi & Hin).
    rewrite <- Hi. unfold or_else.
    assert (Ht : truthy (VStr i) = true).
    { unfold schema_intents in Hin. simpl in Hin.
      repeat (destruct Hin as [<- | Hin]; [reflexivity|]). contradiction. }
    rewrite Ht. apply in_map. now apply schema_intents_closed.
Qed.

Lemma intent_of_result_witness :
  exists r,
    run eval0 (processIntent host0 config0 "" (Some client0)
                 (VStr "search cats")) = inl r /\
    In (get r "intent") (map VStr closed_intents).
Proof.
  destruct (intent_of_result host0 eval0) as [_ H].
  destruct (H config0 "" client0 "search cats" reply0 parsed0)
    as (r & Hr & _ & Hin).
  - repeat split; try discriminate. vm_compute. lia.
  - reflexivity.
  - reflexivity.
  - exists r. split; [exact Hr|]. apply Hin. simpl. tauto.
Defined.

End IntentFacts.
Import IntentFacts.

(* ------------------------------------------------------------------ *)
(** ** Error policy of the classifier *)

Module ErrorPolicy.

(** The errors that cross the boundary of the facade. *)
Definition hard_failure (e : error) : Prop :=
  match e with
  | ApiError code _ => code = 400%Z \/ code = 502%Z \/ code = 429%Z
  | JsError _ _ => False
  end.

Lemma callGrok_catch_fallback E text error ev :
  status_is error 401 = false -> status_is error 429 = false ->
  run ev (callGrok_catch E text error) = run ev (fallbackIntentRecognition E text).
Proof.
  intros H1 H2. unfold callGrok_catch. rewrite H1, H2.
  destruct (status_is error 500 || status_is error 503); reflexivity.
Qed.

Lemma callGrok_rejected E sys ev (c : client) text e :
  c (finalPrompt sys text) = Rejected e ->
  run ev (callGrok E sys (Some c) text) = run ev (callGrok_catch E text e).
Proof.
  intros Hc. unfold callGrok. rewrite run_catch. cbn [callGrok_try].
  now rewrite Hc.
Qed.

Lemma callGrok_throws E sys ev grokClient text e :
  run ev (callGrok E sys grokClient text) = inr e ->
  e = ApiError 502 "Invalid LLM API key configuration" \/
  e = ApiError 429 "Rate limit exceeded. Please try again later.".
Proof.
  unfold callGrok. rewrite run_catch.
  destruct (run ev (callGrok_try E sys grokClient text)) as [v | e0];
    [discriminate|].
  unfold callGrok_catch.
  destruct (status_is e0 401); [intros H; inversion H; auto|].
  destruct (status_is e0 429); [intros H; inversion H; auto|].
  destruct (fallback_total E text ev) as (i & ents & m & c & Hr & _).
  destruct (status_is e0 500 || status_is e0 503); rewrite Hr; discriminate.
Qed.

(** C3: in [callGrok] a provider error of status 401 is rethrown as an
    [ApiError] 502 and one of status 429 as an [ApiError] 429; a status 500
    or 503, a reply that is JSON neither as it is nor after the extraction
    of its braces, and any other error give the result of the rule engine;
    and whatever [processIntent] throws is an [ApiError] with code 400
    (validation), 502 or 429. *)
Theorem callGrok_error_policy :
  forall E config sys ev (c : client) text,
    (forall m, c (finalPrompt sys text) = Rejected (JsError (VNum 401) m) ->
       run ev (callGrok E sys (Some c) text) =
       inr (ApiError 502 "Invalid LLM API key configuration"))
    /\ (forall m, c (finalPrompt sys text) = Rejected (JsError (VNum 429) m) ->
       run ev (callGrok E sys (Some c) text) =
       inr (ApiError 429 "Rate limit exceeded. Please try again later."))
    /\ (forall m, c (finalPrompt sys text) = Rejected (JsError (VNum 500) m) \/
                  c (finalPrompt sys text) = Rejected (JsError (VNum 503) m) ->
       run ev (callGrok E sys (Some c) text) =
       run ev (fallbackIntentRecognition E text))
    /\ (forall content,
          c (finalPrompt sys text) = Replied (Some content) ->
          JSON_parse E content = None ->
          (forall jsonMatch, exec false json_object_re content = Some jsonMatch ->
                             JSON_parse E (text0 jsonMatch) = None) ->
       run ev (callGrok E sys (Some c) text) =
       run ev (fallbackIntentRecognition E text))
    /\ (forall e, c (finalPrompt sys text) = Rejected e ->
          status_is e 401 = false -> status_is e 429 = false ->
       run ev (callGrok E sys (Some c) text) =
       run ev (fallbackIntentRecognition E text))
    /\ (forall grokClient input e,
          run ev (processIntent E config sys grokClient input) = inr e ->
          hard_failure e).
Proof.
  intros E config sys ev c text. repeat split.
  - intros m Hc. now rewrite (callGrok_rejected E sys ev c text Hc).
  - intros m Hc. now rewrite (callGrok_rejected E sys ev c text Hc).
  - intros m [Hc | Hc]; rewrite (callGrok_rejected E sys ev c text Hc);
      now apply callGrok_catch_fallback.
  - intros content Hc Hp Hj. unfold callGrok. rewrite run_catch.
    cbn [callGrok_try]. rewrite Hc, Hp.
    destruct (exec false json_object_re content) as [f|] eqn:Hx.
    + rewrite (Hj f eq_refl). cbn [run].
      now apply callGrok_catch_fallback.
    + cbn [run]. now apply callGrok_catch_fallback.
  - intros e Hc H1 H2. rewrite (callGrok_rejected E sys ev c text Hc).
    now apply callGrok_catch_fallback.
  - intros grokClient input e. unfold processIntent.
    rewrite run_catch, run_bind.
    destruct (run ev (validate config input)) as [t | e0] eqn:Hv.
    + rewrite run_bind.
      destruct (run ev (callGrok E sys grokClient t)) as [r | e1] eqn:Hg.
      * discriminate.
      * apply callGrok_throws in Hg.
        destruct Hg as [-> | ->]; cbn [rethrow run]; intros H; inversion H;
          simpl; auto.
    + apply validate_throws in Hv. destruct Hv as [m ->].
      cbn [rethrow run]. intros H; inversion H; simpl; auto.
Qed.

(** The copy of the facade that reads the fields on the result itself is
    outside this policy: a reply that parses to [null] makes it throw a
    [TypeError], which leaves as an [ApiError] 500. *)
Lemma processIntent_flat_null_reply E config sys ev (c : client) s content :
  valid config s ->
  c (finalPrompt sys (trim s)) = Replied (Some content) ->
  JSON_parse E content = Some VNull ->
  run ev (processIntent_flat E config sys (Some c) (VStr s)) =
  inr (ApiError 500 "Failed to process intent").
Proof.
  intros Hv Hc Hp. unfold processIntent_flat.
  rewrite run_catch, (validate_valid Hv). cbn [bind].
  rewrite run_bind, (callGrok_replied E sys ev c (trim s) Hc Hp).
  reflexivity.
Qed.

(** A provider that rejects every call with an error of the given status. *)
Definition failing (status : Q) : client :=
  fun _ => Rejected (JsError (VNum status) "provider error").

Lemma callGrok_error_policy_witness :
  run eval0 (callGrok host0 "" (Some (failing 401)) "hello") =
    inr (ApiError 502 "Invalid LLM API key configuration")
  /\ run eval0 (callGrok host0 "" (Some (failing 429)) "hello") =
     inr (ApiError 429 "Rate limit exceeded. Please try again later.")
  /\ run eval0 (callGrok host0 "" (Some (failing 503)) "hello") =
     run eval0 (fallbackIntentRecognition host0 "hello")
  /\ run eval0 (callGrok host0 "" (Some (fun _ => Replied (Some "not json"))) "hello") =
     run eval0 (fallbackIntentRecognition host0 "hello")
  /\ run eval0 (callGrok host0 "" (Some (failing 404)) "hello") =
     run eval0 (fallbackIntentRecognition host0 "hello")
  /\ hard_failure (ApiError 429 "Rate limit exceeded. Please try again later.").
Proof.
  split; [|split; [|split; [|split; [|split]]]].
  - destruct (callGrok_error_policy host0 config0 "" eval0 (failing 401) "hello")
      as (H & _).
    exact (H "provider error" eq_refl).
  - destruct (callGrok_error_policy host0 config0 "" eval0 (failing 429) "hello")
      as (_ & H & _).
    exact (H "provider error" eq_refl).
  - destruct (callGrok_error_policy host0 config0 "" eval0 (failing 503) "hello")
      as (_ & _ & H & _).
    exact (H "provider error" (or_intror eq_refl)).
  - destruct (callGrok_error_policy host0 config0 "" eval0
                (fun _ => Replied (Some "not json")) "hello")
      as (_ & _ & _ & H & _).
    apply (H "not json" eq_refl eq_refl).
    intros jsonMatch Hx. vm_compute in Hx. discriminate.
  - destruct (callGrok_error_policy host0 config0 "" eval0 (failing 404) "hello")
      as (_ & _ & _ & _ & H & _).
    exact (H (JsError (VNum 404) "provider error") eq_refl eq_refl eq_refl).
  - destruct (callGrok_error_policy host0 config0 "" eval0 (failing 429) "hello")
      as (_ & _ & _ & _ & _ & H).
    apply (H (Some (failing 429)) (VStr "hello")). reflexivity.
Defined.

End ErrorPolicy.
Import ErrorPolicy.

(* ------------------------------------------------------------------ *)
(** ** First match wins *)

Module FirstMatch.

Lemma fallback_first_match E ev text before data after :
  patterns = (before ++ data :: after)%list ->
  (forall p keyword, In p before -> In keyword (keywords p) ->
                     ~ occurs_in keyword (trim (toLowerCase text))) ->
  (exists keyword, In keyword (keywords data) /\
                   occurs_in keyword (trim (toLowerCase text))) ->
  exists r,
    run ev (fallbackIntentRecognition E text) = inl r /\
    get r "intent" = VStr (name data) /\
    get r "confidence" = VNum (confidence data).
Proof.
  intros Ht Hb Hd.
  assert (Hf : find_pattern (trim (toLowerCase text)) patterns = Some data).
  { rewrite Ht. apply find_pattern_first.
    - intros p Hp. apply matches_no_occurs. intros kw Hkw. now apply (Hb p).
    - now apply matches_occurs. }
  destruct (fallback_match E text ev Hf) as (ents & m & Hr & _).
  eexists. split; [exact Hr|]. split; reflexivity.
Qed.

(** The entry [joke] of the table, the last one. *)
Definition joke_keywords : list string :=
  ["joke"; "make me laugh"; "something funny"; "tell me a joke"; "funny"].

Definition joke_entry : pattern :=
  {| name := "joke"; keywords := joke_keywords; message := None;
     confidence := 0.80; entities := None; handler := Some joke_handler |}.

(** C4: the rule engine returns for the first entry of the table, in the
    order of declaration, one of whose keywords occurs in the lowered and
    trimmed text; the intent of the result is the name of that entry and
    its confidence the declared one.  In particular a text in which only
    keywords of the entry [joke] occur gets the intent [joke] with the
    confidence 0.80. *)
Theorem fallback_first_match_wins :
  forall E ev text,
    (forall before data after,
        patterns = (before ++ data :: after)%list ->
        (forall p keyword, In p before -> In keyword (keywords p) ->
                           ~ occurs_in keyword (trim (toLowerCase text))) ->
        (exists keyword, In keyword (keywords data) /\
                         occurs_in keyword (trim (toLowerCase text))) ->
        exists r,
          run ev (fallbackIntentRecognition E text) = inl r /\
          get r "intent" = VStr (name data) /\
          get r "confidence" = VNum (confidence data))
    /\
    ((forall p keyword, In p patterns -> name p <> "joke" ->
                        In keyword (keywords p) ->
                        ~ occurs_in keyword (trim (toLowerCase text))) ->
     (exists keyword, In keyword joke_keywords /\
                      occurs_in keyword (trim (toLowerCase text))) ->
     exists r,
       run ev (fallbackIntentRecognition E text) = inl r /\
       get r "intent" = VStr "joke" /\
       get r "confidence" = VNum 0.80).
Proof.
  intros E ev text. split.
  - intros before data after. apply fallback_first_match.
  - intros Hothers Hjoke.
    refine (@fallback_first_match E ev text (firstn 11 patterns) joke_entry []
              eq_refl _ Hjoke).
    intros p kw Hp Hkw. apply (Hothers p kw); auto.
    + unfold patterns in *. simpl in Hp |- *. tauto.
    + unfold patterns in Hp. simpl in Hp.
      repeat (destruct Hp as [<- | Hp]; [discriminate|]). contradiction.
Qed.

(** A check that can be computed: no keyword of the entries occurs. *)
Lemma no_keyword_occurs lowerText (ps : list pattern) :
  forallb (fun p => negb (matches lowerText p)) ps = true ->
  forall p keyword, In p ps -> In keyword (keywords p) ->
                    ~ occurs_in keyword lowerText.
Proof.
  intros H p kw Hp Hkw.
  exact (proj1 (matches_no_occurs _ _) (none_matches _ _ H p Hp) kw Hkw).
Qed.

Lemma fallback_first_match_wins_witness :
  (exists r,
      run eval0 (fallbackIntentRecognition host0 "Tell me a JOKE") = inl r /\
      get r "intent" = VStr "joke" /\
      get r "confidence" = VNum 0.80)
  /\
  (exists r,
      run eval0 (fallbackIntentRecognition host0 "  make me LAUGH ") = inl r /\
      get r "intent" = VStr "joke" /\
      get r "confidence" = VNum 0.80).
Proof.
  split.
  - destruct (fallback_first_match_wins host0 eval0 "Tell me a JOKE") as [H _].
    apply (H (firstn 11 patterns) joke_entry []).
    + reflexivity.
    + apply no_keyword_occurs. vm_compute. reflexivity.
    + exists "joke". split; [simpl; tauto|].
      apply includes_occurs. vm_compute. reflexivity.
  - destruct (fallback_first_match_wins host0 eval0 "  make me LAUGH ") as [_ H].
    apply H.
    + intros p kw Hp Hn Hkw.
      assert (Hp' : In p (firstn 11 patterns)).
      { unfold patterns in Hp. simpl in Hp. unfold patterns. simpl.
        repeat (destruct Hp as [<- | Hp]; [tauto|]).
        try (destruct Hp as [<- | Hp]; [now elim Hn |]). contradiction. }
      clear Hp Hn. revert p kw Hp' Hkw. apply no_keyword_occurs.
      vm_compute. reflexivity.
    + exists "make me laugh". split; [simpl; tauto|].
      apply includes_occurs. vm_compute. reflexivity.
Defined.

End FirstMatch.
Import FirstMatch.

(* ------------------------------------------------------------------ *)
(** ** The calculation handler *)

Module Calculation.

(** The entry [calculation] of the table, the eleventh. *)
Definition calculation_entry : pattern :=
  {| name := "calculation";
     keywords := ["calculate"; "what is"; "plus"; "minus"; "times"; "divided";
                  "multiply"; "add"; "subtract"];
     message := None; confidence := 0.85; entities := None;
     handler := Some calculation_handler |}.

Lemma what_is_fires_calculation :
  find_pattern (trim (toLowerCase "what is 5 plus 3")) patterns =
  Some calculation_entry.
Proof.
  change patterns
    with (firstn 10 patterns ++ calculation_entry :: skipn 11 patterns)%list.
  apply find_pattern_first.
  - apply none_matches. vm_compute. reflexivity.
  - vm_compute. reflexivity.
Qed.

Lemma what_is_expression : calc_expression "what is 5 plus 3" = "5 + 3".
Proof. vm_compute. reflexivity. Qed.

(** When the expression passes the guard, the handler calls [eval] on it. *)
Lemma calculation_handler_evaluates E text :
  test false safe_re (calc_expression text) = true ->
  calls (calculation_handler E text) (calc_expression text).
Proof.
  intros Ht. unfold calculation_handler. rewrite Ht.
  apply calls_catch_l, calls_bind_l. unfold js_eval. constructor.
Qed.

(** C5: for the text "what is 5 plus 3" the rule engine fires the entry
    [calculation]: it hands "5 + 3" to [eval] and, [eval] giving 8, returns
    the message "The answer is 8." with the entities expression "5 + 3",
    result 8 and action "calculate". *)
Theorem fallback_calculation_example :
  forall E ev,
    ev "5 + 3" = inl (VNum 8) ->
    calls (fallbackIntentRecognition E "what is 5 plus 3") "5 + 3" /\
    exists ents,
      run ev (fallbackIntentRecognition E "what is 5 plus 3") =
        inl (intent_result "calculation" ents (VStr "The answer is 8.") 0.85
                           fallback_model) /\
      lookup "expression" ents = Some (VStr "5 + 3") /\
      lookup "result" ents = Some (VNum 8) /\
      lookup "action" ents = Some (VStr "calculate").
Proof.
  intros E ev Hev.
  assert (Hsafe : test false safe_re (calc_expression "what is 5 plus 3") = true)
    by (vm_compute; reflexivity).
  unfold fallbackIntentRecognition. rewrite what_is_fires_calculation.
  unfold answer. cbn [handler message entities name confidence calculation_entry].
  split.
  - apply calls_bind_l, calls_bind_l. rewrite <- what_is_expression.
    now apply calculation_handler_evaluates.
  - rewrite !run_bind. unfold calculation_handler.
    rewrite run_catch, Hsafe, run_bind, what_is_expression.
    cbn [js_eval run]. rewrite Hev. cbn [run].
    cbv -[ToString parseInt].
    eexists. split; [reflexivity | repeat split].
Qed.

Lemma fallback_calculation_example_witness :
  exists ents,
    run eval0 (fallbackIntentRecognition host0 "what is 5 plus 3") =
      inl (intent_result "calculation" ents (VStr "The answer is 8.") 0.85
                         fallback_model) /\
    lookup "result" ents = Some (VNum 8).
Proof.
  destruct (fallback_calculation_example host0 eval0 eq_refl)
    as (_ & ents & Hr & _ & Hres & _).
  exists ents. split; [exact Hr | exact Hres].
Defined.

End Calculation.
Import Calculation.

(* ------------------------------------------------------------------ *)
(** ** Opening a site *)

Module OpenSite.

(** What the page that asks for the dispatch hands to [process]: the
    response of the API around a result. *)
Definition api_response (data : value) : value :=
  VObj [("success", VBool true); ("data", data);
        ("message", VStr "Command processed successfully")].

Definition open_url (url : string) : value :=
  VObj [("action", VStr "OPEN_URL"); ("url", VStr url)].

Lemma handleOpenSite_website ev entities w :
  get entities "website" = VStr w ->
  run ev (handleOpenSite entities) =
  inl (open_url (if startsWith w "http" then w else "https://" ++ w)).
Proof.
  intros H. unfold handleOpenSite, member, read.
  destruct entities; try discriminate. cbn [bind]. now rewrite H.
Qed.

(** C6 as stated fails: for "open youtube" the rule engine extracts the
    website "youtube", and the dispatcher's URL for it is not
    https://www.youtube.com. *)
Lemma open_youtube_not_resolved :
  ~ (exists r a,
        run eval0 (fallbackIntentRecognition host0 "open youtube") = inl r /\
        run eval0 (handleOpenSite (get r "entities")) = inl a /\
        get a "url" = VStr "https://www.youtube.com").
Proof.
  intros (r & a & Hr & Ha & Hu).
  vm_compute in Hr. inversion Hr; subst r; clear Hr.
  vm_compute in Ha. inversion Ha; subst a; clear Ha.
  vm_compute in Hu. discriminate.
Qed.

(** The [url] entity is not consulted. *)
Lemma handleOpenSite_ignores_url :
  run eval0 (handleOpenSite
               (VObj [("url", VStr "https://www.youtube.com");
                      ("website", VStr "youtube")])) =
  inl (open_url "https://youtube").
Proof. reflexivity. Qed.

(** Only [open_site] reaches [handleOpenSite]; the intents [navigation] of
    the classifier and [open_website] of the rule engine have no entry in
    the table of handlers. *)
Lemma select_open_site :
  select "open_site" = SelOpenSite /\
  select "navigation" = SelDefault /\
  select "open_website" = SelDefault.
Proof. repeat split. Qed.

(** C6, amended: the dispatcher resolves the URL of an [open_site] intent
    from [entities.website] alone: the website itself when it starts with
    "http", else "https://" followed by the website.  For "open youtube"
    with no model the rule engine gives the intent [open_website] with the
    website "youtube", which resolves to https://youtube. *)
Theorem handleOpenSite_url :
  forall E ev,
    (forall entities w,
        get entities "website" = VStr w ->
        run ev (handleOpenSite entities) =
        inl (open_url (if startsWith w "http" then w else "https://" ++ w)))
    /\
    (forall data entities w,
        get data "intent" = VStr "open_site" ->
        get data "entities" = entities ->
        get entities "website" = VStr w ->
        run ev (process E (api_response data)) =
        inl [tabs_create
               (VStr (if startsWith w "http" then w else "https://" ++ w))])
    /\
    (exists r,
        run ev (fallbackIntentRecognition E "open youtube") = inl r /\
        get r "intent" = VStr "open_website" /\
        get (get r "entities") "website" = VStr "youtube" /\
        run ev (handleOpenSite (get r "entities")) =
        inl (open_url "https://youtube")).
Proof.
  intros E ev. split; [|split].
  - intros entities w. apply handleOpenSite_website.
  - intros data entities w Hi He Hw.
    assert (Ht : truthy data = true) by (destruct data; try discriminate; reflexivity).
    assert (Hp : process_result E (api_response data) = handleOpenSite entities).
    { unfold process_result, api_response.
      cbn [destructurable bind get lookup String.eqb Ascii.eqb Bool.eqb truthy
           negb orb].
      rewrite Ht, Hi. cbv beta iota zeta.
      change (select (toLowerCase "open_site")) with SelOpenSite.
      cbv iota. now rewrite He. }
    unfold process. rewrite run_bind, Hp, (handleOpenSite_website ev entities Hw).
    reflexivity.
  - eexists. split; [vm_compute; reflexivity|]. repeat split.
Qed.

Lemma handleOpenSite_url_witness :
  run eval0 (handleOpenSite (VObj [("website", VStr "youtube.com")])) =
    inl (open_url "https://youtube.com")
  /\ run eval0 (process host0
                  (api_response
                     (VObj [("intent", VStr "open_site");
                            ("entities", VObj [("website", VStr "https://youtube.com")])]))) =
     inl [tabs_create (VStr "https://youtube.com")].
Proof.
  destruct (handleOpenSite_url host0 eval0) as (H1 & H2 & _). split.
  - exact (H1 (VObj [("website", VStr "youtube.com")]) "youtube.com" eq_refl).
  - exact (H2 (VObj [("intent", VStr "open_site");
                     ("entities", VObj [("website", VStr "https://youtube.com")])])
              (VObj [("website", VStr "https://youtube.com")])
              "https://youtube.com" eq_refl eq_refl eq_refl).
Defined.

End OpenSite.
Import OpenSite.

(* ------------------------------------------------------------------ *)
(** ** Entity extraction *)

Module EntityFacts.

Lemma search_leftmost (ic : bool) (r : regex) :
  forall s i f,
    search ic r i s = Some f ->
    forall pre' rest',
      s = pre' ++ rest' -> i + String.length pre' < index f ->
      match_here ic r (i + String.length pre') rest' = None.
Proof.
  induction s as [|c s IH]; intros i f H pre' rest' Hs Hlt; cbn [search] in H.
  - destruct (match_here ic r i "") as [st|] eqn:Hm; [|discriminate].
    inversion H; subst f. simpl in Hlt. lia.
  - destruct (match_here ic r i (String c s)) as [st|] eqn:Hm.
    + inversion H; subst f. simpl in Hlt. lia.
    + destruct pre' as [|x pre'].
      * simpl in Hs. subst rest'. simpl. now rewrite Nat.add_0_r.
      * simpl in Hs. inversion Hs; subst.
        specialize (IH (S i) f H pre' rest' eq_refl).
        simpl. rewrite <- plus_n_Sm. apply IH. simpl in Hlt. lia.
Qed.

Lemma first_match_search (ic : bool) (r : regex) (text : string) :
  first_match ic r text = option_map text0 (search ic r 0 text).
Proof.
  unfold first_match, match_all. cbn [match_all_from].
  destruct (search ic r 0 text) as [f|]; [|reflexivity].
  cbn [option_map]. destruct (text0 f), (after f); reflexivity.
Qed.

Lemma first_match_nonempty (ic : bool) (r : regex) (text m : string) :
  nullable r = false -> first_match ic r text = Some m -> m <> "".
Proof.
  intros Hn. rewrite first_match_search.
  destruct (search ic r 0 text) as [f|] eqn:Hs; [|discriminate].
  simpl. intros H; inversion H; subst m. eapply search_nonempty; eauto.
Qed.

(** The date, as the loop over the two patterns finds it. *)
Definition date_of (text : string) : option string :=
  match first_match false date_slash_re text with
  | Some m => Some m
  | None => first_match false date_iso_re text
  end.

Lemma first_date_patterns text : first_date datePatterns text = date_of text.
Proof.
  unfold date_of. cbn [first_date datePatterns].
  destruct (first_match false date_slash_re text); [reflexivity|].
  destruct (first_match false date_iso_re text); reflexivity.
Qed.

Lemma date_of_nonempty text m : date_of text = Some m -> m <> "".
Proof.
  unfold date_of.
  destruct (first_match false date_slash_re text) as [d|] eqn:H1.
  - intros H; inversion H; subst. eapply first_match_nonempty; eauto. reflexivity.
  - intros H. eapply first_match_nonempty; eauto. reflexivity.
Qed.

Definition entity_keys : list string := ["numbers"; "time"; "url"; "email"; "date"].

Ltac all_cases text :=
  unfold extractEntities; rewrite first_date_patterns;
  destruct (match_all false numbers_re text) as [ns|];
  destruct (first_match true time_re text) as [t|];
  destruct (first_match false url_re text) as [u|];
  destruct (first_match false email_re text) as [e|];
  destruct (date_of text) as [d|];
  cbn [set_if set lookup keys map fst String.eqb Ascii.eqb Bool.eqb option_map].

(** A match of [r] in [text]: the word [w], at position [p]. *)
Definition match_at (ic : bool) (r : regex) (text : string) (p : nat) (w : string)
  : Prop :=
  exists pre post,
    text = pre ++ w ++ post /\ String.length pre = p /\ Matches ic r p w post.

Definition has_match (ic : bool) (r : regex) (text : string) : Prop :=
  exists p w, match_at ic r text p w.

(** [m] is the first match of [r] in [text], and the longest of those that
    start where it does. *)
Definition first_longest (ic : bool) (r : regex) (text m : string) : Prop :=
  exists p,
    match_at ic r text p m /\
    forall p' w',
      match_at ic r text p' w' ->
      p < p' \/ (p' = p /\ String.length w' <= String.length m).

(** There is one such match at most. *)
Lemma first_longest_unique (ic : bool) (r : regex) (text m m' : string) :
  first_longest ic r text m -> first_longest ic r text m' -> m = m'.
Proof.
  intros (p & Hm & Hfirst) (p' & Hm' & Hfirst').
  destruct (Hfirst _ _ Hm') as [Hlt | [Hp Hl]];
    destruct (Hfirst' _ _ Hm) as [Hlt' | [Hp' Hl']]; try lia.
  subst p'. destruct Hm as (pre & post & Ht & Hlen & _).
  destruct Hm' as (pre' & post' & Ht' & Hlen' & _).
  rewrite Ht in Ht'. apply app_same_length in Ht'; [|lia].
  destruct Ht' as [_ Ht']. apply app_same_length in Ht'; [tauto | lia].
Qed.

Lemma first_match_found (ic : bool) (r : regex) (text m : string) :
  first_match ic r text = Some m -> has_match ic r text.
Proof.
  rewrite first_match_search.
  destruct (search ic r 0 text) as [f|] eqn:Hs; [|discriminate].
  intros _. destruct (@search_sound ic r text 0 f Hs) as (pre & Ht & Hi & M).
  exists (index f), (text0 f), pre, (after f). simpl in Hi. auto.
Qed.

Lemma first_match_none (ic : bool) (r : regex) (text : string) :
  first_match ic r text = None -> ~ has_match ic r text.
Proof.
  rewrite first_match_search. intros H (p & w & pre & post & Ht & Hl & M).
  subst p text.
  destruct (@search_complete ic r pre 0 w post M) as (f & Hf & _).
  now rewrite Hf in H.
Qed.

Lemma first_match_first_longest (ic : bool) (r : regex) (text m : string) :
  bounded ic r -> first_match ic r text = Some m -> first_longest ic r text m.
Proof.
  intros Hb. rewrite first_match_search.
  destruct (search ic r 0 text) as [f|] eqn:Hs; [|discriminate].
  cbn [option_map]. intros [= <-].
  destruct (@search_sound ic r text 0 f Hs) as (pre & Ht & Hi & M).
  simpl in Hi. exists (index f). split; [exists pre, (after f); auto|].
  intros p' w' (pre' & post' & Ht' & Hl' & M').
  destruct (lt_eq_lt_dec p' (index f)) as [[Hlt | Heq] | Hgt]; [exfalso | right | left; exact Hgt].
  - apply (@match_here_complete ic r p' w' post' M').
    subst p'. apply (@search_leftmost ic r text 0 f Hs pre' (w' ++ post') Ht').
    simpl. exact Hlt.
  - split; [exact Heq|].
    destruct (@search_here ic r text 0 f Hs) as (pre0 & tl & x & Ht0 & Hi0 & Hx & Hp).
    simpl in Hi0.
    assert (Htl : tl = w' ++ post').
    { rewrite Ht0 in Ht'. apply app_same_length in Ht'; [tauto | lia]. }
    assert (Hle := @bounded_longest ic r (index f) tl x Hb Hx w' post' Htl).
    rewrite <- Heq in Hle at 1. specialize (Hle M'). lia.
Qed.

(** *** The five regexes prefer the longest match

    By cases on the characters that the regex looks at; for each of them
    only the tests of the regex matter. *)

(** The case analysis: the input is split character by character as far
    as the regex reads it, and each character by the tests it passes. *)
Ltac use_facts H :=
  lazymatch type of H with
  | _ /\ _ => let H1 := fresh "Hc" in let H2 := fresh "Hc" in
              destruct H as [H1 H2]; use_facts H1; use_facts H2
  | _ \/ _ => destruct H as [H | H]; use_facts H
  | _ = _ => rewrite ?H
  end.

Ltac split_char lem c :=
  let H := fresh "Hc" in
  pose proof (lem c) as H; cbv zeta in H; use_facts H; cbv beta iota.

Ltac finish b :=
  first
    [ discriminate
    | let H := fresh "H" in
      intros H; first [ discriminate H
                      | injection H as <-; unfold beyond, step in *; cbn [pos grp] in *;
                        repeat match goal with
                               | |- context [?n <=? b] =>
                                   rewrite (proj2 (Nat.leb_le n b)) by lia
                               end;
                        reflexivity ] ].

Ltac crunch lem b :=
  repeat match goal with
         | |- context [match ?s with EmptyString => _ | String _ _ => _ end] =>
             is_var s;
             let c := fresh "c" in
             destruct s as [|c s]; cbv beta iota; [try finish b | split_char lem c; try finish b]
         end.

(** The tests of [date_iso_re] on one character. *)
Lemma iso_char (c : ascii) :
  (set_holds false [CDigit] c = true /\ char_eq false "-" c = false) \/
  (set_holds false [CDigit] c = false /\ char_eq false "-" c = true) \/
  (set_holds false [CDigit] c = false /\ char_eq false "-" c = false).
Proof. destruct c as [[] [] [] [] [] [] [] []]; vm_compute; tauto. Qed.

(** Once [date_iso_re] has matched at a position, no match of it there
    reaches further. *)
Lemma iso_bounded i s x :
  match_here false date_iso_re i s = Some x ->
  forall b, pos x <= b -> rmatch false date_iso_re (MState i s None) (beyond b) = None.
Proof.
  unfold match_here, date_iso_re, seqs, R4, R2, RDigit.
  cbn [rmatch rest pos grp step].
  intros H b Hb. revert H.
  crunch iso_char b.
Qed.

Lemma slash_char (c : ascii) :
  (set_holds false [CDigit] c = true /\ char_eq false "/" c = false) \/
  (set_holds false [CDigit] c = false /\ char_eq false "/" c = true) \/
  (set_holds false [CDigit] c = false /\ char_eq false "/" c = false).
Proof. destruct c as [[] [] [] [] [] [] [] []]; vm_compute; tauto. Qed.

(** The same for [date_slash_re], whose quantifiers are greedy. *)
Lemma slash_bounded i s x :
  match_here false date_slash_re i s = Some x ->
  forall b, pos x <= b -> rmatch false date_slash_re (MState i s None) (beyond b) = None.
Proof.
  unfold match_here, date_slash_re, seqs, R1to2, R2to4, ROpt, RDigit.
  cbn [rmatch rest pos grp step].
  intros H b Hb. revert H.
  crunch slash_char b.
Qed.

Lemma time_char (c : ascii) :
  let d := set_holds false [CDigit] c in
  let sp := set_holds false [CSpace] c in
  let co := char_eq true ":" c in
  let a := char_eq true "a" c in
  let m := char_eq true "m" c in
  let p := char_eq true "p" c in
  (d = true /\ sp = false /\ co = false /\ a = false /\ m = false /\ p = false) \/
  (d = false /\ sp = true /\ co = false /\ a = false /\ m = false /\ p = false) \/
  (d = false /\ sp = false /\ co = true /\ a = false /\ m = false /\ p = false) \/
  (d = false /\ sp = false /\ co = false /\ a = true /\ m = false /\ p = false) \/
  (d = false /\ sp = false /\ co = false /\ a = false /\ m = true /\ p = false) \/
  (d = false /\ sp = false /\ co = false /\ a = false /\ m = false /\ p = true) \/
  (d = false /\ sp = false /\ co = false /\ a = false /\ m = false /\ p = false).
Proof. destruct c as [[] [] [] [] [] [] [] []]; vm_compute; tauto. Qed.

(** The same for [time_re]: its two alternatives never match at the same
    position, and the optional parts of the first are taken when they can
    be. *)
Lemma time_bounded i s x :
  match_here true time_re i s = Some x ->
  forall b, pos x <= b -> rmatch true time_re (MState i s None) (beyond b) = None.
Proof.
  unfold match_here, time_re, am_pm, alts, seqs, lit, R1to2, R2, ROpt, RDigit, RSpace.
  cbn [rmatch rest pos grp step].
  intros H b Hb. revert H.
  crunch time_char b.
Qed.

Lemma url_char (c : ascii) :
  let h := char_eq false "h" c in
  let t := char_eq false "t" c in
  let p := char_eq false "p" c in
  let s := char_eq false "s" c in
  let co := char_eq false ":" c in
  let sl := char_eq false "/" c in
  let ns := set_holds true [CSpace] c in
  (h = true /\ t = false /\ p = false /\ s = false /\ co = false /\ sl = false /\ ns = true) \/
  (h = false /\ t = true /\ p = false /\ s = false /\ co = false /\ sl = false /\ ns = true) \/
  (h = false /\ t = false /\ p = true /\ s = false /\ co = false /\ sl = false /\ ns = true) \/
  (h = false /\ t = false /\ p = false /\ s = true /\ co = false /\ sl = false /\ ns = true) \/
  (h = false /\ t = false /\ p = false /\ s = false /\ co = true /\ sl = false /\ ns = true) \/
  (h = false /\ t = false /\ p = false /\ s = false /\ co = false /\ sl = true /\ ns = true) \/
  (h = false /\ t = false /\ p = false /\ s = false /\ co = false /\ sl = false /\ ns = true) \/
  (h = false /\ t = false /\ p = false /\ s = false /\ co = false /\ sl = false /\ ns = false).
Proof. destruct c as [[] [] [] [] [] [] [] []]; vm_compute; tauto. Qed.

(** A leaf of the case analysis that ends in the star of a class: the star
    takes the longest run. *)
Ltac tail_leaf :=
  unfold step; cbn [pos rest grp];
  match goal with
  | Htail : forall st x, rmatch _ ?tail st Some = Some x -> _,
    Hb : pos _ <= ?b |- context [rmatch ?ic ?tail ?st Some] =>
      let E := fresh "E" in
      destruct (rmatch ic tail st Some) eqn:E; cbv beta iota;
      [ intros [= <-]; rewrite (Htail _ _ E b Hb); reflexivity | discriminate ]
  end.

(** The same for [url_re]. *)
Lemma url_bounded i s x :
  match_here false url_re i s = Some x ->
  forall b, pos x <= b -> rmatch false url_re (MState i s None) (beyond b) = None.
Proof.
  unfold match_here, url_re, seqs, lit, ROpt, RPlus.
  pose proof (@class_star_bounded false true [CSpace]) as Htail.
  remember (RStar (RSet true [CSpace])) as tail eqn:Et. clear Et.
  cbn [rmatch rest pos grp step].
  intros H b Hb. revert H.
  crunch url_char b; tail_leaf.
Qed.

(** *** The email regex *)

Local Abbreviation local_set :=
  [CRange "a" "z"; CRange "A" "Z"; CRange "0" "9";
   CCh "."; CCh "_"; CCh "%"; CCh "+"; CCh "-"]%char.
Local Abbreviation domain_set :=
  [CRange "a" "z"; CRange "A" "Z"; CRange "0" "9"; CCh "."; CCh "-"]%char.
Local Abbreviation letter_set := [CRange "a" "z"; CRange "A" "Z"]%char.

(** The end of the regex after the domain: [\.[a-zA-Z]{2,}]. *)
Definition email_tld (f : mstate -> option mstate) (st : mstate) : option mstate :=
  rmatch false (RSeq (RChar ".") (R2up (RSet false letter_set))) st f.

(** The regex after the local part: [@[a-zA-Z0-9.-]+\.[a-zA-Z]{2,}]. *)
Definition email_host (f : mstate -> option mstate) (st : mstate) : option mstate :=
  rmatch false
    (RSeq (RChar "@")
          (RSeq (RPlus (RSet false domain_set))
                (RSeq (RChar ".") (R2up (RSet false letter_set))))) st f.

Lemma email_tld_unfold f st :
  email_tld f st =
  match rest st with
  | String c s' =>
      if char_eq false "." c then
        match s' with
        | String l1 s1 =>
            if set_holds false letter_set l1 then
              match s1 with
              | String l2 s2 =>
                  if set_holds false letter_set l2 then
                    rmatch false (RStar (RSet false letter_set))
                           (MState (S (S (S (pos st)))) s2 (grp st)) f
                  else None
              | EmptyString => None
              end
            else None
        | EmptyString => None
        end
      else None
  | EmptyString => None
  end.
Proof. reflexivity. Qed.

Lemma email_host_unfold f st :
  email_host f st =
  match rest st with
  | String c s' =>
      if char_eq false "@" c then
        match s' with
        | String d s'' =>
            if set_holds false domain_set d then
              rmatch false (RStar (RSet false domain_set))
                     (MState (S (S (pos st))) s'' (grp st)) (email_tld f)
            else None
        | EmptyString => None
        end
      else None
  | EmptyString => None
  end.
Proof. reflexivity. Qed.

Lemma email_unfold f st :
  rmatch false email_re st f =
  match rest st with
  | String c s' =>
      if set_holds false local_set c then
        rmatch false (RStar (RSet false local_set))
               (MState (S (pos st)) s' (grp st)) (email_host f)
      else None
  | EmptyString => None
  end.
Proof. reflexivity. Qed.

Lemma dot_in_domain : set_holds false domain_set "." = true.
Proof. reflexivity. Qed.

Lemma dot_no_letter : set_holds false letter_set "." = false.
Proof. reflexivity. Qed.

Lemma local_no_at (c : ascii) :
  set_holds false local_set c = true -> char_eq false "@" c = false.
Proof. destruct c as [[] [] [] [] [] [] [] []]; vm_compute; congruence. Qed.

Lemma email_tld_some st x :
  email_tld Some st = Some x ->
  exists s', rest st = String "." s' /\
             pos st + 1 + run_length (set_holds false letter_set) s' <= pos x.
Proof.
  rewrite email_tld_unfold.
  destruct (rest st) as [|c s']; [discriminate|].
  destruct (char_eq false "." c) eqn:Hc; [|discriminate].
  apply char_eq_exact in Hc. subst c.
  destruct s' as [|l1 s1]; [discriminate|].
  destruct (set_holds false letter_set l1) eqn:H1; [|discriminate].
  destruct s1 as [|l2 s2]; [discriminate|].
  destruct (set_holds false letter_set l2) eqn:H2; [|discriminate].
  intros H. apply star_of_class_some in H. cbn [pos rest] in H.
  eexists. split; [reflexivity|]. cbn [run_length]. rewrite H1, H2. lia.
Qed.

Lemma email_tld_beyond st c s' b :
  rest st = String c s' ->
  pos st + 1 + run_length (set_holds false letter_set) s' <= b ->
  email_tld (beyond b) st = None.
Proof.
  intros Hr Hb. rewrite email_tld_unfold, Hr.
  destruct (char_eq false "." c); [|reflexivity].
  destruct s' as [|l1 s1]; [reflexivity|]. cbn [run_length] in Hb.
  destruct (set_holds false letter_set l1); [|reflexivity].
  destruct s1 as [|l2 s2]; [reflexivity|]. cbn [run_length] in Hb.
  destruct (set_holds false letter_set l2); [|reflexivity].
  apply star_of_class_beyond. cbn [pos rest]. lia.
Qed.

Lemma email_tld_mono st b : email_tld Some st = None -> email_tld (beyond b) st = None.
Proof. unfold email_tld. apply rmatch_none_mono. discriminate. Qed.

(** The domain: of the dots from which the end of the regex matches, the
    last one is taken, and no match from an earlier one reaches as far. *)
Lemma email_domain (n : nat) :
  forall st x,
    star_loop (rmatch false (RSet false domain_set)) (email_tld Some) n st = Some x ->
    pos st + run_length (set_holds false letter_set) (rest st) + 1 <= pos x /\
    forall b, pos x <= b ->
      star_loop (rmatch false (RSet false domain_set)) (email_tld (beyond b)) n st = None.
Proof.
  assert (Hend : forall st x,
             email_tld Some st = Some x ->
             pos st + run_length (set_holds false letter_set) (rest st) + 1 <= pos x /\
             forall b, pos x <= b -> email_tld (beyond b) st = None).
  { intros st x H. destruct (email_tld_some _ H) as (s' & Hr & Hp).
    rewrite Hr. cbn [run_length]. rewrite dot_no_letter. split; [lia|].
    intros b Hb. apply (@email_tld_beyond st "." s' b Hr). lia. }
  induction n as [|n IH]; intros st x H.
  - cbn [star_loop] in *. now apply Hend.
  - rewrite class_star_step in H.
    destruct (rest st) as [|c s'] eqn:Hr.
    + destruct (Hend _ _ H) as [H1 H2]. rewrite Hr in H1. split; [exact H1|].
      intros b Hb. rewrite class_star_step, Hr. now apply H2.
    + destruct (set_holds false domain_set c) eqn:Hc.
      * destruct (star_loop (rmatch false (RSet false domain_set)) (email_tld Some) n
                            (MState (S (pos st)) s' (grp st))) as [y|] eqn:Hy.
        -- injection H as <-. destruct (IH _ _ Hy) as [H1 H2]. cbn [pos rest] in H1.
           split.
           ++ cbn [run_length]. destruct (set_holds false letter_set c); lia.
           ++ intros b Hb. rewrite class_star_step, Hr, Hc, (H2 b Hb).
              apply (@email_tld_beyond st c s' b Hr). lia.
        -- destruct (Hend _ _ H) as [H1 H2]. rewrite Hr in H1. split; [exact H1|].
           intros b Hb. rewrite class_star_step, Hr, Hc.
           rewrite (@star_loop_none_mono false (RSet false domain_set) n _
                      (email_tld Some) (email_tld (beyond b))
                      (fun st' => @email_tld_mono st' b) Hy).
           now apply H2.
      * destruct (Hend _ _ H) as [H1 H2]. rewrite Hr in H1. split; [exact H1|].
        intros b Hb. rewrite class_star_step, Hr, Hc. now apply H2.
Qed.

Lemma email_host_bounded st x :
  email_host Some st = Some x ->
  forall b, pos x <= b -> email_host (beyond b) st = None.
Proof.
  rewrite email_host_unfold. intros H b Hb. rewrite email_host_unfold.
  destruct (rest st) as [|c s']; [discriminate|].
  destruct (char_eq false "@" c); [|discriminate].
  destruct s' as [|d s'']; [discriminate|].
  destruct (set_holds false domain_set d); [|discriminate].
  cbn [rmatch] in H |- *. now apply (proj2 (email_domain _ _ H)).
Qed.

(** The same for [email_re]: the local part ends at the [@], the domain at
    the last dot that two letters follow. *)
Lemma email_bounded i s x :
  match_here false email_re i s = Some x ->
  forall b, pos x <= b -> rmatch false email_re (MState i s None) (beyond b) = None.
Proof.
  unfold match_here. rewrite email_unfold. intros H b Hb. rewrite email_unfold.
  cbn [rest] in *. destruct s as [|c s']; [discriminate|].
  destruct (set_holds false local_set c); [|discriminate].
  revert H b Hb. apply (@star_of_class_exclusive false false local_set email_host).
  - intros f st a t Hr Ha. rewrite email_host_unfold, Hr.
    now rewrite (local_no_at a Ha).
  - apply email_host_bounded.
Qed.

(** What [extractEntities] holds under a key filled from the regex [r]: the
    first and longest match when [r] has a match in the text, and nothing
    when it has none. *)
Definition extracted (ic : bool) (r : regex) (text : string) (v : option value)
  : Prop :=
  match v with
  | Some x => exists m, x = VStr m /\ first_longest ic r text m
  | None => ~ has_match ic r text
  end.

Lemma extracted_first_match (ic : bool) (r : regex) (text : string) :
  bounded ic r ->
  extracted ic r text (option_map VStr (first_match ic r text)).
Proof.
  intros Hb. destruct (first_match ic r text) as [m|] eqn:H; cbn [option_map extracted].
  - exists m. split; [reflexivity | now apply first_match_first_longest].
  - now apply first_match_none.
Qed.

Lemma extractEntities_lookups (E : Env) (text : string) :
  lookup "time" (extractEntities E text) =
    option_map VStr (first_match true time_re text) /\
  lookup "url" (extractEntities E text) =
    option_map VStr (first_match false url_re text) /\
  lookup "email" (extractEntities E text) =
    option_map VStr (first_match false email_re text) /\
  lookup "date" (extractEntities E text) = option_map VStr (date_of text).
Proof.
  repeat split; all_cases text; reflexivity.
Qed.

(** C7: [extractEntities] is a function of the text alone (and of the
    host's [parseInt] for the numbers); its keys are distinct, so there is
    at most one time, url, email and date.  Each of time, url and email is
    present exactly when its regex has a match somewhere in the text, and
    is then the first match: no match of the regex starts before it, and
    none that starts where it does is longer.  The date is the first match
    of MM/DD/YYYY whenever that pattern has a match in the text, and the
    first match of YYYY-MM-DD exactly when only that one has.  A key with
    no match is absent, and no value is the empty string. *)
Theorem extractEntities_spec :
  forall E text,
    (forall E', (forall s, parseInt E' s = parseInt E s) ->
                extractEntities E' text = extractEntities E text)
    /\ NoDup (keys (extractEntities E text))
    /\ (forall k, In k (keys (extractEntities E text)) -> In k entity_keys)
    /\ extracted true time_re text (lookup "time" (extractEntities E text))
    /\ extracted false url_re text (lookup "url" (extractEntities E text))
    /\ extracted false email_re text (lookup "email" (extractEntities E text))
    /\ (has_match false date_slash_re text ->
        extracted false date_slash_re text
                  (lookup "date" (extractEntities E text)))
    /\ (~ has_match false date_slash_re text ->
        extracted false date_iso_re text
                  (lookup "date" (extractEntities E text)))
    /\ (forall k, lookup k (extractEntities E text) <> Some (VStr "")).
Proof.
  intros E text.
  destruct (extractEntities_lookups E text) as (Lt & Lu & Le & Ld).
  split; [|split; [|split; [|split; [|split; [|split; [|split; [|split]]]]]]].
  - intros E' HE. unfold extractEntities.
    destruct (match_all false numbers_re text) as [ns|]; [|reflexivity].
    now rewrite (map_ext _ _ HE).
  - all_cases text;
      repeat (constructor; [simpl; intuition discriminate|]); constructor.
  - intros k. unfold entity_keys. all_cases text; simpl; tauto.
  - rewrite Lt. apply extracted_first_match. exact time_bounded.
  - rewrite Lu. apply extracted_first_match. exact url_bounded.
  - rewrite Le. apply extracted_first_match. exact email_bounded.
  - intros Hm. rewrite Ld. unfold date_of.
    destruct (first_match false date_slash_re text) as [m|] eqn:Hs.
    + rewrite <- Hs. apply extracted_first_match. exact slash_bounded.
    + now apply first_match_none in Hs.
  - intros Hn. rewrite Ld. unfold date_of.
    destruct (first_match false date_slash_re text) as [m|] eqn:Hs.
    + now apply first_match_found in Hs.
    + apply extracted_first_match. exact iso_bounded.
  - intros k Hk.
    assert (Ht : forall m, first_match true time_re text = Some m -> m <> "")
      by (intros m; apply first_match_nonempty; reflexivity).
    assert (Hu : forall m, first_match false url_re text = Some m -> m <> "")
      by (intros m; apply first_match_nonempty; reflexivity).
    assert (He : forall m, first_match false email_re text = Some m -> m <> "")
      by (intros m; apply first_match_nonempty; reflexivity).
    assert (Hd : forall m, date_of text = Some m -> m <> "")
      by (intros m; apply date_of_nonempty).
    revert Hk Ht Hu He Hd. clear Lt Lu Le Ld.
    unfold extractEntities. rewrite first_date_patterns.
    destruct (match_all false numbers_re text) as [ns|];
      destruct (first_match true time_re text) as [t|];
      destruct (first_match false url_re text) as [u|];
      destruct (first_match false email_re text) as [e|];
      destruct (date_of text) as [d|];
      cbn [set_if set lookup String.eqb Ascii.eqb Bool.eqb];
      intros Hk Ht Hu He Hd;
      repeat match type of Hk with
        | (if ?c then _ else _) = _ => destruct c
        end;
      try discriminate;
      inversion Hk; subst;
      try (now apply (Ht "")); try (now apply (Hu ""));
      try (now apply (He "")); try (now apply (Hd "")).
Qed.

Lemma extractEntities_spec_witness :
  extractEntities
    {| timeString := ""; dateString := ""; random := 0;
       ToString := ToString host0; parseInt := parseInt host0;
       JSON_parse := fun _ => None |}
    "meet 7:30pm on 2024-01-02 or 12/05/2024" =
  extractEntities host0 "meet 7:30pm on 2024-01-02 or 12/05/2024"
  /\ extracted false date_slash_re "meet 7:30pm on 2024-01-02 or 12/05/2024"
       (lookup "date"
          (extractEntities host0 "meet 7:30pm on 2024-01-02 or 12/05/2024")).
Proof.
  destruct (extractEntities_spec host0 "meet 7:30pm on 2024-01-02 or 12/05/2024")
    as (H1 & _ & _ & _ & _ & _ & H7 & _ & _).
  split.
  - apply H1. reflexivity.
  - apply H7. apply (@first_match_found false date_slash_re _ "12/05/2024").
    vm_compute. reflexivity.
Defined.

End EntityFacts.
Import EntityFacts.

(* ------------------------------------------------------------------ *)
(** ** What reaches [eval] *)

Module EvalSafety.

Fixpoint all_chars (f : ascii -> bool) (s : string) : bool :=
  match s with
  | EmptyString => true
  | String c s' => f c && all_chars f s'
  end.

(** A character of the class [0-9+\-*/().\s]. *)
Definition arith_char (c : ascii) : bool := set_holds false arith_class c.

Lemma all_chars_app f a b :
  all_chars f (a ++ b) = all_chars f a && all_chars f b.
Proof.
  induction a as [|x a IH]; simpl; [reflexivity|].
  now rewrite IH, andb_assoc.
Qed.

Lemma Matches_star_set ic neg items p w a :
  Matches ic (RStar (RSet neg items)) p w a ->
  all_chars (set_holds neg items) w = true.
Proof.
  intros H. remember (RStar (RSet neg items)) as r eqn:Hr.
  induction H; try discriminate; inversion Hr; subst.
  - reflexivity.
  - rewrite all_chars_app, IHMatches2 by reflexivity.
    match goal with
    | M : Matches _ (RSet _ _) _ _ _ |- _ => inversion M; subst
    end.
    simpl.
    match goal with
    | Hx : set_holds _ _ _ = true |- _ => now rewrite Hx
    end.
Qed.

Lemma Matches_plus_set ic neg items p w a :
  Matches ic (RPlus (RSet neg items)) p w a ->
  w <> "" /\ all_chars (set_holds neg items) w = true.
Proof.
  unfold RPlus. intros H. inversion H; subst.
  match goal with
  | M : Matches _ (RSet _ _) _ _ _ |- _ => inversion M; subst
  end.
  split; [discriminate|]. simpl.
  match goal with
  | M : Matches _ (RStar _) _ _ _ |- _ => apply Matches_star_set in M; rewrite M
  end.
  now rewrite andb_true_r.
Qed.

(** The guard of the handler: a string passes it only if it is not empty
    and made of characters of the class. *)
Lemma test_safe (s : string) :
  test false safe_re s = true -> s <> "" /\ all_chars arith_char s = true.
Proof.
  unfold test, exec. destruct (search false safe_re 0 s) as [f|] eqn:Hs;
    [intros _ | discriminate].
  destruct (@search_sound false safe_re s 0 f Hs) as (pre & Ht & Hi & M).
  cbn [safe_re seqs] in M. inversion M as [ | | | | r1 r2 p w1 w2 a M1 M2 | | | | | | | ]; subst.
  inversion M1; subst.
  inversion M2 as [ | | | | r1 r2 p w3 w4 a M3 M4 | | | | | | | ]; subst.
  inversion M4; subst.
  assert (Hpre : pre = "").
  { destruct pre; [reflexivity|]. simpl in Hi. lia. }
  subst pre.
  repeat match goal with
         | Hw : _ = text0 f |- _ => rewrite <- Hw; clear Hw
         | Ha : _ = after f |- _ => rewrite <- Ha in *; clear Ha
         end.
  simpl. rewrite !app_empty_r.
  apply Matches_plus_set in M3. exact M3.
Qed.

(** The end-of-input check that follows the run of class characters. *)
Definition at_end (st : mstate) : option mstate := rmatch false REol st Some.

Lemma star_arith (n : nat) :
  forall st,
    String.length (rest st) < n ->
    all_chars arith_char (rest st) = true ->
    star_loop (rmatch false (RSet false arith_class)) at_end n st =
    Some (MState (pos st + String.length (rest st)) "" (grp st)).
Proof.
  induction n as [|n IH]; intros [p r g] Hn Hall; [simpl in Hn; lia|].
  cbn [pos rest grp] in *. cbn [star_loop rmatch rest].
  destruct r as [|c r'].
  - simpl. now rewrite Nat.add_0_r.
  - simpl in Hall. apply andb_true_iff in Hall. destruct Hall as [Hc Hr].
    fold (arith_char c). rewrite Hc. unfold step. cbn [pos grp].
    assert (Hlt : (p <? S p) = true) by (apply Nat.ltb_lt; lia).
    rewrite Hlt, IH by (simpl in *; auto; lia). cbn [pos rest grp String.length].
    f_equal. f_equal. lia.
Qed.

(** The guard, conversely: a string that is not empty and made of characters
    of the class passes it. *)
Lemma test_safe_complete (s : string) :
  s <> "" -> all_chars arith_char s = true -> test false safe_re s = true.
Proof.
  intros Hne Hall. destruct s as [|c s']; [contradiction|].
  simpl in Hall. apply andb_true_iff in Hall. destruct Hall as [Hc Hs].
  unfold test, exec. cbn [search].
  assert (Hm : match_here false safe_re 0 (String c s') =
               Some (MState (1 + String.length s') "" None)).
  { unfold match_here, safe_re. cbn [seqs rmatch pos Nat.eqb]. unfold RPlus.
    cbn [rmatch rest]. fold (arith_char c). rewrite Hc.
    unfold step. cbn [pos grp rest].
    change (fun st' : mstate => rmatch false REol st' Some) with at_end.
    now rewrite star_arith by (simpl; auto). }
  now rewrite Hm.
Qed.

(** The text without the characters outside the class. *)
Fixpoint strip (s : string) : string :=
  match s with
  | EmptyString => EmptyString
  | String c s' => if arith_char c then String c (strip s') else strip s'
  end.

Lemma all_chars_strip (s : string) : all_chars arith_char (strip s) = true.
Proof.
  induction s as [|c s IH]; simpl; [reflexivity|].
  destruct (arith_char c) eqn:Hc; [simpl; now rewrite Hc | exact IH].
Qed.

Lemma all_chars_trimStart f (s : string) :
  all_chars f s = true -> all_chars f (trimStart s) = true.
Proof.
  induction s as [|c s IH]; simpl; [reflexivity|].
  intros H. apply andb_true_iff in H. destruct H as [Hc Hs].
  destruct (is_space c); [now apply IH | simpl; now rewrite Hc, Hs].
Qed.

Lemma all_chars_trimEnd f (s : string) :
  all_chars f s = true -> all_chars f (trimEnd s) = true.
Proof.
  induction s as [|c s IH]; simpl; [reflexivity|].
  intros H. apply andb_true_iff in H. destruct H as [Hc Hs].
  specialize (IH Hs). destruct (trimEnd s) as [|x t].
  - destruct (is_space c); simpl; [reflexivity | now rewrite Hc].
  - simpl in *. now rewrite Hc, IH.
Qed.

Lemma unsafe_is_not_arith (c : ascii) :
  set_holds true arith_class c = negb (arith_char c).
Proof. reflexivity. Qed.

Lemma match_here_unsafe (i : nat) (s : string) :
  match_here false unsafe_re i s =
  match s with
  | EmptyString => None
  | String c s' =>
      if arith_char c then None else Some (MState (S i) s' None)
  end.
Proof.
  unfold match_here, unsafe_re. cbn [rmatch rest].
  destruct s as [|c s']; [reflexivity|].
  rewrite unsafe_is_not_arith. destruct (arith_char c); reflexivity.
Qed.

(** What [search] finds for a character outside the class, against
    [strip]. *)
Lemma search_unsafe :
  forall s i,
    match search false unsafe_re i s with
    | None => strip s = s
    | Some f =>
        i <= index f /\ text0 f <> "" /\
        String.length (after f) < String.length s /\
        strip s = substring 0 (index f - i) s ++ strip (after f)
    end.
Proof.
  induction s as [|c s IH]; intros i; cbn [search]; rewrite match_here_unsafe.
  - reflexivity.
  - destruct (arith_char c) eqn:Hc.
    + specialize (IH (S i)).
      destruct (search false unsafe_re (S i) s) as [f|].
      * destruct IH as (Hle & Hne & Hlen & Hs). repeat split.
        -- lia.
        -- exact Hne.
        -- simpl. lia.
        -- cbn [strip]. rewrite Hc, Hs.
           replace (index f - i) with (S (index f - S i)) by lia.
           reflexivity.
      * cbn [strip]. now rewrite Hc, IH.
    + cbn [index text0 after pos rest].
      replace (S i - i) with 1 by lia. repeat split.
      * lia.
      * simpl. discriminate.
      * simpl. lia.
      * rewrite Nat.sub_diag. cbn [strip]. now rewrite Hc.
Qed.

Lemma replace_all_unsafe (fuel : nat) :
  forall s i,
    String.length s < fuel ->
    replace_all_from false unsafe_re "" fuel i s = strip s.
Proof.
  induction fuel as [|fuel IH]; intros s i Hf; [lia|].
  cbn [replace_all_from]. pose proof (search_unsafe s i) as Hs.
  destruct (search false unsafe_re i s) as [f|]; [|now rewrite Hs].
  destruct Hs as (Hle & Hne & Hlen & Hs).
  destruct (text0 f) as [|x t] eqn:Ht; [contradiction|].
  rewrite IH by lia. now rewrite Hs.
Qed.

(** [s.replace(/[^0-9+\-*/().\s]/g, '')] removes exactly the characters
    outside the class. *)
Lemma replace_unsafe_strip (s : string) : replace_all false unsafe_re "" s = strip s.
Proof. unfold replace_all. apply replace_all_unsafe. lia. Qed.

(** The expression the handler builds holds characters of the class only,
    whatever the text. *)
Lemma calc_expression_chars (text : string) :
  all_chars arith_char (calc_expression text) = true.
Proof.
  unfold calc_expression. cbv zeta. rewrite replace_unsafe_strip.
  unfold trim. apply all_chars_trimEnd, all_chars_trimStart, all_chars_strip.
Qed.

Definition sorry : value :=
  handler_result (VStr "Sorry, I couldn't calculate that. Please try again.") [].

Lemma calculation_handler_calls E text src :
  calls (calculation_handler E text) src ->
  src = calc_expression text /\ test false safe_re src = true.
Proof.
  unfold calculation_handler. intros H. apply calls_catch in H.
  destruct H as [H | [e H]]; [|inversion H].
  destruct (test false safe_re (calc_expression text)) eqn:Ht; [|inversion H].
  apply calls_bind in H. destruct H as [H | [a H]]; [|inversion H].
  unfold js_eval in H. inversion H; subst.
  - now split.
  - match goal with
    | Hc : calls (match ?o with inl _ => _ | inr _ => _ end) _ |- _ =>
        destruct o; inversion Hc
    end.
Qed.

(** C9: the expression the calculation handler builds holds characters of
    the class [0-9+\-*/().\s] only; the handler hands to [eval] nothing but
    that expression, and only when it passes the test
    [/^[0-9+\-*/().\s]+$/], hence when it is not empty; and for every text
    and whatever [eval] does the handler returns an object
    [{ message, entities }]: when [eval] throws, the apology with no
    entities. *)
Theorem calculation_handler_safe :
  forall E text,
    all_chars arith_char (calc_expression text) = true
    /\ (forall src,
        calls (calculation_handler E text) src ->
        src = calc_expression text /\
        test false safe_re src = true /\
        src <> "" /\ all_chars arith_char src = true)
    /\ (forall ev, exists m ents,
          run ev (calculation_handler E text) = inl (handler_result (VStr m) ents))
    /\ (forall ev src e,
          calls (calculation_handler E text) src ->
          ev src = inr e ->
          run ev (calculation_handler E text) = inl sorry).
Proof.
  intros E text. split; [|split; [|split]].
  - apply calc_expression_chars.
  - intros src H. apply calculation_handler_calls in H. destruct H as [Hs Ht].
    split; [exact Hs | split; [exact Ht | now apply test_safe]].
  - intros ev. destruct (calculation_handler_returns E text ev) as (m & ents & Hr & _).
    now exists m, ents.
  - intros ev src e H Hev. apply calculation_handler_calls in H.
    destruct H as [-> Ht]. unfold calculation_handler.
    rewrite run_catch, Ht, run_bind. cbn [js_eval run]. now rewrite Hev.
Qed.

Lemma calculation_handler_safe_witness :
  all_chars arith_char "4  5" = true /\
  run eval0 (calculation_handler host0 "multiply 4 by 5") = inl sorry.
Proof.
  destruct (calculation_handler_safe host0 "multiply 4 by 5") as (_ & H1 & _ & H3).
  assert (Hc : calls (calculation_handler host0 "multiply 4 by 5") "4  5").
  { change "4  5" with (calc_expression "multiply 4 by 5").
    apply calculation_handler_evaluates. reflexivity. }
  split.
  - apply (H1 "4  5" Hc).
  - apply (H3 eval0 "4  5" (JsError VUndefined "Unexpected end of input") Hc).
    reflexivity.
Defined.

End EvalSafety.
Import EvalSafety.

(* ------------------------------------------------------------------ *)
(** ** Replies of the listeners *)

Module ListenerFacts.

(** The one reply for a piece of work that has settled. *)
Definition reply_for (r : value + error) : value :=
  match r with
  | inl result => reply_ok result
  | inr err => reply_error err
  end.

Lemma reply_always_once (work : io value) :
  fst work = [] ->
  reply_always work = ([reply_for (snd work)], inl tt).
Proof.
  destruct work as [out [result | err]]; simpl; intros ->; reflexivity.
Qed.

Section ContentListener.

Variable innerText : string.
Variables googleSearch websiteSearch formFill bookTicket : value -> value + error.

Let run_command :=
  Content.run_command innerText googleSearch websiteSearch formFill bookTicket.
Let listener :=
  Content.listener innerText googleSearch websiteSearch formFill bookTicket.

Lemma content_run_command_silent msg : fst (run_command msg) = [].
Proof.
  unfold run_command, Content.run_command, settled.
  destruct (read msg "type") as [type | e]; [|reflexivity].
  cbn [io_bind]. destruct type; try reflexivity.
  repeat match goal with
         | |- context [if ?c then _ else _] => destruct c
         end;
    try reflexivity;
    match goal with
    | |- context [(?l, ?x)] => destruct x; reflexivity
    end.
Qed.

(** The content script replies exactly once to every message and returns
    [true]: with the result of the command, or with the message of what was
    thrown; an unknown command is thrown and so answered in the second
    way. *)
Lemma content_listener_replies_once msg :
  listener msg = ([reply_for (snd (run_command msg))], inl (VBool true)).
Proof.
  unfold listener, Content.listener.
  fold run_command. rewrite (reply_always_once _ (content_run_command_silent msg)).
  reflexivity.
Qed.

Lemma content_unknown_command payload :
  listener (VObj [("type", VStr "DANCE"); ("payload", payload)]) =
  ([VObj [("success", VBool false); ("error", VStr "Unknown command")]],
   inl (VBool true)).
Proof. reflexivity. Qed.

End ContentListener.

Section RouterListener.

Variable innerText : string.
Variables handleGoogleSearch handleNavigation handleFormFill
          handleWebsiteSearch handleBooking : value -> value + error.

Let run_command :=
  Router.run_command innerText handleGoogleSearch handleNavigation handleFormFill
                     handleWebsiteSearch handleBooking.
Let listener :=
  Router.listener innerText handleGoogleSearch handleNavigation handleFormFill
                  handleWebsiteSearch handleBooking.

Lemma router_run_command_silent message : fst (run_command message) = [].
Proof.
  unfold run_command, Router.run_command.
  destruct (Router.command_of message) as [out [cmd | e]] eqn:Hc.
  - assert (Ho : out = []).
    { revert Hc. unfold Router.command_of, settled.
      destruct (read message "data") as [d | e]; [|discriminate].
      cbn [io_bind]. destruct (read d "data") as [d' | e]; [|discriminate].
      cbn [io_bind]. destruct (read d' "intent") as [i | e]; [|discriminate].
      cbn [io_bind]. destruct i; cbn; intros H; inversion H; reflexivity. }
    subst out. cbn [io_bind].
    repeat match goal with
           | |- context [if ?c then _ else _] => destruct c
           end;
      unfold settled, io_ret;
      try reflexivity;
      match goal with
      | |- context [(?l, ?x)] => destruct x; reflexivity
      end.
  - revert Hc. unfold Router.command_of, settled.
    destruct (read message "data") as [d | e']; [|intros H; inversion H; reflexivity].
    cbn [io_bind]. destruct (read d "data") as [d' | e']; [|intros H; inversion H; reflexivity].
    cbn [io_bind]. destruct (read d' "intent") as [i | e']; [|intros H; inversion H; reflexivity].
    cbn [io_bind]. destruct i; cbn; intros H; inversion H; reflexivity.
Qed.

(** When the command can be read off the message, the router replies
    exactly once and returns [true]. *)
Lemma router_listener_replies_once message cmd :
  Router.command_of message = ([], inl cmd) ->
  listener message = ([reply_for (snd (run_command message))], inl (VBool true)).
Proof.
  intros Hc. unfold listener, Router.listener. rewrite Hc. cbn [io_bind].
  fold run_command. rewrite (reply_always_once _ (router_run_command_silent message)).
  reflexivity.
Qed.

(** When it cannot, the logging line throws: there is no reply and the
    listener does not return. *)
Lemma router_listener_throws message e :
  Router.command_of message = ([], inr e) ->
  listener message = ([], inr e).
Proof.
  intros Hc. unfold listener, Router.listener. now rewrite Hc.
Qed.

End RouterListener.

(** The error response of the API, as the page would forward it. *)
Definition error_response : value :=
  VObj [("data", VObj [("success", VBool false);
                       ("message", VStr "Rate limit exceeded. Please try again later.")])].

(** C10, at a message that carries an error response of the API, which has
    no [data.data]: the router's listener throws on its logging line,
    outside the [try], so that [sendResponse] is never called and [true] is
    not returned; the same holds for a message in the shape the content
    script expects.  The content script itself replies exactly once to both
    and returns [true]. *)
Theorem router_listener_no_reply :
  forall innerText h1 h2 h3 h4 h5,
    Router.listener innerText h1 h2 h3 h4 h5 error_response =
      ([], inr (type_error "undefined" "intent"))
    /\ Router.listener innerText h1 h2 h3 h4 h5
         (VObj [("type", VStr "SUMMARIZE")]) =
       ([], inr (type_error "undefined" "data"))
    /\ (forall g1 g2 g3 g4 msg,
          exists reply,
            Content.listener innerText g1 g2 g3 g4 msg =
            ([reply], inl (VBool true))).
Proof.
  intros innerText h1 h2 h3 h4 h5. split; [reflexivity | split; [reflexivity|]].
  intros g1 g2 g3 g4 msg. eexists. apply content_listener_replies_once.
Qed.

End ListenerFacts.
Import ListenerFacts.

(* ------------------------------------------------------------------ *)
(** ** Summaries *)

Module SummaryFacts.

(** Every run of whitespace collapsed to a single space, written directly:
    [in_run] tells that the character before was whitespace. *)
Fixpoint collapse (in_run : bool) (s : string) : string :=
  match s with
  | EmptyString => EmptyString
  | String c s' =>
      if is_space c then
        if in_run then collapse true s' else String " " (collapse true s')
      else String c (collapse false s')
  end.

Definition collapse_ws (s : string) : string := collapse false s.

Lemma collapse_in_run (s : string) : collapse true s = collapse false (trimStart s).
Proof.
  induction s as [|c s IH]; simpl; [reflexivity|].
  destruct (is_space c) eqn:Hc; [exact IH|]. simpl. now rewrite Hc.
Qed.

Lemma length_trimStart (s : string) :
  String.length (trimStart s) <= String.length s.
Proof.
  induction s as [|c s IH]; simpl; [lia|].
  destruct (is_space c); simpl; lia.
Qed.

Lemma set_space (c : ascii) : set_holds false [CSpace] c = is_space c.
Proof. unfold set_holds. simpl. now rewrite orb_false_r. Qed.

(** The star of [\s+] eats the whole run of whitespace. *)
Lemma star_spaces (n : nat) :
  forall st,
    String.length (rest st) < n ->
    star_loop (rmatch false RSpace) Some n st =
    Some (MState (pos st + (String.length (rest st)
                            - String.length (trimStart (rest st))))
                 (trimStart (rest st)) (grp st)).
Proof.
  induction n as [|n IH]; intros [p r g] Hn; [simpl in Hn; lia|].
  cbn [pos rest grp] in *. cbn [star_loop]. unfold RSpace at 1. cbn [rmatch rest].
  destruct r as [|c r'].
  - simpl. now rewrite Nat.add_0_r.
  - rewrite set_space. cbn [trimStart]. destruct (is_space c) eqn:Hc.
    + unfold step. cbn [pos grp].
      assert (Hlt : (p <? S p) = true) by (apply Nat.ltb_lt; lia).
      rewrite Hlt, IH by (simpl in *; lia). cbn [pos rest grp].
      pose proof (length_trimStart r'). simpl String.length.
      f_equal. f_equal. lia.
    + rewrite Nat.sub_diag, Nat.add_0_r. reflexivity.
Qed.

Lemma match_here_spaces (i : nat) (s : string) :
  match_here false (RPlus RSpace) i s =
  match s with
  | EmptyString => None
  | String c s' =>
      if is_space c
      then Some (MState (S i + (String.length s' - String.length (trimStart s')))
                        (trimStart s') None)
      else None
  end.
Proof.
  unfold match_here, RPlus. cbn [rmatch]. unfold RSpace at 1. cbn [rmatch rest].
  destruct s as [|c s']; [reflexivity|].
  rewrite set_space. destruct (is_space c); [|reflexivity].
  unfold step. cbn [pos grp rest]. rewrite star_spaces by (simpl; lia).
  reflexivity.
Qed.

(** What [search] finds for [\s+], against [collapse]. *)
Lemma search_spaces :
  forall s i,
    match search false (RPlus RSpace) i s with
    | None => collapse false s = s
    | Some f =>
        i <= index f /\ text0 f <> "" /\
        String.length (after f) < String.length s /\
        collapse false s =
        substring 0 (index f - i) s ++ " " ++ collapse false (after f)
    end.
Proof.
  induction s as [|c s IH]; intros i; cbn [search]; rewrite match_here_spaces.
  - reflexivity.
  - destruct (is_space c) eqn:Hc.
    + cbn [index text0 after pos rest].
      pose proof (length_trimStart s) as Hl.
      replace (S i + (String.length s - String.length (trimStart s)) - i)
        with (S (String.length s - String.length (trimStart s))) by lia.
      repeat split.
      * lia.
      * simpl. discriminate.
      * simpl. lia.
      * rewrite Nat.sub_diag. cbn [collapse]. rewrite Hc, collapse_in_run.
        reflexivity.
    + specialize (IH (S i)).
      destruct (search false (RPlus RSpace) (S i) s) as [f|].
      * destruct IH as (Hle & Hne & Hlen & Hcol). repeat split.
        -- lia.
        -- exact Hne.
        -- simpl. lia.
        -- cbn [collapse]. rewrite Hc, Hcol.
           replace (index f - i) with (S (index f - S i)) by lia.
           reflexivity.
      * cbn [collapse]. now rewrite Hc, IH.
Qed.

Lemma replace_all_spaces (fuel : nat) :
  forall s i,
    String.length s < fuel ->
    replace_all_from false (RPlus RSpace) " " fuel i s = collapse false s.
Proof.
  induction fuel as [|fuel IH]; intros s i Hf; [lia|].
  cbn [replace_all_from]. pose proof (search_spaces s i) as Hs.
  destruct (search false (RPlus RSpace) i s) as [f|]; [|now rewrite Hs].
  destruct Hs as (Hle & Hne & Hlen & Hcol).
  destruct (text0 f) as [|x t] eqn:Ht; [contradiction|].
  rewrite IH by lia. now rewrite Hcol.
Qed.

(** [s.replace(/\s+/g, ' ')] collapses every run of whitespace. *)
Lemma collapse_spaces_collapse_ws (s : string) : collapse_spaces s = collapse_ws s.
Proof. unfold collapse_spaces, replace_all. apply replace_all_spaces. lia. Qed.

(** The summary in the words of the specification: the text with its runs
    of whitespace collapsed, trimmed, cut at 5000 characters. *)
Definition expected_summary (innerText : string) : string :=
  slice0 5000 (trim (collapse_ws innerText)).

(** The router's [handleSummarize] returns it. *)
Lemma handleSummarize_summary (innerText : string) :
  get (Router.handleSummarize innerText) "summary" =
    VStr (expected_summary innerText)
  /\ String.length (expected_summary innerText) <= 5000.
Proof.
  split.
  - unfold Router.handleSummarize, expected_summary.
    now rewrite collapse_spaces_collapse_ws.
  - apply length_substring_le.
Qed.

(** The content script's [summarize] collapses and cuts, and does not
    trim. *)
Lemma summarize_summary (innerText : string) :
  Content.summarize innerText =
  VObj [("summary", VStr (slice0 5000 (collapse_ws innerText)))].
Proof.
  unfold Content.summarize. now rewrite collapse_spaces_collapse_ws.
Qed.

(** C8, at a body whose text opens with a line break: the content script's
    [summarize] returns " Hello", with the leading space that trimming
    would remove; the router's [handleSummarize], which trims, returns
    "Hello". *)
Theorem summarize_keeps_leading_space :
  Content.summarize (nl ++ "Hello") = VObj [("summary", VStr " Hello")]
  /\ expected_summary (nl ++ "Hello") = "Hello"
  /\ get (Router.handleSummarize (nl ++ "Hello")) "summary" = VStr "Hello".
Proof. repeat split. Qed.

End SummaryFacts.
Import SummaryFacts.

(* ================================================================== *)
(** * Further properties of the intent service *)

(* ------------------------------------------------------------------ *)
(** ** Objects: assignment, lookup and spread *)

Module ObjectFacts.

Lemma lookup_set (k k' : string) (v : value) (o : obj) :
  lookup k (set k' v o) = if String.eqb k k' then Some v else lookup k o.
Proof.
  induction o as [|[k2 v2] o IH]; simpl.
  - destruct (String.eqb k k'); reflexivity.
  - destruct (String.eqb_spec k' k2) as [->|Hk]; simpl.
    + destruct (String.eqb k k2); reflexivity.
    + rewrite IH. destruct (String.eqb_spec k k2) as [->|Hk2]; [|reflexivity].
      destruct (String.eqb_spec k2 k'); [congruence | reflexivity].
Qed.

Lemma lookup_not_key (k : string) (o : obj) :
  ~ In k (keys o) -> lookup k o = None.
Proof.
  induction o as [|[k2 v2] o IH]; simpl; [reflexivity|].
  intros H. destruct (String.eqb_spec k k2) as [->|Hk]; [tauto|].
  apply IH. tauto.
Qed.

(** [{ ...a, ...b }]: a key of [b] has the value [b] gives it, any other key
    the value [a] gives it. *)
Lemma lookup_spread (k : string) (b : obj) :
  NoDup (keys b) ->
  forall a,
    lookup k (spread a b) =
    match lookup k b with
    | Some v => Some v
    | None => lookup k a
    end.
Proof.
  unfold spread. induction b as [|[k2 v2] b IH]; simpl; intros Hnd a.
  - reflexivity.
  - inversion Hnd as [|x l Hnot Hnd']; subst.
    rewrite (IH Hnd'), lookup_set.
    destruct (String.eqb_spec k k2) as [->|Hk]; [|reflexivity].
    now rewrite (lookup_not_key _ _ Hnot).
Qed.

Lemma get_of_lookup (v : value) (k : string) (x : value) :
  lookup k (fields_of v) = Some x -> get v k = x.
Proof.
  destruct v; simpl; try discriminate. now intros ->.
Qed.

End ObjectFacts.
Import ObjectFacts.

(* ------------------------------------------------------------------ *)
(** ** The rule engine, further *)

Module RuleEngineFacts.

(** No keyword of the table occurs in the lowered, trimmed text. *)
Definition no_keyword (text : string) : Prop :=
  forall p keyword, In p patterns -> In keyword (keywords p) ->
                    ~ occurs_in keyword (trim (toLowerCase text)).

Definition unknown_message (text : string) : string :=
  "I heard: " ++ dq ++ text ++ dq ++
  ". I'm not sure how to help with that yet. Try saying 'help' to see what I can do!".

(** X1: a text in which no keyword occurs gets the intent [unknown] with the
    confidence 0.30, the extracted entities alone, and a message that
    quotes the text as it came, not lowered, not trimmed. *)
Theorem fallback_no_keyword :
  forall E ev text,
    no_keyword text ->
    run ev (fallbackIntentRecognition E text) =
    inl (intent_result "unknown" (extractEntities E text)
           (VStr (unknown_message text)) 0.30 fallback_model).
Proof.
  intros E ev text H. unfold fallbackIntentRecognition.
  assert (Hf : find_pattern (trim (toLowerCase text)) patterns = None).
  { apply find_pattern_none. intros p Hp. apply matches_no_occurs.
    intros kw Hkw. now apply (H p). }
  now rewrite Hf.
Qed.

Lemma no_keyword_check (text : string) :
  forallb (fun p => negb (matches (trim (toLowerCase text)) p)) patterns = true ->
  no_keyword text.
Proof.
  intros H p kw Hp Hkw.
  exact (proj1 (matches_no_occurs _ _) (none_matches _ _ H p Hp) kw Hkw).
Qed.

Lemma fallback_no_keyword_witness :
  run eval0 (fallbackIntentRecognition host0 "  Qwerty 42 ") =
  inl (intent_result "unknown" [("numbers", VArr [VNum 42])]
         (VStr (unknown_message "  Qwerty 42 ")) 0.30 fallback_model).
Proof.
  apply (@fallback_no_keyword host0 eval0 "  Qwerty 42 ").
  apply no_keyword_check. vm_compute. reflexivity.
Defined.

Lemma confidence_of_entry (data : pattern) :
  In data patterns -> (0.75 <= confidence data)%Q /\ (confidence data <= 0.90)%Q.
Proof.
  unfold patterns. simpl. intros H.
  repeat (destruct H as [<- | H];
          [simpl; split; apply Qle_bool_imp_le; reflexivity|]).
  contradiction.
Qed.

(** X2: the rule engine never throws, whatever [eval] does: it always returns
    the five fields, with the fallback marker as model, a message that is
    not empty, and a confidence that is 0.30 for [unknown] and lies between
    0.75 and 0.90 for an entry of the table. *)
Theorem fallback_never_throws :
  forall E ev text,
    exists intent ents m conf,
      run ev (fallbackIntentRecognition E text) =
        inl (intent_result intent ents (VStr m) conf fallback_model) /\
      m <> "" /\
      (intent = "unknown" /\ conf = 0.30%Q \/
       intent <> "unknown" /\ (0.75 <= conf)%Q /\ (conf <= 0.90)%Q).
Proof.
  intros E ev text.
  destruct (fallback_total E text ev) as (i & ents & m & c & Hr & Hm & Hi).
  exists i, ents, m, c. split; [exact Hr | split; [exact Hm|]].
  destruct Hi as [(_ & -> & ->) | (data & Hf & -> & ->)]; [now left | right].
  apply find_pattern_In in Hf. destruct Hf as [Hin _]. split.
  - unfold patterns in Hin. simpl in Hin.
    repeat (destruct Hin as [<- | Hin]; [discriminate|]). contradiction.
  - now apply confidence_of_entry.
Qed.

Lemma extractEntities_keys_nodup E text : NoDup (keys (extractEntities E text)).
Proof.
  all_cases text;
    repeat (constructor; [simpl; intuition discriminate|]); constructor.
Qed.

(** The entities an entry has before the generic ones are merged in: those
    it declares, then those of its handler. *)
Definition own_entities (ev : string -> value + error) (E : Env)
           (text : string) (data : pattern) : obj :=
  let declared := match entities data with Some e => e | None => [] end in
  match handler data with
  | Some h =>
      match run ev (h E text) with
      | inl result => spread declared (fields_of (get result "entities"))
      | inr _ => declared
      end
  | None => declared
  end.

(** X3: on a collision of keys the extracted entity wins over that of the
    handler: in the result every key of [extractEntities] has the extracted
    value, and every other key the value of the entry or its handler. *)
Theorem extracted_entities_win :
  forall E ev text data,
    find_pattern (trim (toLowerCase text)) patterns = Some data ->
    exists r,
      run ev (fallbackIntentRecognition E text) = inl r /\
      forall k,
        lookup k (fields_of (get r "entities")) =
        match lookup k (extractEntities E text) with
        | Some v => Some v
        | None => lookup k (own_entities ev E text data)
        end.
Proof.
  intros E ev text data Hf. unfold fallbackIntentRecognition. rewrite Hf.
  assert (Hok : entry_ok data).
  { apply find_pattern_In in Hf.
    exact (proj1 (Forall_forall _ _) patterns_ok _ (proj1 Hf)). }
  unfold answer, own_entities, entry_ok in *.
  destruct (handler data) as [h|].
  - destruct (Hok E text ev) as (m & ents & Hr & _).
    rewrite !run_bind, Hr. cbn [run fst snd].
    eexists. split; [reflexivity|]. intros k.
    cbn [intent_result get lookup String.eqb Ascii.eqb Bool.eqb fields_of].
    apply lookup_spread, extractEntities_keys_nodup.
  - cbn [bind run fst snd]. eexists. split; [reflexivity|]. intros k.
    cbn [intent_result get lookup String.eqb Ascii.eqb Bool.eqb fields_of].
    apply lookup_spread, extractEntities_keys_nodup.
Qed.

Lemma extracted_entities_win_witness :
  exists r,
    run eval0 (fallbackIntentRecognition host0 "what time is it, 5:30 pm?") = inl r /\
    get (get r "entities") "time" = VStr "5:30 pm".
Proof.
  destruct (@extracted_entities_win host0 eval0 "what time is it, 5:30 pm?"
              ( {| name := "time";
                          keywords := ["time"; "what time"; "what's the time";
                                       "current time"];
                          message := None; confidence := 0.90;
                          entities := None; handler := Some time_handler |}))
    as (r & Hr & Hk).
  - change patterns with (firstn 4 patterns ++ nth 4 patterns
                            {| name := ""; keywords := []; message := None;
                               confidence := 0; entities := None;
                               handler := None |} :: skipn 5 patterns)%list.
    apply find_pattern_first.
    + apply none_matches. vm_compute. reflexivity.
    + vm_compute. reflexivity.
  - exists r. split; [exact Hr|].
    specialize (Hk "time").
    assert (He : lookup "time" (extractEntities host0 "what time is it, 5:30 pm?")
                 = Some (VStr "5:30 pm")) by (vm_compute; reflexivity).
    rewrite He in Hk. now apply get_of_lookup.
Defined.

(** X4: the calculation handler asks [eval] exactly when the expression it
    builds is not empty: then [eval] is called on it; when it is empty,
    [eval] is never called and the answer is the request to rephrase. *)
Theorem calculation_handler_asks_eval :
  forall E text,
    (calc_expression text <> "" ->
     calls (calculation_handler E text) (calc_expression text))
    /\
    (calc_expression text = "" ->
     (forall src, ~ calls (calculation_handler E text) src) /\
     forall ev,
       run ev (calculation_handler E text) =
       inl (handler_result
              (VStr "I couldn't understand that calculation. Try asking like 'what is 5 plus 3?'")
              [])).
Proof.
  intros E text. split.
  - intros Hne. apply calculation_handler_evaluates.
    apply test_safe_complete; [exact Hne | apply calc_expression_chars].
  - intros He. split.
    + intros src Hc. apply calculation_handler_calls in Hc.
      destruct Hc as [-> Ht]. apply test_safe in Ht. tauto.
    + intros ev. unfold calculation_handler. rewrite He. reflexivity.
Qed.

Lemma calculation_handler_asks_eval_witness :
  calls (calculation_handler host0 "add 2 and 2") "+ 2  2"
  /\ run eval0 (calculation_handler host0 "what is love") =
     inl (handler_result
            (VStr "I couldn't understand that calculation. Try asking like 'what is 5 plus 3?'")
            []).
Proof.
  split.
  - change "+ 2  2" with (calc_expression "add 2 and 2").
    apply (proj1 (calculation_handler_asks_eval host0 "add 2 and 2")).
    vm_compute. discriminate.
  - apply (proj2 (calculation_handler_asks_eval host0 "what is love")).
    vm_compute. reflexivity.
Defined.

End RuleEngineFacts.
Import RuleEngineFacts.

(* ------------------------------------------------------------------ *)
(** ** The facade, further *)

Module ValidationFacts.

Lemma validate_empty_after_trim config s :
  s <> "" -> trim s = "" ->
  validate config (VStr s) = Throw (ApiError 400 "Text cannot be empty").
Proof.
  intros Hs Ht. unfold validate.
  destruct (String.eqb_spec s "") as [->|_]; [contradiction|].
  now rewrite Ht.
Qed.

Lemma validate_too_long config s :
  maxTextLength config < String.length (trim s) ->
  validate config (VStr s) =
  Throw (ApiError 400 ("Text exceeds maximum length of " ++
                       of_nat (maxTextLength config) ++ " characters")).
Proof.
  intros Hl. unfold validate.
  destruct (String.eqb_spec s "") as [->|_]; [simpl in Hl; lia|].
  destruct (Nat.eqb_spec (String.length (trim s)) 0) as [H0|_]; [lia|].
  destruct (Nat.ltb_spec (maxTextLength config) (String.length (trim s)));
    [reflexivity | lia].
Qed.

Lemma processIntent_invalid E config sys ev grokClient text e :
  validate config text = Throw e ->
  run ev (processIntent E config sys grokClient text) = run ev (rethrow e).
Proof.
  intros Hv. unfold processIntent. rewrite run_catch, Hv. reflexivity.
Qed.

(** X5: the input checks of [processIntent] come before any use of the client:
    a value that is not a string, or an empty string, is refused with the
    code 400; so is a text that is empty once trimmed, and a text longer
    than the maximum once trimmed, each with its own message; a text that is
    not refused never gives the code 400. *)
Theorem processIntent_validation :
  forall E config sys ev grokClient,
    (forall text,
        (forall s, text = VStr s -> s = "") ->
        run ev (processIntent E config sys grokClient text) =
        inr (ApiError 400 "Invalid text input"))
    /\ (forall s,
          s <> "" -> trim s = "" ->
          run ev (processIntent E config sys grokClient (VStr s)) =
          inr (ApiError 400 "Text cannot be empty"))
    /\ (forall s,
          maxTextLength config < String.length (trim s) ->
          run ev (processIntent E config sys grokClient (VStr s)) =
          inr (ApiError 400 ("Text exceeds maximum length of " ++
                             of_nat (maxTextLength config) ++ " characters")))
    /\ (forall s e,
          valid config s ->
          run ev (processIntent E config sys grokClient (VStr s)) = inr e ->
          e = ApiError 502 "Invalid LLM API key configuration" \/
          e = ApiError 429 "Rate limit exceeded. Please try again later.").
Proof.
  intros E config sys ev grokClient. split; [|split; [|split]].
  - intros text Hs.
    rewrite (@processIntent_invalid E config sys ev grokClient text
               (ApiError 400 "Invalid text input")); [reflexivity|].
    destruct text; try reflexivity. now rewrite (Hs s eq_refl).
  - intros s Hs Ht.
    now rewrite (@processIntent_invalid E config sys ev grokClient (VStr s) _
                   (@validate_empty_after_trim config s Hs Ht)).
  - intros s Hl.
    now rewrite (@processIntent_invalid E config sys ev grokClient (VStr s) _
                   (@validate_too_long config s Hl)).
  - intros s e Hv. unfold processIntent.
    rewrite run_catch, (validate_valid Hv). cbn [bind]. rewrite run_bind.
    destruct (run ev (callGrok E sys grokClient (trim s))) as [r | e1] eqn:Hg;
      [discriminate|].
    apply callGrok_throws in Hg.
    destruct Hg as [-> | ->]; cbn [rethrow run]; intros H; inversion H; auto.
Qed.

Lemma processIntent_validation_witness :
  run eval0 (processIntent host0 config0 "" (Some (failing 429)) (VNum 7)) =
    inr (ApiError 400 "Invalid text input")
  /\ run eval0 (processIntent host0 config0 "" (Some (failing 429)) (VStr "   ")) =
     inr (ApiError 400 "Text cannot be empty")
  /\ run eval0 (processIntent host0
                  {| maxTextLength := 4; llm_apiKey := ""; llm_model := "m" |}
                  "" (Some (failing 429)) (VStr "  hello  ")) =
     inr (ApiError 400 "Text exceeds maximum length of 4 characters")
  /\ (run eval0 (processIntent host0
                   {| maxTextLength := 5; llm_apiKey := ""; llm_model := "m" |}
                   "" (Some (failing 429)) (VStr "  hello  ")) =
      inr (ApiError 429 "Rate limit exceeded. Please try again later.")).
Proof.
  split; [|split; [|split]].
  - apply (proj1 (processIntent_validation host0 config0 "" eval0
                    (Some (failing 429)))).
    intros s Hs. discriminate.
  - apply (proj1 (proj2 (processIntent_validation host0 config0 "" eval0
                           (Some (failing 429))))).
    + discriminate.
    + reflexivity.
  - apply (proj1 (proj2 (proj2 (processIntent_validation host0
             {| maxTextLength := 4; llm_apiKey := ""; llm_model := "m" |}
             "" eval0 (Some (failing 429)))))).
    vm_compute. lia.
  - destruct (run eval0 (processIntent host0
                   {| maxTextLength := 5; llm_apiKey := ""; llm_model := "m" |}
                   "" (Some (failing 429)) (VStr "  hello  "))) as [r | e] eqn:Hr.
    + vm_compute in Hr. discriminate.
    + destruct (proj2 (proj2 (proj2 (processIntent_validation host0
             {| maxTextLength := 5; llm_apiKey := ""; llm_model := "m" |}
             "" eval0 (Some (failing 429))))) "  hello  " e) as [-> | ->].
      * repeat split; try discriminate. vm_compute. lia.
      * exact Hr.
      * vm_compute in Hr. discriminate.
      * reflexivity.
Defined.

Lemma truthy_or_else (a b : value) : truthy b = true -> truthy (or_else a b) = true.
Proof. unfold or_else. destruct (truthy a) eqn:Ha; auto. Qed.

(** X6: whatever the provider sent and whatever path was taken, a result of
    [processIntent] has exactly the five fields, in their order, and its
    intent, entities, message and confidence are truthy; so is its model
    when the configured model name is not empty. *)
Theorem processIntent_result_shape :
  forall E config sys ev grokClient text r,
    run ev (processIntent E config sys grokClient text) = inl r ->
    exists i e m c mo,
      r = VObj [("intent", i); ("entities", e); ("message", m);
                ("confidence", c); ("model", mo)] /\
      truthy i = true /\ truthy e = true /\ truthy m = true /\
      truthy c = true /\
      (llm_model config <> "" -> truthy mo = true).
Proof.
  intros E config sys ev grokClient text r. unfold processIntent.
  rewrite run_catch, run_bind.
  destruct (run ev (validate config text)) as [t | e0] eqn:Hv.
  - rewrite run_bind.
    destruct (run ev (callGrok E sys grokClient t)) as [res | e1] eqn:Hg.
    + cbn [run]. intros H. inversion H; subst r; clear H.
      do 5 eexists. split; [reflexivity|].
      repeat split; try (apply truthy_or_else; reflexivity).
      intros Hm. apply truthy_or_else. simpl.
      destruct (String.eqb_spec (llm_model config) ""); [contradiction | reflexivity].
    + apply callGrok_throws in Hg. destruct Hg as [-> | ->]; discriminate.
  - apply validate_throws in Hv. destruct Hv as [m ->]. discriminate.
Qed.

Lemma processIntent_result_shape_witness :
  exists r,
    run eval0 (processIntent host0 config0 "" (Some client0) (VStr "search cats")) =
    inl r /\ get r "intent" = VStr "search" /\
    get r "confidence" = VNum 0.5.
Proof.
  destruct (run eval0 (processIntent host0 config0 "" (Some client0)
                         (VStr "search cats"))) as [r | e] eqn:Hr.
  - exists r. destruct (processIntent_result_shape _ _ _ _ _ _ Hr)
      as (i & en & m & c & mo & -> & _).
    vm_compute in Hr. inversion Hr. repeat split.
  - vm_compute in Hr. discriminate.
Defined.

(** X7: [reinitializeGrokClient] answers [true] exactly when it leaves a client;
    when the key is missing or the constructor throws it leaves none, even
    if there was one before, and from then on every call of [callGrok] is
    answered by the rule engine. *)
Theorem reinitialize_drops_client :
  forall config construct old,
    (fst (reinitializeGrokClient config construct old) = true <->
     snd (reinitializeGrokClient config construct old) <> None)
    /\ (llm_apiKey config = "" \/ construct = None ->
        reinitializeGrokClient config construct old = (false, None) /\
        forall E sys ev text,
          run ev (callGrok E sys (snd (reinitializeGrokClient config construct old))
                           text) =
          run ev (fallbackIntentRecognition E text)).
Proof.
  intros config construct old. split.
  - unfold reinitializeGrokClient, initializeGrokClient.
    destruct (String.eqb (llm_apiKey config) ""); [simpl; split; [discriminate | tauto]|].
    destruct construct; simpl; split; try discriminate; tauto.
  - intros H.
    assert (Hr : reinitializeGrokClient config construct old = (false, None)).
    { unfold reinitializeGrokClient, initializeGrokClient.
      destruct H as [-> | ->]; [reflexivity|].
      destruct (String.eqb (llm_apiKey config) ""); reflexivity. }
    split; [exact Hr|]. intros E sys ev text. rewrite Hr.
    apply callGrok_unconfigured.
Qed.

Lemma reinitialize_drops_client_witness :
  reinitializeGrokClient
    {| maxTextLength := 1000; llm_apiKey := "key"; llm_model := "grok-beta" |}
    None (Some client0) = (false, None).
Proof.
  apply (proj2 (reinitialize_drops_client
                  {| maxTextLength := 1000; llm_apiKey := "key";
                     llm_model := "grok-beta" |} None (Some client0))).
  now right.
Defined.

End ValidationFacts.
Import ValidationFacts.

(* ------------------------------------------------------------------ *)
(** ** Recovery of JSON from a reply *)

Module RecoveryFacts.

Fixpoint has_char (c : ascii) (s : string) : bool :=
  match s with
  | EmptyString => false
  | String x s' => Ascii.eqb c x || has_char c s'
  end.

Lemma has_char_app (c : ascii) (a b : string) :
  has_char c (a ++ b) = has_char c a || has_char c b.
Proof.
  induction a as [|x a IH]; cbn [append has_char]; [reflexivity|].
  now rewrite IH, orb_assoc.
Qed.

Lemma has_char_cons (c : ascii) (s : string) : has_char c (String c s) = true.
Proof. cbn [has_char]. now rewrite Ascii.eqb_refl. Qed.

(** A string is cut at the first occurrence of a character in one way. *)
Lemma first_cut (c : ascii) :
  forall p p' a b,
    has_char c p = false -> has_char c p' = false ->
    p ++ String c a = p' ++ String c b -> p = p' /\ a = b.
Proof.
  induction p as [|x p IH]; intros [|y p'] a b Hp Hp' H; cbn [append] in H.
  - injection H as ->. auto.
  - injection H as -> _. rewrite has_char_cons in Hp'. discriminate.
  - injection H as -> _. rewrite has_char_cons in Hp. discriminate.
  - injection H as -> H. cbn [has_char] in Hp, Hp'.
    apply orb_false_iff in Hp, Hp'.
    destruct (IH p' a b) as [-> ->]; tauto.
Qed.

(** And at the last occurrence. *)
Lemma last_cut (c : ascii) :
  forall b b' a a',
    has_char c a = false -> has_char c a' = false ->
    b ++ String c a = b' ++ String c a' -> b = b' /\ a = a'.
Proof.
  induction b as [|x b IH]; intros [|y b'] a a' Ha Ha' H; cbn [append] in H.
  - injection H as ->. auto.
  - injection H as _ ->. rewrite has_char_app, has_char_cons, orb_true_r in Ha.
    discriminate.
  - injection H as _ <-. rewrite has_char_app, has_char_cons, orb_true_r in Ha'.
    discriminate.
  - injection H as -> H. destruct (IH b' a a') as [-> ->]; auto.
Qed.

(** The text up to and including the last closing brace: how many characters
    it has, and what follows it. *)
Fixpoint last_brace (s : string) : option (nat * string) :=
  match s with
  | EmptyString => None
  | String c r =>
      match last_brace r with
      | Some (n, after) => Some (S n, after)
      | None => if Ascii.eqb "}" c then Some (1, r) else None
      end
  end.

Lemma last_brace_none (s : string) :
  last_brace s = None <-> has_char "}" s = false.
Proof.
  induction s as [|c r IH]; cbn [last_brace has_char]; [tauto|].
  destruct (last_brace r) as [[n a]|].
  - split; [discriminate|]. intros H. apply orb_false_iff in H.
    destruct IH as [_ IH]. destruct H as [_ H]. apply IH in H. discriminate.
  - destruct (Ascii.eqb "}" c); cbn [orb]; [split; discriminate|].
    destruct IH as [IH _]. split; auto.
Qed.

Lemma last_brace_some (s : string) (n : nat) (after : string) :
  last_brace s = Some (n, after) ->
  exists body,
    s = body ++ "}" ++ after /\ n = S (String.length body) /\
    has_char "}" after = false.
Proof.
  revert n after. induction s as [|c r IH]; cbn [last_brace]; intros n after;
    [discriminate|].
  destruct (last_brace r) as [[m a]|] eqn:Hl.
  - intros [= <- <-]. destruct (IH m a eq_refl) as (body & -> & -> & Ha).
    exists (String c body). auto.
  - destruct (Ascii.eqb_spec "}" c) as [<-|_]; [|discriminate].
    intros [= <- <-]. exists "". repeat split. now apply last_brace_none.
Qed.

Definition any_char : regex := RSet false [CSpace; CNonSpace].

Definition closing (st : mstate) : option mstate := rmatch false (RChar "}") st Some.

(** The greedy star of [/\{[\s\S]*\}/] followed by the closing brace stops at
    the last closing brace. *)
Lemma star_any (n : nat) :
  forall st,
    String.length (rest st) < n ->
    star_loop (rmatch false any_char) closing n st =
    match last_brace (rest st) with
    | Some (m, after) => Some (MState (pos st + m) after (grp st))
    | None => None
    end.
Proof.
  induction n as [|n IH]; intros [p r g] Hn; cbn [pos rest grp] in *; [lia|].
  cbn [star_loop]. unfold any_char at 1.
  cbn [rmatch rest]. destruct r as [|c r'].
  - reflexivity.
  - assert (Hany : set_holds false [CSpace; CNonSpace] c = true).
    { unfold set_holds. cbn [existsb cls_holds xorb].
      destruct (is_space c); reflexivity. }
    rewrite Hany. unfold step. cbn [pos grp].
    assert (Hlt : (p <? S p) = true) by (apply Nat.ltb_lt; lia).
    rewrite Hlt. fold any_char. rewrite IH by (cbn [rest String.length] in *; lia).
    cbn [pos rest grp last_brace].
    destruct (last_brace r') as [[m a]|].
    + f_equal. f_equal. lia.
    + unfold closing. cbn [rmatch rest char_eq].
      destruct (Ascii.eqb "}" c); [|reflexivity].
      unfold step. cbn [pos grp]. f_equal. f_equal. lia.
Qed.

Lemma match_here_json (i : nat) (s : string) :
  match_here false json_object_re i s =
  match s with
  | String c r =>
      if Ascii.eqb "{" c then
        match last_brace r with
        | Some (m, after) => Some (MState (S i + m) after None)
        | None => None
        end
      else None
  | EmptyString => None
  end.
Proof.
  unfold match_here, json_object_re. cbn [seqs rmatch rest char_eq].
  destruct s as [|c r]; [reflexivity|].
  destruct (Ascii.eqb "{" c); [|reflexivity].
  unfold step. cbn [pos grp rest].
  change (fun st' : mstate => rmatch false (RChar "}") st' Some) with closing.
  fold any_char. now rewrite star_any by (cbn [rest]; lia).
Qed.

(** What [content.match(/\{[\s\S]*\}/)] finds: the text from the first
    opening brace that has a closing brace after it to the last closing
    brace. *)
Lemma search_json :
  forall pre body post i,
    has_char "{" pre = false ->
    has_char "}" post = false ->
    search false json_object_re i (pre ++ "{" ++ body ++ "}" ++ post) =
    Some (Found (i + String.length pre) ("{" ++ body ++ "}") None post).
Proof.
  induction pre as [|x pre IH]; intros body post i Hpre Hpost.
  - cbn [append search]. rewrite match_here_json, Ascii.eqb_refl.
    destruct (last_brace (body ++ String "}" post)) as [[m a]|] eqn:Hl.
    + apply last_brace_some in Hl. destruct Hl as (b' & Hb & -> & Ha).
      destruct (@last_cut "}" body b' post a Hpost Ha Hb) as [<- <-].
      cbn [pos rest grp]. f_equal.
      replace (i + String.length "") with i by (cbn [String.length]; lia).
      f_equal.
      assert (Hlen : S i + S (String.length body) - i
                     = String.length ("{" ++ body ++ "}")).
      { cbn [append String.length]. rewrite length_app. cbn [String.length]. lia. }
      rewrite Hlen.
      change (String "{" (body ++ String "}" post))
        with ("{" ++ body ++ "}" ++ post).
      rewrite <- (app_assoc body "}" post).
      change ("{" ++ (body ++ "}") ++ post) with (("{" ++ body ++ "}") ++ post).
      apply substring_app.
    + apply last_brace_none in Hl.
      rewrite has_char_app, has_char_cons, orb_true_r in Hl. discriminate.
  - cbn [has_char] in Hpre. apply orb_false_iff in Hpre. destruct Hpre as [Hx Hp].
    change (String x pre ++ "{" ++ body ++ "}" ++ post)
      with (String x (pre ++ "{" ++ body ++ "}" ++ post)).
    cbn [search]. rewrite match_here_json, Hx.
    rewrite (IH body post (S i) Hp Hpost). f_equal. f_equal.
    cbn [String.length]. lia.
Qed.

(** X8: when the reply is not JSON as it stands, [callGrok] parses instead the
    text from the first opening brace of the reply to its last closing brace:
    what that text parses to is returned, and when it does not parse the rule
    engine answers. *)
Theorem callGrok_recovers_outer_braces :
  forall E sys ev (c : client) text content pre body post,
    c (finalPrompt sys text) = Replied (Some content) ->
    JSON_parse E content = None ->
    content = pre ++ "{" ++ body ++ "}" ++ post ->
    has_char "{" pre = false ->
    has_char "}" post = false ->
    run ev (callGrok E sys (Some c) text) =
    match JSON_parse E ("{" ++ body ++ "}") with
    | Some v => inl v
    | None => run ev (fallbackIntentRecognition E text)
    end.
Proof.
  intros E sys ev c text content pre body post Hc Hp Hcont Hpre Hpost.
  unfold callGrok. rewrite run_catch. cbn [callGrok_try]. rewrite Hc, Hp.
  unfold exec. rewrite Hcont, (@search_json pre body post 0 Hpre Hpost). cbn [text0].
  destruct (JSON_parse E ("{" ++ body ++ "}")) as [v|]; reflexivity.
Qed.

Lemma callGrok_recovers_outer_braces_witness :
  run eval0 (callGrok host0 ""
               (Some (fun _ => Replied (Some ("Sure: " ++ reply0 ++ " done"))))
               "search cats") = inl parsed0.
Proof.
  apply (@callGrok_recovers_outer_braces host0 "" eval0
           (fun _ => Replied (Some ("Sure: " ++ reply0 ++ " done")))
           "search cats" ("Sure: " ++ reply0 ++ " done")
           "Sure: "
           (quoted "data" ++ ":{" ++ quoted "intent" ++ ":" ++ quoted "search" ++ "}")
           " done"); reflexivity.
Defined.

End RecoveryFacts.
Import RecoveryFacts.
(* ------------------------------------------------------------------ *)
(** ** The numbers of a text *)

Module NumberFacts.

(** The digits that open a string, and what follows them. *)
Fixpoint take_digits (s : string) : string * string :=
  match s with
  | EmptyString => ("", "")
  | String c r =>
      if is_digit c then (String c (fst (take_digits r)), snd (take_digits r))
      else ("", s)
  end.

(** The maximal runs of decimal digits of a string, left to right; [acc] is
    the run that is open. *)
Fixpoint runs (acc : string) (s : string) : list string :=
  match s with
  | EmptyString => match acc with EmptyString => [] | _ => [acc] end
  | String c r =>
      if is_digit c then runs (acc ++ String c "") r
      else match acc with EmptyString => runs "" r | _ => acc :: runs "" r end
  end.

Definition digit_runs (s : string) : list string := runs "" s.

Lemma app_cons_assoc (a : string) (c : ascii) (d : string) :
  (a ++ String c "") ++ d = a ++ String c d.
Proof. now rewrite app_assoc. Qed.

Lemma app_nonempty (a : string) (c : ascii) (d : string) :
  a ++ String c d <> "".
Proof. destruct a; discriminate. Qed.

Lemma runs_take (s : string) :
  forall acc,
    runs acc s =
    match acc ++ fst (take_digits s) with
    | EmptyString => runs "" (snd (take_digits s))
    | run => run :: runs "" (snd (take_digits s))
    end.
Proof.
  induction s as [|c r IH]; intros acc; cbn [runs take_digits].
  - cbn [fst snd runs]. rewrite app_empty_r. destruct acc; reflexivity.
  - destruct (is_digit c) eqn:Hc; cbn [fst snd].
    + rewrite IH, app_cons_assoc. reflexivity.
    + rewrite app_empty_r. cbn [runs]. rewrite Hc. destruct acc; reflexivity.
Qed.

Lemma take_digits_length (s : string) :
  String.length (snd (take_digits s)) <= String.length s.
Proof.
  induction s as [|c r IH]; cbn [take_digits]; [cbn; lia|].
  destruct (is_digit c); cbn [snd String.length]; lia.
Qed.

Lemma take_digits_app (s : string) :
  s = fst (take_digits s) ++ snd (take_digits s).
Proof.
  induction s as [|c r IH]; cbn [take_digits]; [reflexivity|].
  destruct (is_digit c); cbn [fst snd append]; [now rewrite <- IH | reflexivity].
Qed.

Lemma digit_set (c : ascii) : set_holds false [CDigit] c = is_digit c.
Proof.
  unfold set_holds. cbn [existsb cls_holds xorb]. now rewrite orb_false_r.
Qed.

(** The greedy star of [\d+] takes all the digits there are. *)
Lemma star_digits (n : nat) :
  forall st,
    String.length (rest st) < n ->
    star_loop (rmatch false RDigit) Some n st =
    Some (MState (pos st + String.length (fst (take_digits (rest st))))
                 (snd (take_digits (rest st))) (grp st)).
Proof.
  induction n as [|n IH]; intros [p r g] Hn; cbn [pos rest grp] in *; [lia|].
  cbn [star_loop]. unfold RDigit at 1. cbn [rmatch rest].
  destruct r as [|c r'].
  - cbn [take_digits fst snd String.length]. now rewrite Nat.add_0_r.
  - rewrite digit_set. cbn [take_digits]. destruct (is_digit c).
    + unfold step. cbn [pos grp].
      assert (Hlt : (p <? S p) = true) by (apply Nat.ltb_lt; lia).
      rewrite Hlt. fold RDigit.
      rewrite IH by (cbn [rest String.length] in *; lia).
      cbn [pos rest grp fst snd String.length]. f_equal. f_equal. lia.
    + cbn [fst snd String.length]. now rewrite Nat.add_0_r.
Qed.

Lemma match_here_numbers (i : nat) (s : string) :
  match_here false numbers_re i s =
  match s with
  | String c r =>
      if is_digit c then
        Some (MState (S i + String.length (fst (take_digits r)))
                     (snd (take_digits r)) None)
      else None
  | EmptyString => None
  end.
Proof.
  unfold match_here, numbers_re, RPlus. cbn [rmatch]. unfold RDigit at 1.
  cbn [rmatch rest]. destruct s as [|c r]; [reflexivity|].
  rewrite digit_set. destruct (is_digit c); [|reflexivity].
  unfold step. cbn [pos grp rest]. now rewrite star_digits by (cbn [rest]; lia).
Qed.

Lemma search_numbers (s : string) :
  forall i,
    search false numbers_re i s =
    match s with
    | String c r =>
        if is_digit c then
          Some (Found i (String c (fst (take_digits r))) None (snd (take_digits r)))
        else search false numbers_re (S i) r
    | EmptyString => None
    end.
Proof.
  destruct s as [|c r]; intros i; cbn [search]; rewrite match_here_numbers;
    [reflexivity|].
  destruct (is_digit c); [|reflexivity].
  cbn [pos rest grp]. f_equal. f_equal.
  replace (S i + String.length (fst (take_digits r)) - i)
    with (String.length (String c (fst (take_digits r))))
    by (cbn [String.length]; lia).
  rewrite (take_digits_app r) at 2.
  change (String c (fst (take_digits r) ++ snd (take_digits r)))
    with (String c (fst (take_digits r)) ++ snd (take_digits r)).
  apply substring_app.
Qed.

Lemma match_all_numbers (fuel : nat) :
  forall s i,
    String.length s < fuel ->
    match_all_from false numbers_re fuel i s = digit_runs s.
Proof.
  unfold digit_runs.
  induction fuel as [|fuel IHf]; intros s i Hf; [lia|].
  revert i Hf. induction s as [|c r IHs]; intros i Hf.
  - reflexivity.
  - cbn [match_all_from]. rewrite search_numbers. cbn [runs].
    destruct (is_digit c).
    + cbn [text0 after index append].
      assert (Hl := take_digits_length r). cbn [String.length] in Hf.
      rewrite runs_take. cbn [append].
      rewrite <- (IHf (snd (take_digits r))
                      (i + String.length (String c (fst (take_digits r)))))
        by lia.
      reflexivity.
    + specialize (IHs (S i)). cbn [match_all_from] in IHs.
      apply IHs. cbn [String.length] in Hf. lia.
Qed.

(** X9: the entity [numbers] holds [parseInt] of every maximal run of decimal
    digits of the text, in the order of the text, and is absent when the text
    has no digit: signs, decimal points and separators only cut the runs. *)
Theorem numbers_are_digit_runs :
  forall E text,
    lookup "numbers" (extractEntities E text) =
    match digit_runs text with
    | [] => None
    | l => Some (VArr (map (parseInt E) l))
    end.
Proof.
  intros E text. unfold extractEntities, match_all.
  rewrite match_all_numbers by lia.
  destruct (digit_runs text) as [|d l];
    destruct (first_match true time_re text);
    destruct (first_match false url_re text);
    destruct (first_match false email_re text);
    destruct (first_date datePatterns text); reflexivity.
Qed.

End NumberFacts.
Import NumberFacts.

(* ------------------------------------------------------------------ *)
(** ** The HTTP endpoint *)

Module HttpFacts.

Lemma processIntent_fields E config sys ev grokClient text r :
  run ev (processIntent E config sys grokClient text) = inl r ->
  exists i e m c mo,
    r = VObj [("intent", i); ("entities", e); ("message", m);
              ("confidence", c); ("model", mo)].
Proof.
  unfold processIntent. rewrite run_catch, run_bind.
  destruct (run ev (validate config text)) as [t | e0] eqn:Hv.
  - rewrite run_bind.
    destruct (run ev (callGrok E sys grokClient t)) as [res | e1] eqn:Hg.
    + cbn [run]. intros [= <-]. do 5 eexists. reflexivity.
    + apply callGrok_throws in Hg. destruct Hg as [-> | ->]; discriminate.
  - apply validate_throws in Hv. destruct Hv as [m ->]. discriminate.
Qed.

Lemma processIntent_valid_throws E config sys ev grokClient s e :
  valid config s ->
  run ev (processIntent E config sys grokClient (VStr s)) = inr e ->
  e = ApiError 502 "Invalid LLM API key configuration" \/
  e = ApiError 429 "Rate limit exceeded. Please try again later.".
Proof.
  intros Hv. unfold processIntent.
  rewrite run_catch, (validate_valid Hv). cbn [bind]. rewrite run_bind.
  destruct (run ev (callGrok E sys grokClient (trim s))) as [r | e1] eqn:Hg;
    [discriminate|].
  apply callGrok_throws in Hg.
  destruct Hg as [-> | ->]; cbn [rethrow run]; intros [= <-]; auto.
Qed.

(** What the service answers to a string that does not pass its checks. *)
Definition refusal (config : Config) (s : string) : string :=
  if String.eqb s "" then "Invalid text input"
  else if String.eqb (trim s) "" then "Text cannot be empty"
  else "Text exceeds maximum length of " ++ of_nat (maxTextLength config) ++
       " characters".

Lemma processIntent_not_valid E config sys ev grokClient s :
  ~ valid config s ->
  run ev (processIntent E config sys grokClient (VStr s)) =
  inr (ApiError 400 (refusal config s)).
Proof.
  intros Hn. unfold refusal.
  destruct (String.eqb_spec s "") as [->|Hs]; [reflexivity|].
  destruct (String.eqb_spec (trim s) "") as [Ht|Ht].
  - now rewrite (@processIntent_invalid E config sys ev grokClient (VStr s) _
                   (@validate_empty_after_trim config s Hs Ht)).
  - destruct (le_lt_dec (String.length (trim s)) (maxTextLength config))
      as [Hl|Hl].
    + exfalso. apply Hn. repeat split; assumption.
    + now rewrite (@processIntent_invalid E config sys ev grokClient (VStr s) _
                     (@validate_too_long config s Hl)).
Qed.

Lemma valid_dec config s : valid config s \/ ~ valid config s.
Proof.
  unfold valid.
  destruct (string_dec s "") as [->|Hs]; [right; tauto|].
  destruct (string_dec (trim s) "") as [Ht|Ht]; [right; tauto|].
  destruct (le_lt_dec (String.length (trim s)) (maxTextLength config));
    [left; tauto | right; intros (_ & _ & H); lia].
Qed.

Section Endpoint.

Variables (E : Env) (config : Config) (sys env : string).
Variable grokClient : option client.
Variables (startTime endTime : Z) (timestamp : string).
Variables stack_of printed : error -> value.
Variable ev : string -> value + error.

(** The exported handler of the controller, with its error handler. *)
Definition route : value -> response :=
  controller E config sys env grokClient startTime endTime timestamp
             stack_of printed ev.

(** The answer to a refused request: the status [c] and a body that opens
    with [success: false] and the message [m]; outside development it holds
    nothing else. *)
Definition refused (c : Z) (m : string) (r : response) : Prop :=
  status r = VNum (inject_Z c) /\
  exists more,
    body r = VObj ([("success", VBool false); ("message", VStr m)] ++ more) /\
    (env <> "development" -> more = []).

(** The answer to an accepted request, made of the result of the service. *)
Definition accepted (result : value) (r : response) : Prop :=
  r = Response (VNum 200)
        (ApiResponse true
           (VObj [("intent", get result "intent");
                  ("entities", get result "entities");
                  ("message", get result "message");
                  ("confidence", get result "confidence");
                  ("metadata",
                   VObj [("processingTime",
                          VStr (template E (VNum (inject_Z (endTime - startTime)))
                                ++ "ms"));
                         ("timestamp", VStr timestamp);
                         ("model", get result "model")])])
           "Command processed successfully").

Lemma errorHandler_refused c m :
  refused c m (errorHandler env stack_of printed (ApiError c m)).
Proof.
  unfold refused, errorHandler. cbn [status body fst snd]. split; [reflexivity|].
  eexists. split; [reflexivity|].
  intros Hd. destruct (String.eqb_spec env "development"); [contradiction|reflexivity].
Qed.

Lemma errorHandler_internal st m :
  m <> "" -> refused 500 m (errorHandler env stack_of printed (JsError st m)).
Proof.
  intros Hm. unfold refused, errorHandler. cbn [status body fst snd].
  destruct (String.eqb_spec m ""); [contradiction|].
  split; [reflexivity|]. eexists. split; [reflexivity|].
  intros Hd. destruct (String.eqb_spec env "development"); [contradiction|reflexivity].
Qed.

(** Two refusals of one response agree. *)
Lemma refused_same c m c' m' r :
  refused c m r -> refused c' m' r -> c = c' /\ m = m'.
Proof.
  intros [Hs (more & Hb & _)] [Hs' (more' & Hb' & _)].
  rewrite Hs in Hs'. rewrite Hb in Hb'.
  injection Hs' as Hc. injection Hb' as Hm _. auto.
Qed.

Lemma accepted_not_refused result c m r : accepted result r -> ~ refused c m r.
Proof.
  intros -> [_ (more & Hb & _)]. cbn [body ApiResponse] in Hb. discriminate.
Qed.

Lemma route_of_text o s :
  lookup "text" o = Some (VStr s) ->
  route (VObj o) =
  match run ev (processIntent E config sys grokClient (VStr s)) with
  | inl result =>
      if convertible (get result "intent")
      then Response (VNum 200)
             (ApiResponse true
                (VObj [("intent", get result "intent");
                       ("entities", get result "entities");
                       ("message", get result "message");
                       ("confidence", get result "confidence");
                       ("metadata",
                        VObj [("processingTime",
                               VStr (template E (VNum (inject_Z (endTime - startTime))) ++ "ms"));
                              ("timestamp", VStr timestamp);
                              ("model", get result "model")])])
                "Command processed successfully")
      else errorHandler env stack_of printed not_primitive
  | inr err => errorHandler env stack_of printed err
  end.
Proof.
  intros Ht. unfold route, controller, asyncHandler, processVoiceCommand.
  cbn [destructurable bind get]. rewrite Ht. cbn [logged bind].
  rewrite run_bind.
  destruct (run ev (processIntent E config sys grokClient (VStr s)))
    as [result | e] eqn:Hr; [|reflexivity].
  destruct (@processIntent_fields E config sys ev grokClient (VStr s) result Hr)
    as (i & en & m & c & mo & ->).
  cbn [member read get lookup String.eqb Ascii.eqb Bool.eqb bind].
  unfold in_template. destruct (convertible i); reflexivity.
Qed.

(** The controller on a body whose text is the string [s]: what it answers,
    by what the service does with [s]. *)
Lemma route_answers o s :
  lookup "text" o = Some (VStr s) ->
  match run ev (processIntent E config sys grokClient (VStr s)) with
  | inl result =>
      valid config s /\
      if convertible (get result "intent")
      then accepted result (route (VObj o))
      else refused 500 "Cannot convert object to primitive value" (route (VObj o))
  | inr (ApiError c m) =>
      refused c m (route (VObj o)) /\
      ((valid config s /\
        ((c = 429%Z /\ m = "Rate limit exceeded. Please try again later.") \/
         (c = 502%Z /\ m = "Invalid LLM API key configuration")))
       \/ (~ valid config s /\ c = 400%Z /\ m = refusal config s))
  | inr (JsError _ _) => False
  end.
Proof.
  intros Ht. rewrite (@route_of_text o s Ht).
  destruct (@valid_dec config s) as [Hv | Hn].
  - destruct (run ev (processIntent E config sys grokClient (VStr s)))
      as [result | e] eqn:Hr.
    + split; [exact Hv|].
      destruct (convertible (get result "intent")); [reflexivity|].
      apply errorHandler_internal. discriminate.
    + destruct (@processIntent_valid_throws E config sys ev grokClient s e Hv Hr)
        as [-> | ->]; (split; [apply errorHandler_refused | left; split; [exact Hv|]]);
        [right | left]; split; reflexivity.
  - rewrite (@processIntent_not_valid E config sys ev grokClient s Hn).
    split; [apply errorHandler_refused|]. right. repeat split. exact Hn.
Qed.

(** X11: the exported handler, called with a body that holds no [text] or one
    that is not a string, answers with the status 500 and the message of
    the [TypeError] of its first logging line, which reads
    [text.substring] before the service is called.  So the first refusal of
    the service, [Invalid text input], can answer the empty string only:
    whenever the handler answers with it, the text was the empty string.
    (In the route the validation comes first, see [process_route].) *)
Theorem controller_text_not_string :
  forall o,
    ((forall s, lookup "text" o <> Some (VStr s)) ->
     exists m,
       refused 500 m (route (VObj o)) /\ includes m "substring" = true)
    /\ (refused 400 "Invalid text input" (route (VObj o)) ->
        lookup "text" o = Some (VStr "")).
Proof.
  intros o.
  assert (Hnot : (forall s, lookup "text" o <> Some (VStr s)) ->
                 exists m, refused 500 m (route (VObj o)) /\
                           includes m "substring" = true).
  { intros Hn. unfold route, controller, asyncHandler, processVoiceCommand.
    cbn [destructurable bind get].
    destruct (lookup "text" o) as [text|] eqn:Ht.
    - destruct text; try (exfalso; now apply (Hn s));
        cbn [logged bind run]; eexists;
        (split; [apply errorHandler_internal; discriminate | reflexivity]).
    - cbn [logged bind run]. eexists.
      split; [apply errorHandler_internal; discriminate | reflexivity]. }
  split; [exact Hnot|]. intros Hr.
  destruct (lookup "text" o) as [text|] eqn:Ht.
  - destruct text as [| | | | | |s| | |];
      try (destruct Hnot as (m & Hm & _); [intros s; discriminate|];
           destruct (refused_same Hr Hm); discriminate).
    destruct (String.eqb_spec s "") as [->|Hs]; [reflexivity|]. exfalso.
    assert (Ha := @route_answers o s Ht).
    destruct (run ev (processIntent E config sys grokClient (VStr s)))
      as [result | [c m | st m]]; [| |exact Ha].
    + destruct Ha as [_ Ha].
      destruct (convertible (get result "intent")).
      * exact (accepted_not_refused Ha Hr).
      * destruct (refused_same Hr Ha). discriminate.
    + destruct Ha as [Ha Hc]. destruct (refused_same Hr Ha) as [<- <-].
      destruct Hc as [(_ & [[Hc _] | [Hc _]]) | (_ & _ & Hm)]; try discriminate.
      revert Hm. unfold refusal.
      destruct (String.eqb_spec s ""); [contradiction|].
      destruct (String.eqb (trim s) ""); discriminate.
  - destruct Hnot as (m & Hm & _); [intros s; discriminate|].
    destruct (refused_same Hr Hm). discriminate.
Qed.

(** The limiter and the validation in front of the controller. *)
Variable limiter : option value.
Variable schema_validate : value -> value + list string.

Definition served : value -> response :=
  process_route E config sys env grokClient startTime endTime timestamp
                stack_of printed limiter schema_validate ev.

(** X10: how [POST /api/process] answers a parsed body.  A request that the
    limiter refuses gets the limiter's message and nothing else happens.
    Else a body that the validation refuses gets the status 400 with the
    messages of Joi joined by a comma, and the service is not asked.  Else
    the controller has the validated value: when its text is the string
    [s], the answer is decided by the service on [s].  A result of the
    service is sent with the status 200, its five fields and the model
    under [metadata], unless its intent is an object that cannot be put
    into the template of the logging line, which gives the status 500;
    what the service throws is sent with its own status and message, which
    for a text that passes its checks are those of 429 and 502 only, and
    for another text those of its 400.  Outside development a refusal
    holds [success] and [message] only. *)
Theorem process_route_response :
  forall req_body,
    match limiter with
    | Some st => served req_body = Response st too_many_requests
    | None =>
        match schema_validate req_body with
        | inr details => refused 400 (join ", " details) (served req_body)
        | inl value =>
            forall s,
              get value "text" = VStr s ->
              match run ev (processIntent E config sys grokClient (VStr s)) with
              | inl result =>
                  valid config s /\
                  if convertible (get result "intent")
                  then accepted result (served req_body)
                  else refused 500 "Cannot convert object to primitive value"
                               (served req_body)
              | inr (ApiError c m) =>
                  refused c m (served req_body) /\
                  ((valid config s /\
                    ((c = 429%Z /\
                      m = "Rate limit exceeded. Please try again later.") \/
                     (c = 502%Z /\ m = "Invalid LLM API key configuration")))
                   \/ (~ valid config s /\ c = 400%Z /\ m = refusal config s))
              | inr (JsError _ _) => False
              end
        end
    end.
Proof.
  intros req_body. unfold served, process_route, validateProcessRequest.
  destruct limiter as [st|]; [reflexivity|].
  destruct (schema_validate req_body) as [value | details].
  - intros s Hs.
    destruct value as [| | | | | | | |o|]; try discriminate.
    cbn [get] in Hs. destruct (lookup "text" o) as [x|] eqn:Ht; [|discriminate].
    subst x. exact (@route_answers o s Ht).
  - apply errorHandler_refused.
Qed.

End Endpoint.

Lemma process_route_response_witness :
  status (served host0 config0 "" "production" (Some client0) 5 47
                 "2026-11-02T10:15:00.000Z" (fun _ => VNull) (fun _ => VNull)
                 eval0 None (fun body => inl body)
                 (VObj [("text", VStr "search cats")])) = VNum 200.
Proof.
  assert (H := @process_route_response host0 config0 "" "production" (Some client0)
              5 47 "2026-11-02T10:15:00.000Z" (fun _ => VNull) (fun _ => VNull)
              eval0 None (fun body => inl body)
              (VObj [("text", VStr "search cats")]) "search cats" eq_refl).
  destruct (run eval0 (processIntent host0 config0 "" (Some client0)
                         (VStr "search cats"))) as [result | e] eqn:Hr.
  - destruct H as [_ H]. vm_compute in Hr. injection Hr as <-.
    cbn [get lookup String.eqb Ascii.eqb Bool.eqb convertible] in H.
    unfold accepted in H. now rewrite H.
  - vm_compute in Hr. discriminate.
Defined.

Lemma controller_text_not_string_witness :
  status (route host0 config0 "" "production" None 5 47
                "2026-11-02T10:15:00.000Z" (fun _ => VNull) (fun _ => VNull)
                eval0 (VObj [("text", VNum 7)])) = VNum (inject_Z 500).
Proof.
  destruct (proj1 (@controller_text_not_string host0 config0 "" "production" None
              5 47 "2026-11-02T10:15:00.000Z" (fun _ => VNull) (fun _ => VNull)
              eval0 [("text", VNum 7)])) as (m & (H & _) & _).
  - intros s. discriminate.
  - exact H.
Defined.

End HttpFacts.
Import HttpFacts.

(* ------------------------------------------------------------------ *)
(** ** From the answer of the service to the browser *)

Module DispatchFacts.


Lemma execute_none : execute (VObj [("action", VStr "NONE")]) = [].
Proof. reflexivity. Qed.

Lemma select_cases (intent : string) :
  match select intent with
  | SelSearch => intent = "search" \/ intent = "website_search"
  | SelOpenSite => intent = "open_site"
  | SelObject => intent = "constructor"
  | SelNotCallable => intent = "__proto__"
  | SelDefault => True
  end.
Proof.
  unfold select.
  destruct (String.eqb_spec intent "search"); [auto|].
  destruct (String.eqb_spec intent "website_search"); [auto|].
  destruct (String.eqb_spec intent "summarize"); [auto|].
  destruct (String.eqb_spec intent "open_site"); [auto|].
  destruct (String.eqb_spec intent "constructor"); [auto|].
  destruct (String.eqb_spec intent "__proto__"); auto.
Qed.









End DispatchFacts.
Import DispatchFacts.

(* ------------------------------------------------------------------ *)
(** ** A command, end to end *)

Module PipelineFacts.

Definition unknown_command : value :=
  VObj [("success", VBool false); ("error", VStr "Unknown command")].

(** X13: with no API key a command that passes the checks never moves the
    browser.  The endpoint answers it with the status 200 and the defaults
    of the service, the intent [unknown] first, since the fields of the
    rule engine's answer are looked for under [data]; handed that answer,
    the dispatcher asks the browser for nothing, and the router replies
    [Unknown command], inside a reply that says [success: true]. *)
Theorem unconfigured_command_does_nothing :
  forall E config sys env construct startTime endTime timestamp stack_of printed
         ev o s,
    llm_apiKey config = "" ->
    lookup "text" o = Some (VStr s) ->
    valid config s ->
    let r := route E config sys env (grokClient_at_load config construct)
                   startTime endTime timestamp stack_of printed ev (VObj o) in
    status r = VNum 200 /\
    get (get (body r) "data") "intent" = VStr "unknown" /\
    get (get (body r) "data") "entities" = VObj [] /\
    get (get (body r) "data") "message" = VStr "Processing complete" /\
    run ev (process E (body r)) = inl [] /\
    forall innerText h1 h2 h3 h4 h5,
      Router.listener innerText h1 h2 h3 h4 h5 (VObj [("data", body r)]) =
      ([reply_ok unknown_command], inl (VBool true)).
Proof.
  intros E config sys env construct t0 t1 ts stack_of printed ev o s Hk Ht Hv r.
  assert (Hr : r = Response (VNum 200)
                 (ApiResponse true
                    (VObj [("intent", VStr "unknown");
                           ("entities", VObj []);
                           ("message", VStr "Processing complete");
                           ("confidence", VNum 0.5);
                           ("metadata",
                            VObj [("processingTime",
                                   VStr (template E (VNum (inject_Z (t1 - t0))) ++ "ms"));
                                  ("timestamp", VStr ts);
                                  ("model", VStr (llm_model config))])])
                    "Command processed successfully")).
  { unfold r. rewrite (@route_of_text E config sys env _ t0 t1 ts stack_of printed ev o s Ht).
    rewrite (@no_key_no_client config construct Hk).
    rewrite (@processIntent_unconfigured E config sys ev s Hv). reflexivity. }
  rewrite Hr. cbn [status body].
  split; [reflexivity|]. split; [reflexivity|]. split; [reflexivity|].
  split; [reflexivity|]. split; [reflexivity|].
  intros innerText h1 h2 h3 h4 h5. reflexivity.
Qed.

Lemma unconfigured_command_does_nothing_witness :
  run eval0
    (process host0
       (body (route host0 config0 "" "production"
                (grokClient_at_load config0 (Some client0)) 5 47
                "2026-11-02T10:15:00.000Z" (fun _ => VNull) (fun _ => VNull)
                eval0 (VObj [("text", VStr "search for cats")])))) = inl [].
Proof.
  apply (@unconfigured_command_does_nothing host0 config0 "" "production"
           (Some client0) 5 47 "2026-11-02T10:15:00.000Z"
           (fun _ => VNull) (fun _ => VNull) eval0
           [("text", VStr "search for cats")] "search for cats").
  - reflexivity.
  - reflexivity.
  - repeat split; try discriminate. vm_compute. lia.
Defined.

End PipelineFacts.
Import PipelineFacts.
(* ------------------------------------------------------------------ *)
(** ** The rule engine's answer in the dispatcher *)

Module RuleDispatchFacts.

Lemma truthy_of_field data k s : get data k = VStr s -> truthy data = true.
Proof. destruct data; try discriminate; reflexivity. Qed.

Lemma process_default E ev data i msg :
  get data "intent" = VStr i ->
  select (toLowerCase i) = SelDefault ->
  run ev (process E (ApiResponse true data msg)) = inl [].
Proof.
  intros Hi Hs. unfold process, process_result, ApiResponse.
  cbn [destructurable bind get lookup String.eqb Ascii.eqb Bool.eqb truthy negb orb].
  rewrite (@truthy_of_field data "intent" i Hi), Hi. cbn [negb].
  rewrite Hs. reflexivity.
Qed.

(** The query the rule engine extracts for its intent [search]. *)
Definition search_query_of (text : string) : string :=
  trim (replace_all true search_words_re "" text).

Lemma process_search E ev data text msg :
  get data "intent" = VStr "search" ->
  get data "entities" =
    VObj (spread [("query", VStr (search_query_of text)); ("action", VStr "search")]
                 (extractEntities E text)) ->
  run ev (process E (ApiResponse true data msg)) =
  inl [search_query (VStr (search_query_of text))].
Proof.
  intros Hi He. unfold process, process_result, ApiResponse.
  cbn [destructurable bind get lookup String.eqb Ascii.eqb Bool.eqb truthy negb orb].
  rewrite (@truthy_of_field data "intent" "search" Hi), Hi, He. cbn [negb].
  change (select (toLowerCase "search")) with SelSearch. cbv iota.
  generalize (search_query_of text). intros q.
  all_cases text; reflexivity.
Qed.

(** X14: of the intents of the rule engine only [search] moves the browser.
    When a response of the API carries the intent and the entities of the
    rule engine's answer, the dispatcher asks for one search, of the text
    left once the search words are cut out, if the first entry with a
    keyword in the text is [search]; in every other case, [open_website]
    included, it asks for nothing. *)
Theorem rule_engine_dispatch :
  forall E ev text r data msg,
    run ev (fallbackIntentRecognition E text) = inl r ->
    get data "intent" = get r "intent" ->
    get data "entities" = get r "entities" ->
    run ev (process E (ApiResponse true data msg)) =
    inl (match find_pattern (trim (toLowerCase text)) patterns with
         | Some data =>
             if String.eqb (name data) "search"
             then [search_query (VStr (search_query_of text))]
             else []
         | None => []
         end).
Proof.
  intros E ev text r data msg Hr Hi He.
  destruct (find_pattern (trim (toLowerCase text)) patterns) as [p|] eqn:Hf.
  - destruct (String.eqb_spec (name p) "search") as [Hn | Hn].
    + assert (Hd : handler p = Some search_handler /\ entities p = None).
      { apply find_pattern_In in Hf. destruct Hf as [Hin _].
        unfold patterns in Hin. cbn [In] in Hin.
        repeat (destruct Hin as [<- | Hin];
                [first [discriminate Hn | split; reflexivity]|]).
        contradiction. }
      destruct Hd as [Hh Hent].
      revert Hr. unfold fallbackIntentRecognition. rewrite Hf. unfold answer.
      rewrite Hh, Hent, Hn.
      cbn [search_handler bind run fst snd handler_result get
           lookup String.eqb Ascii.eqb Bool.eqb fields_of].
      intros [= <-].
      apply process_search; [exact Hi | exact He].
    + destruct (@fallback_match E text ev p Hf) as (ents & m & Hr' & _).
      rewrite Hr in Hr'. injection Hr' as ->.
      apply (@process_default E ev data (name p) msg Hi).
      apply find_pattern_In in Hf. destruct Hf as [Hin _].
      unfold patterns in Hin. cbn [In] in Hin.
      repeat (destruct Hin as [<- | Hin];
              [first [reflexivity | exfalso; apply Hn; reflexivity]|]).
      contradiction.
  - destruct (@fallback_unknown E text ev Hf) as (m & Hr' & _).
    rewrite Hr in Hr'. injection Hr' as ->.
    now apply (@process_default E ev data "unknown" msg Hi).
Qed.

Lemma rule_engine_dispatch_witness :
  run eval0
    (process host0
       (ApiResponse true
          (VObj [("intent", VStr "search");
                 ("entities", VObj [("query", VStr "cats"); ("action", VStr "search")]);
                 ("message", VStr ("I'll help you search for " ++ dq ++ "cats" ++ dq ++ "."));
                 ("confidence", VNum 0.85);
                 ("metadata", VObj [("model", VStr fallback_model)])])
          "Command processed successfully")) =
  inl [search_query (VStr "cats")].
Proof.
  apply (@rule_engine_dispatch host0 eval0 "Search for cats"
           (intent_result "search"
              [("query", VStr "cats"); ("action", VStr "search")]
              (VStr ("I'll help you search for " ++ dq ++ "cats" ++ dq ++ "."))
              0.85 fallback_model)).
  - vm_compute. reflexivity.
  - reflexivity.
  - reflexivity.
Defined.

End RuleDispatchFacts.
Import RuleDispatchFacts.

(* ------------------------------------------------------------------ *)
(** ** The handlers of the page *)

Module DomFacts.

(** A character that [encodeURIComponent] can put out: an unreserved one,
    the percent sign, or a hexadecimal digit. *)
Definition url_safe (c : ascii) : bool :=
  is_unreserved c || Ascii.eqb c "%".

Lemma hex_digit_safe (n : nat) : n < 16 -> url_safe (hex_digit n) = true.
Proof.
  intros H. do 16 (destruct n as [|n]; [reflexivity|]). lia.
Qed.

Lemma escape_safe (byte : nat) :
  byte < 256 -> all_chars url_safe (escape byte) = true.
Proof.
  intros H. unfold escape. cbn [all_chars].
  rewrite !hex_digit_safe; [reflexivity | |].
  - apply Nat.mod_upper_bound. discriminate.
  - apply Nat.Div0.div_lt_upper_bound. exact H.
Qed.

Lemma code_bound (c : ascii) : code c < 256.
Proof. unfold code. apply nat_ascii_bounded. Qed.

Lemma encodeURIComponent_safe (s : string) :
  all_chars url_safe (encodeURIComponent s) = true.
Proof.
  induction s as [|c s IH]; [reflexivity|].
  cbn [encodeURIComponent]. rewrite all_chars_app, IH, andb_true_r.
  destruct (is_unreserved c) eqn:Hu.
  - cbn [all_chars]. unfold url_safe. now rewrite Hu.
  - assert (Hc := code_bound c).
    destruct (code c <? 128) eqn:Hl.
    + apply escape_safe. exact Hc.
    + apply Nat.ltb_ge in Hl.
      rewrite all_chars_app, !escape_safe; [reflexivity | |].
      * assert (code c mod 64 < 64) by (apply Nat.mod_upper_bound; discriminate).
        lia.
      * assert (code c / 64 < 4)
          by (apply Nat.Div0.div_lt_upper_bound; exact Hc).
        lia.
Qed.

(** The characters that cut a URL or its query into parts. *)
Definition delimiter (c : ascii) : bool :=
  existsb (Ascii.eqb c) ["&"; "#"; "="; "?"; "/"; "+"; " "; ":"; ";"; "@"]%char.

Lemma url_safe_not_delimiter (c : ascii) :
  url_safe c = true -> delimiter c = false.
Proof.
  unfold url_safe, delimiter, is_unreserved, in_range, code.
  destruct c as [[] [] [] [] [] [] [] []]; vm_compute; congruence.
Qed.

Lemma all_chars_impl (f g : ascii -> bool) (s : string) :
  (forall c, f c = true -> g c = true) ->
  all_chars f s = true -> all_chars g s = true.
Proof.
  intros H. induction s as [|c s IH]; cbn [all_chars]; [reflexivity|].
  intros Hs. apply andb_true_iff in Hs. destruct Hs as [Hc Hs].
  now rewrite (H c Hc), IH.
Qed.

Lemma read_get (v : value) (k : string) (x : value) :
  read v k = inl x -> get v k = x.
Proof. destruct v; cbn [read]; intros H; now inversion H. Qed.

Section Page.

Variable E : Env.
Variable doc : document.

(** What [googleSearch] throws when it finds no query: the [TypeError] of
    the first property read that has nothing to read from, else its own
    error. *)
Definition no_query (data : value) : error :=
  match data with
  | VUndefined => type_error "undefined" "entities"
  | VNull => type_error "null" "entities"
  | _ =>
      match get data "entities" with
      | VUndefined => type_error "undefined" "query"
      | VNull => type_error "null" "query"
      | _ => JsError VUndefined "No query"
      end
  end.

(** X15: [googleSearch] succeeds exactly when [data.entities.query] is
    truthy.  It then returns its message and asks for one navigation, 200
    ms later, to the search URL of Google followed by the encoded query,
    unless the query is an object that the callback of the timer cannot
    convert, in which case nothing navigates; the encoded query holds
    unreserved characters and escapes only, so that no character of the
    spoken text can end the parameter [q] or start another part of the
    URL.  When the query is not truthy it throws without touching the page:
    the [TypeError] of the read when [data] or its entities are [undefined]
    or [null], and [No query] otherwise. *)
Theorem googleSearch_url :
  forall data,
    let q := get (get data "entities") "query" in
    (truthy q = true ->
     googleSearch E data =
     ((if convertible q
       then [Navigate ("https://www.google.com/search?q=" ++
                       encodeURIComponent (template E q)) 200]
       else []),
      inl (message_of "Redirecting to Google")) /\
     all_chars (fun c => negb (delimiter c))
               (encodeURIComponent (template E q)) = true)
    /\ (truthy q = false -> googleSearch E data = ([], inr (no_query data))).
Proof.
  intros data q. subst q. split.
  - intros Ht. split.
    + unfold googleSearch.
      destruct data as [| | | | | | | |o|]; try discriminate Ht.
      cbn [read t_lift t_bind].
      destruct (get (VObj o) "entities") as [| | | | | | | |en|] eqn:He;
        try discriminate Ht.
      cbn [read t_lift t_bind]. rewrite Ht. cbn [negb].
      destruct (convertible (get (VObj en) "query")); reflexivity.
    + apply (@all_chars_impl url_safe).
      * intros c Hc. now rewrite (url_safe_not_delimiter c Hc).
      * apply encodeURIComponent_safe.
  - intros Ht. unfold googleSearch, no_query.
    destruct data as [| | | | | | | |o|]; try reflexivity.
    cbn [read t_lift t_bind].
    destruct (get (VObj o) "entities") as [| | | | | | | |en|] eqn:He;
      try reflexivity;
      cbn [read t_lift t_bind]; rewrite Ht; reflexivity.
Qed.

(** [websiteSearch] fails without touching the page (no query, no search
    box, a selector refused) or fills the search box: focus, the query as
    value, one [input] event, 300 ms, and the submission of the form when
    the box lies in one. *)
Lemma websiteSearch_all_or_nothing :
  forall data,
    (exists e, websiteSearch doc data = ([], inr e))
    \/ (exists q input,
          get (get data "entities") "query" = q /\ truthy q = true /\
          querySelector doc search_box = inl (Some input) /\
          websiteSearch doc data =
          (([Focus input; SetValue input q; Dispatch input "input"; Wait 300] ++
            (if has_form doc input then [Submit input] else []))%list,
           inl (message_of "Search submitted"))).
Proof.
  intros data. unfold websiteSearch.
  destruct (read data "entities") as [entities | e] eqn:He;
    [|left; eexists; reflexivity].
  cbn [t_lift t_bind].
  destruct (read entities "query") as [q | e] eqn:Hq;
    [|left; eexists; reflexivity].
  destruct (truthy q) eqn:Ht; cbn [negb]; [|left; eexists; reflexivity].
  destruct (querySelector doc search_box) as [[input|] | e] eqn:Hs;
    [| left; eexists; reflexivity | left; eexists; reflexivity].
  right. exists q, input.
  split; [now rewrite (@read_get data "entities" entities He),
                      (@read_get entities "query" q Hq)|].
  split; [exact Ht|]. split; [reflexivity|].
  destruct (has_form doc input); reflexivity.
Qed.














(** A page with one field whose name holds "email", element 7. *)
Definition page0 : document := {|
  querySelector := fun selector =>
    if includes selector "email" then inl (Some 7) else inl None;
  has_form := fun _ => true
|}.

End Page.

Lemma googleSearch_url_witness :
  googleSearch host0 (VObj [("entities", VObj [("query", VStr "a b&c")])]) =
  ([Navigate "https://www.google.com/search?q=a%20b%26c" 200],
   inl (message_of "Redirecting to Google")).
Proof.
  exact (proj1 (proj1 (googleSearch_url host0
                         (VObj [("entities", VObj [("query", VStr "a b&c")])]))
                      eq_refl)).
Defined.



End DomFacts.
Import DomFacts.

(* ------------------------------------------------------------------ *)
(** ** The relay from the router to the content script *)

Module RelayFacts.

Ltac no_new_tab Hn :=
  let url := fresh "url" in
  let Hin := fresh "Hin" in
  intros url Hin; apply (Hn url); rewrite ?in_app_iff in Hin;
  cbn [In] in Hin; intuition discriminate.

Section Browser.

Variable B : browser.

(** The tab [sendToContent] settles on: the first active tab, else the
    first tab with a usable address, else the tab it creates. *)
Definition chosen : option tab + error :=
  match active_tabs B with
  | inr e => inr e
  | inl (t :: _) => inl (Some t)
  | inl [] =>
      match all_tabs B with
      | inr e => inr e
      | inl allTabs =>
          match find usable allTabs with
          | Some t => inl (Some t)
          | None => inl (new_tab B)
          end
      end
  end.

Lemma choose_tab_chosen : snd (choose_tab B) = chosen.
Proof.
  unfold choose_tab, chosen. cbn [perform t_bind t_lift].
  destruct (active_tabs B) as [[|t l] | e]; try reflexivity.
  cbn [perform t_bind t_lift app].
  destruct (all_tabs B) as [allTabs | e]; try reflexivity.
  destruct (find usable allTabs); reflexivity.
Qed.

Lemma choose_tab_creates url :
  In (CreateTab url) (fst (choose_tab B)) ->
  active_tabs B = inl [] /\
  exists allTabs, all_tabs B = inl allTabs /\ find usable allTabs = None.
Proof.
  unfold choose_tab. cbn [perform t_bind t_lift].
  destruct (active_tabs B) as [[|t l] | e].
  - cbn [perform t_bind t_lift app].
    destruct (all_tabs B) as [allTabs | e].
    + destruct (find usable allTabs) eqn:Hf.
      * cbn. intros [H | [H | []]]; discriminate.
      * intros _. split; [reflexivity|]. exists allTabs. auto.
    + cbn. intros [H | [H | []]]; discriminate.
  - cbn. intros [H | []]. discriminate.
  - cbn. intros [H | []]. discriminate.
Qed.

Lemma sendToContent_cases :
  forall payload,
    exists trace result,
      sendToContent B payload = (trace, inl result) /\
      ((exists t,
           chosen = inl (Some t) /\ inject B (tab_id t) = None /\
           deliver B (tab_id t) payload = Delivered result /\
           truthy result = true /\
           In (SendMessage (tab_id t) payload) trace)
       \/ (exists err, result = failed err)) /\
      (forall url,
          In (CreateTab url) trace ->
          active_tabs B = inl [] /\
          exists allTabs,
            all_tabs B = inl allTabs /\ find usable allTabs = None).
Proof.
  intros payload. unfold sendToContent.
  assert (Hc := choose_tab_chosen). assert (Hn := choose_tab_creates).
  destruct (choose_tab B) as [out [tab | e]]; cbn [fst snd] in Hc, Hn.
  - cbn [t_bind t_catch].
    destruct tab as [t|].
    + cbn [t_ret t_bind perform app].
      destruct (inject B (tab_id t)) as [err|] eqn:Hi.
      * cbn. eexists; eexists. split; [reflexivity|].
        split; [right; eexists; reflexivity | no_new_tab Hn].
      * cbn [t_ret t_bind perform app].
        destruct (deliver B (tab_id t) payload) as [m | response] eqn:Hd.
        -- cbn. eexists; eexists. split; [reflexivity|].
           split; [right; eexists; reflexivity | no_new_tab Hn].
        -- destruct (truthy response) eqn:Ht; cbn.
           ++ eexists; eexists. split; [reflexivity|]. split; [|no_new_tab Hn].
              left. exists t. rewrite <- Hc.
              repeat split; try assumption; try reflexivity.
              rewrite ?in_app_iff. cbn [In]. auto 10.
           ++ eexists; eexists. split; [reflexivity|].
              split; [right; eexists; reflexivity | no_new_tab Hn].
    + cbn. eexists; eexists. split; [reflexivity|].
      split; [right; eexists; reflexivity | no_new_tab Hn].
  - cbn. eexists; eexists. split; [reflexivity|].
    split; [right; eexists; reflexivity | no_new_tab Hn].
Qed.

(** Why [sendToContent] cannot hand over the response of a tab, with the
    error it catches: a query of the tabs rejected, no tab handed over by
    [tabs.create], the injection rejected, [lastError] set after the message
    was sent, or a response that is not truthy. *)
Inductive obstacle (payload : value) : error -> Prop :=
| query_rejected : forall e, chosen = inr e -> obstacle payload e
| no_tab : chosen = inl None -> obstacle payload (type_error "undefined" "id")
| not_injected : forall t e,
    chosen = inl (Some t) -> inject B (tab_id t) = Some e -> obstacle payload e
| last_error : forall t m,
    chosen = inl (Some t) -> inject B (tab_id t) = None ->
    deliver B (tab_id t) payload = LastError m ->
    obstacle payload (JsError VUndefined m)
| no_response : forall t r,
    chosen = inl (Some t) -> inject B (tab_id t) = None ->
    deliver B (tab_id t) payload = Delivered r -> truthy r = false ->
    obstacle payload (JsError VUndefined "No response from content.js").

Ltac sent_cases Hin Hq :=
  rewrite ?in_app_iff in Hin; cbn [In] in Hin;
  repeat (destruct Hin as [Hin | Hin]);
  try contradiction; try discriminate Hin;
  try (now destruct (Hq _ _ Hin)).

(** X18: [sendToContent] never throws, and what it resolves with is decided
    by the browser.  When the script can be injected into the chosen tab
    and the tab answers the message with a truthy value, it resolves with
    that very response, having injected the script, waited 600 ms and sent
    the payload to that tab, in this order and last of all.  In every other
    case it resolves with [{ success: false, error }], where [error] is the
    message of what went wrong; one of the two is always the case.  A
    message is only ever sent to the chosen tab, with the payload, after
    the injection went through.  The tab is the first active tab, else the
    first tab whose address is not empty and not internal to the browser; a
    tab is created only when there is neither. *)
Theorem sendToContent_resolves :
  forall payload,
    exists trace result,
      sendToContent B payload = (trace, inl result) /\
      (forall t r,
          chosen = inl (Some t) -> inject B (tab_id t) = None ->
          deliver B (tab_id t) payload = Delivered r -> truthy r = true ->
          result = r /\
          exists before,
            trace = (before ++ [ExecuteScript (tab_id t); Pause 600;
                                SendMessage (tab_id t) payload])%list) /\
      (forall err, obstacle payload err -> result = failed err) /\
      ((exists t,
           chosen = inl (Some t) /\ inject B (tab_id t) = None /\
           deliver B (tab_id t) payload = Delivered result /\
           truthy result = true)
       \/ (exists err, obstacle payload err)) /\
      (forall tabId sent,
          In (SendMessage tabId sent) trace ->
          sent = payload /\ inject B tabId = None /\
          exists t, chosen = inl (Some t) /\ tabId = tab_id t) /\
      (forall url,
          In (CreateTab url) trace ->
          active_tabs B = inl [] /\
          exists allTabs,
            all_tabs B = inl allTabs /\ find usable allTabs = None).
Proof.
  intros payload. unfold sendToContent.
  assert (Hc := choose_tab_chosen). assert (Hn := choose_tab_creates).
  assert (Hq : forall tabId sent, ~ In (SendMessage tabId sent) (fst (choose_tab B))).
  { intros tabId sent. unfold choose_tab. cbn [perform t_bind t_lift].
    destruct (active_tabs B) as [[|t l] | e]; cbn [fst t_ret t_bind app];
      try (cbn; intuition discriminate).
    cbn [perform t_bind t_lift app].
    destruct (all_tabs B) as [allTabs | e]; [|cbn; intuition discriminate].
    destruct (find usable allTabs); cbn; intuition discriminate. }
  destruct (choose_tab B) as [out [tab | e]]; cbn [fst snd] in Hc, Hn, Hq.
  - cbn [t_bind t_catch].
    destruct tab as [t|].
    + cbn [t_ret t_bind perform app].
      destruct (inject B (tab_id t)) as [err|] eqn:Hi.
      * cbn. eexists; eexists. split; [reflexivity|].
        split; [|split; [|split; [|split]]].
        -- intros t' r Ht'. rewrite <- Hc in Ht'. injection Ht' as <-. congruence.
        -- intros err' Ho. destruct Ho as [e He | He | t' e Ht' He | t' m Ht' He | t' r Ht' He];
             rewrite <- Hc in *; try discriminate;
             injection Ht' as <-; congruence.
        -- right. exists err. apply (@not_injected payload t err); [now rewrite <- Hc | exact Hi].
        -- intros tabId sent Hin. sent_cases Hin Hq.
        -- no_new_tab Hn.
      * cbn [t_ret t_bind perform app].
        destruct (deliver B (tab_id t) payload) as [m | response] eqn:Hd.
        -- cbn. eexists; eexists. split; [reflexivity|].
           split; [|split; [|split; [|split]]].
           ++ intros t' r Ht'. rewrite <- Hc in Ht'. injection Ht' as <-. congruence.
           ++ intros err' Ho. destruct Ho as [e He | He | t' e Ht' He | t' m' Ht' He Hd' | t' r Ht' He Hd'];
                rewrite <- Hc in *; try discriminate;
                injection Ht' as <-; congruence.
           ++ right. eexists. apply (@last_error payload t m); [now rewrite <- Hc | exact Hi | exact Hd].
           ++ intros tabId sent Hin. sent_cases Hin Hq.
              injection Hin as <- <-. split; [reflexivity|]. split; [exact Hi|].
              exists t. now rewrite <- Hc.
           ++ no_new_tab Hn.
        -- destruct (truthy response) eqn:Ht; cbn.
           ++ eexists; eexists. split; [reflexivity|].
              split; [|split; [|split; [|split]]].
              ** intros t' r Ht'. rewrite <- Hc in Ht'. injection Ht' as <-.
                 intros _ Hd' _. split; [congruence|].
                 exists out. now rewrite ?app_nil_r, <- ?List.app_assoc.
              ** intros err' Ho. destruct Ho as [e He | He | t' e Ht' He | t' m' Ht' He Hd' | t' r Ht' He Hd' Hr];
                   rewrite <- Hc in *; try discriminate;
                   injection Ht' as <-; congruence.
              ** left. exists t. rewrite <- Hc. auto.
              ** intros tabId sent Hin. sent_cases Hin Hq.
                 injection Hin as <- <-. split; [reflexivity|]. split; [exact Hi|].
                 exists t. now rewrite <- Hc.
              ** no_new_tab Hn.
           ++ eexists; eexists. split; [reflexivity|].
              split; [|split; [|split; [|split]]].
              ** intros t' r Ht'. rewrite <- Hc in Ht'. injection Ht' as <-. congruence.
              ** intros err' Ho. destruct Ho as [e He | He | t' e Ht' He | t' m' Ht' He Hd' | t' r Ht' He Hd' Hr];
                   rewrite <- Hc in *; try discriminate;
                   injection Ht' as <-; congruence.
              ** right. eexists. apply (@no_response payload t response);
                   [now rewrite <- Hc | exact Hi | exact Hd | exact Ht].
              ** intros tabId sent Hin. sent_cases Hin Hq.
                 injection Hin as <- <-. split; [reflexivity|]. split; [exact Hi|].
                 exists t. now rewrite <- Hc.
              ** no_new_tab Hn.
    + cbn. eexists; eexists. split; [reflexivity|].
      split; [|split; [|split; [|split]]].
      * intros t' r Ht'. rewrite <- Hc in Ht'. discriminate.
      * intros err' Ho. destruct Ho as [e He | He | t' e Ht' He | t' m' Ht' He Hd' | t' r Ht' He Hd' Hr];
          rewrite <- Hc in *; try discriminate. reflexivity.
      * right. eexists. apply no_tab. now rewrite <- Hc.
      * intros tabId sent Hin. sent_cases Hin Hq.
      * no_new_tab Hn.
  - cbn. eexists; eexists. split; [reflexivity|].
    split; [|split; [|split; [|split]]].
    + intros t' r Ht'. rewrite <- Hc in Ht'. discriminate.
    + intros err' Ho. destruct Ho as [e' He | He | t' e' Ht' He | t' m' Ht' He Hd' | t' r Ht' He Hd' Hr];
        rewrite <- Hc in *; try discriminate. injection He as <-. reflexivity.
    + right. exists e. apply query_rejected. now rewrite <- Hc.
    + intros tabId sent Hin. sent_cases Hin Hq.
    + no_new_tab Hn.
Qed.


End Browser.

Lemma googleSearch_returns E data v :
  snd (googleSearch E data) = inl v ->
  truthy (get (get data "entities") "query") = true.
Proof.
  unfold googleSearch.
  destruct (read data "entities") as [entities | e] eqn:He; [|discriminate].
  cbn [t_lift t_bind].
  destruct (read entities "query") as [q | e] eqn:Hq; [|discriminate].
  rewrite (@read_get data "entities" entities He),
          (@read_get entities "query" q Hq).
  destruct (truthy q); [reflexivity | discriminate].
Qed.

Lemma websiteSearch_returns doc data v :
  snd (websiteSearch doc data) = inl v ->
  truthy (get (get data "entities") "query") = true.
Proof.
  unfold websiteSearch.
  destruct (read data "entities") as [entities | e] eqn:He; [|discriminate].
  cbn [t_lift t_bind].
  destruct (read entities "query") as [q | e] eqn:Hq; [|discriminate].
  rewrite (@read_get data "entities" entities He),
          (@read_get entities "query" q Hq).
  destruct (truthy q); [reflexivity | discriminate].
Qed.

Section Extension.

Variable E : Env.
Variables here there : document.
Variables innerText_here innerText_there : string.
Variable B : browser.

(** Every message the browser delivers is answered by the content script
    of the tab, or not delivered at all. *)
Definition wired : Prop :=
  forall tabId payload,
    deliver B tabId payload = answered E there innerText_there payload \/
    exists m, deliver B tabId payload = LastError m.

Lemma answered_reply type data :
  answered E there innerText_there (command type data) =
  Delivered
    (reply_for
       (snd (Content.run_command innerText_there
               (fun data => snd (googleSearch E data))
               (fun data => snd (websiteSearch there data))
               (fun data => snd (formFill there data))
               (fun data => snd (bookTicket there data))
               (command type data)))).
Proof.
  unfold answered, content. now rewrite content_listener_replies_once.
Qed.

Lemma failed_success err : get (failed err) "success" = VBool false.
Proof. reflexivity. Qed.

(** What [sendToContent] resolves with for a command of the given type,
    when the tab is wired to the content script: a failure of the relay,
    or the content script's reply to the command. *)
Lemma relayed type data :
  wired ->
  (exists err, snd (sendToContent B (command type data)) = inl (failed err))
  \/ snd (sendToContent B (command type data)) =
     inl (reply_for
            (snd (Content.run_command innerText_there
                    (fun data => snd (googleSearch E data))
                    (fun data => snd (websiteSearch there data))
                    (fun data => snd (formFill there data))
                    (fun data => snd (bookTicket there data))
                    (command type data)))).
Proof.
  intros Hw.
  destruct (@sendToContent_cases B (command type data))
    as (trace & result & Hs & [(t & _ & _ & Hd & _ & _) | (err & ->)] & _);
    rewrite Hs; cbn [snd].
  - destruct (Hw (tab_id t) (command type data)) as [Ha | (m & Hm)].
    + rewrite Ha, answered_reply in Hd. injection Hd as <-. now right.
    + rewrite Hm in Hd. discriminate.
  - left. now exists err.
Qed.

(** X19: the router answers the commands it relays, [SEARCH], [WEBSITE_SEARCH]
    and [NAVIGATION], with exactly one reply, which says [success: true]
    whatever became of the command; what became of it is the [success] of
    the reply inside.  For [NAVIGATION] that is always [false]: the content
    script has no such command.  For the two searches it is [true] only if
    the command carried a query. *)
Theorem relayed_command_reply :
  forall message cmd,
    Router.command_of message = ([], inl cmd) ->
    In cmd ["SEARCH"; "WEBSITE_SEARCH"; "NAVIGATION"] ->
    wired ->
    exists inner,
      router here innerText_here B message =
        ([reply_ok inner], inl (VBool true)) /\
      (cmd = "NAVIGATION" -> get inner "success" = VBool false) /\
      (get inner "success" = VBool true ->
       truthy (get (get (get (get message "data") "data") "entities") "query")
       = true).
Proof.
  intros message cmd Hc Hin Hw. unfold router.
  rewrite (@router_listener_replies_once innerText_here _ _ _ _ _ message cmd Hc).
  unfold Router.run_command. rewrite Hc. cbn [io_bind].
  set (data := get (get message "data") "data").
  cbn [In] in Hin. destruct Hin as [<- | [<- | [<- | []]]];
    cbn [String.eqb Ascii.eqb Bool.eqb settled snd reply_for].
  - unfold handleGoogleSearch.
    destruct (@relayed "SEARCH" data Hw) as [(err & ->) | ->]; cbn [reply_for].
    + eexists. split; [reflexivity|]. split; [discriminate|].
      rewrite failed_success. discriminate.
    + eexists. split; [reflexivity|]. split; [discriminate|].
      unfold Content.run_command, command.
      cbn [read get lookup String.eqb Ascii.eqb Bool.eqb settled io_bind snd].
      destruct (snd (googleSearch E data)) as [v | e] eqn:Hg;
        cbn [reply_for]; [|discriminate].
      intros _. exact (@googleSearch_returns E data v Hg).
  - unfold handleWebsiteSearch.
    destruct (@relayed "WEBSITE_SEARCH" data Hw) as [(err & ->) | ->];
      cbn [reply_for].
    + eexists. split; [reflexivity|]. split; [discriminate|].
      rewrite failed_success. discriminate.
    + eexists. split; [reflexivity|]. split; [discriminate|].
      unfold Content.run_command, command.
      cbn [read get lookup String.eqb Ascii.eqb Bool.eqb settled io_bind snd].
      destruct (snd (websiteSearch there data)) as [v | e] eqn:Hg;
        cbn [reply_for]; [|discriminate].
      intros _. exact (@websiteSearch_returns there data v Hg).
  - unfold handleNavigation.
    destruct (@relayed "NAVIGATION" data Hw) as [(err & ->) | ->];
      cbn [reply_for].
    + eexists. split; [reflexivity|]. split; [reflexivity|].
      rewrite failed_success. discriminate.
    + eexists. split; [reflexivity|]. split; [reflexivity|]. discriminate.
Qed.

End Extension.

(** A browser with one active tab, which runs the content script on a page
    with an email field. *)
Definition browser0 : browser := {|
  active_tabs := inl [ {| tab_id := VNum 1; tab_url := Some "https://example.org" |} ];
  all_tabs := inl [];
  new_tab := None;
  inject := fun _ => None;
  deliver := fun _ payload => answered host0 page0 "" payload
|}.

Lemma sendToContent_resolves_witness :
  sendToContent browser0
    (command "SEARCH" (VObj [("entities", VObj [("query", VStr "cats")])])) =
  ([QueryActive; ExecuteScript (VNum 1); Pause 600;
    SendMessage (VNum 1)
      (command "SEARCH" (VObj [("entities", VObj [("query", VStr "cats")])]))],
   inl (VObj [("success", VBool true);
              ("data", message_of "Redirecting to Google")])).
Proof.
  destruct (sendToContent_resolves browser0
              (command "SEARCH" (VObj [("entities", VObj [("query", VStr "cats")])])))
    as (trace & result & Hs & Hok & _).
  destruct (Hok {| tab_id := VNum 1; tab_url := Some "https://example.org" |}
                (VObj [("success", VBool true);
                       ("data", message_of "Redirecting to Google")])
                eq_refl eq_refl eq_refl eq_refl) as [Hr _].
  rewrite Hs, Hr. f_equal. revert Hs. vm_compute. now intros [= <- _].
Defined.

Lemma relayed_command_reply_witness :
  exists inner,
    router page0 "" browser0
      (VObj [("data",
              VObj [("data", VObj [("intent", VStr "navigation");
                                   ("entities", VObj [])])])]) =
    ([reply_ok inner], inl (VBool true)) /\
    get inner "success" = VBool false.
Proof.
  destruct (@relayed_command_reply host0 page0 page0 "" "" browser0
              (VObj [("data",
                      VObj [("data", VObj [("intent", VStr "navigation");
                                           ("entities", VObj [])])])])
              "NAVIGATION")
    as (inner & Hr & Hn & _).
  - reflexivity.
  - cbn [In]. auto.
  - intros tabId payload. left. reflexivity.
  - exists inner. split; [exact Hr | now apply Hn].
Defined.

End RelayFacts.
Import RelayFacts.

(* ------------------------------------------------------------------ *)
(** ** The voice engine *)

Module VoiceEngineFacts.

Import VoiceEngine.
Local Open Scope engine_scope.

Definition state_of {A : Type} (r : engine * list effect * A) : engine :=
  fst (fst r).

Definition trace_of {A : Type} (r : engine * list effect * A) : list effect :=
  snd (fst r).

(** An effect that makes the engine listen again, now or later. *)
Definition restarts (e : effect) : bool :=
  match e with
  | RecStart | SetTimeout _ _ => true
  | _ => false
  end.

Definition is_start (st : step) : bool :=
  match st with
  | Called _ Start => true
  | _ => false
  end.

Lemma notify_quiet (f : effect -> bool) ch data (l : list nat) :
  (forall callback, f (Notify ch callback data) = false) ->
  existsb f (map (fun callback => Notify ch callback data) l) = false.
Proof.
  intros H. induction l as [|x l IH]; cbn; [reflexivity|]. now rewrite H, IH.
Qed.

Ltac traces :=
  repeat first [ progress cbn [existsb restarts orb]
               | rewrite existsb_app
               | rewrite notify_quiet by (intros; reflexivity) ];
  try reflexivity.

Lemma emit_results_quiet h l :
  forall n s,
    state_of (emit_results h n l s) = s /\
    existsb restarts (trace_of (emit_results h n l s)) = false.
Proof.
  induction l as [|r l IH]; intros n s; [split; reflexivity|].
  cbn [emit_results]. destruct (alternatives r) as [|a ?]; [split; reflexivity|].
  unfold bind, emitTranscript, notify.
  destruct (IH (S n) s) as [Hs Ht]. unfold state_of, trace_of in *.
  destruct (emit_results h (S n) l s) as [[s' out] res]. cbn [fst snd] in *.
  subst s'. split; [reflexivity|]. traces. exact Ht.
Qed.

Lemma occurred_quiet h o s :
  shouldAutoRestart s = false ->
  shouldAutoRestart (state_of (occurred h o s)) = false /\
  existsb restarts (trace_of (occurred h o s)) = false.
Proof.
  destruct s as [rec init lis auto rt cbs cfg tm iss]. cbn [shouldAutoRestart].
  intros ->. unfold occurred, state_of, trace_of.
  destruct o as [| event | errorType | | id].
  - destruct rec; [|split; reflexivity].
    destruct rt; cbn; split; try reflexivity; traces.
  - cbn [bind get_state recognition]. destruct rec; [|split; reflexivity].
    unfold handleResult.
    destruct (emit_results_quiet h (skipn (resultIndex event) (results event)) 0
                (Engine true init lis false rt cbs cfg tm iss)) as [Hs Ht].
    unfold state_of, trace_of in *.
    destruct (emit_results h 0 _ _) as [[s' out] res]. cbn [fst snd] in *.
    subst s'. split; [reflexivity | exact Ht].
  - destruct rec; [|split; reflexivity].
    unfold handleError. generalize (errorInfo_of errorType). intros info.
    destruct (truthy (get info "fatal")); cbn; split; try reflexivity; traces.
  - destruct rec; [|split; reflexivity].
    cbn; split; try reflexivity; traces.
  - cbn [bind get_state timers]. destruct (existsb (Nat.eqb id) tm);
      [|split; reflexivity].
    cbn. split; reflexivity.
Qed.

Ltac engine_run :=
  cbv beta iota zeta delta
      [called occurred forget configure destroy stop abort start initialize
       restart scheduleRestart handleStart handleEnd handleError
       clearRestartTimeout recognition_call subscribe unsubscribe
       emitError emitEnd emitStateChange emitTranscript notify
       set_recognition set_isInitialized set_isListening set_shouldAutoRestart
       set_callbacks set_config clear_timer set_timer fired
       try_catch bind ret throw get_state put emit
       state_of trace_of fst snd
       recognition isInitialized isListening shouldAutoRestart restartTimeout
       callbacks config timers issued
       SpeechRecognition start_throws stop_throws abort_throws
       negb andb orb];
  cbn [app].

Ltac engine_cases :=
  repeat (match goal with
          | |- context [match ?x with _ => _ end] =>
              match type of x with
              | bool => destruct x eqn:?
              | option _ => destruct x eqn:?
              | support => destruct x eqn:?
              | argument => destruct x eqn:?
              end
          end; engine_run).

(** The two shapes of [configure]: the options are [null], or they are
    read into the configuration. *)
Definition configure_null (h : host) : M bool :=
  s <- get_state ;;
  (if isListening s then stop h else ret false) ;;
  throw {| thrown_name := "TypeError";
           thrown_message :=
             "Cannot read properties of null (reading 'language')" |}.

Definition configure_with (h : host) (update : settings -> settings) : M bool :=
  s <- get_state ;;
  let wasListening := isListening s in
  (if wasListening then stop h else ret false) ;;
  s <- get_state ;;
  set_config (update (config s)) ;;
  s <- get_state ;;
  (if isInitialized s && recognition s then emit (Configure (config s))
   else ret tt) ;;
  (if wasListening then start h else ret false) ;;
  ret true.

Lemma configure_shape h options s :
  configure h options s = configure_null h s \/
  exists update, configure h options s = configure_with h update s.
Proof.
  destruct options; try (left; reflexivity);
    right; eexists; unfold configure, configure_with; reflexivity.
Qed.

Ltac reconfigure h options s :=
  cbv beta iota zeta delta [perform_step called forget bind];
  let u := fresh "update" in
  let Hr := fresh "Hr" in
  destruct (configure_shape h options s) as [Hr | (u & Hr)];
  rewrite Hr; clear Hr; unfold configure_null, configure_with.

(** [configure] never leaves auto-restart on when it was off, whatever the
    options, and never calls [recognition.start()]. *)
Lemma configure_quiet h options s :
  (shouldAutoRestart s = false \/ isListening s = true /\ isInitialized s = true /\ recognition s = true) ->
  shouldAutoRestart (state_of (configure h options s)) = false /\
  existsb restarts (trace_of (configure h options s)) = false.
Proof.
  destruct s as [rec init lis auto rt cbs cfg tm iss].
  destruct h as [sup st sp ab clock].
  cbn [shouldAutoRestart isListening isInitialized recognition].
  intros H.
  assert (Hc : auto = false \/ (lis = true /\ init = true /\ rec = true)) by exact H.
  clear H.
  destruct Hc as [-> | (-> & -> & ->)].
  - reconfigure (Build_host sup st sp ab clock) options
                (Engine rec init lis false rt cbs cfg tm iss);
      destruct lis, init, rec; engine_run; engine_cases;
      (split; [reflexivity | traces]).
  - reconfigure (Build_host sup st sp ab clock) options
                (Engine true true true auto rt cbs cfg tm iss);
      engine_run; engine_cases; (split; [reflexivity | traces]).
Qed.

Lemma called_quiet h c s :
  c <> Start ->
  shouldAutoRestart s = false ->
  shouldAutoRestart (state_of (called h c s)) = false /\
  existsb restarts (trace_of (called h c s)) = false.
Proof.
  intros Hc Ha. destruct c as [| | | options | | ch callback | ch callback];
    try contradiction.
  - destruct s as [rec init lis auto rt cbs cfg tm iss].
    destruct h as [sup st sp ab clock]. cbn in Ha. subst auto.
    unfold called, forget, stop, state_of, trace_of.
    destruct init, rec, lis; engine_run; engine_cases; (split; [reflexivity | traces]).
  - destruct s as [rec init lis auto rt cbs cfg tm iss].
    destruct h as [sup st sp ab clock]. cbn in Ha. subst auto.
    unfold called, forget, abort, state_of, trace_of.
    destruct init, rec, lis; engine_run; engine_cases; (split; [reflexivity | traces]).
  - unfold called, forget, bind.
    destruct (@configure_quiet h options s (or_introl Ha)) as [H1 H2].
    unfold state_of, trace_of in *.
    destruct (configure h options s) as [[s' out] [b|e]]; cbn [fst snd] in *.
    + cbn. rewrite app_nil_r. auto.
    + auto.
  - destruct s as [rec init lis auto rt cbs cfg tm iss].
    destruct h as [sup st sp ab clock]. cbn in Ha. subst auto.
    unfold called, destroy, stop, state_of, trace_of.
    destruct init, rec, lis; engine_run; engine_cases; (split; [reflexivity | traces]).
  - destruct s as [rec init lis auto rt cbs cfg tm iss]. cbn in Ha. subst auto.
    destruct callback; cbn; split; reflexivity.
  - destruct s as [rec init lis auto rt cbs cfg tm iss]. cbn in Ha. subst auto.
    cbn. split; reflexivity.
Qed.

Lemma step_quiet st s :
  is_start st = false ->
  shouldAutoRestart s = false ->
  shouldAutoRestart (state_of (perform_step st s)) = false /\
  existsb restarts (trace_of (perform_step st s)) = false.
Proof.
  destruct st as [h c | h o]; cbn [perform_step]; intros Hs Ha.
  - apply called_quiet; [|exact Ha]. intros ->. discriminate.
  - now apply occurred_quiet.
Qed.

Lemma run_quiet steps :
  forall s,
    existsb is_start steps = false ->
    shouldAutoRestart s = false ->
    shouldAutoRestart (fst (run_steps steps s)) = false /\
    existsb restarts (snd (run_steps steps s)) = false.
Proof.
  induction steps as [|st steps IH]; intros s Hn Ha; [auto|].
  cbn [existsb] in Hn. apply orb_false_iff in Hn. destruct Hn as [H1 H2].
  destruct (@step_quiet st s H1 Ha) as [Hs Ht]. unfold state_of, trace_of in *.
  cbn [run_steps]. destruct (perform_step st s) as [[s' out] r]. cbn [fst snd] in *.
  destruct (IH s' H2 Hs) as [Hs' Ht'].
  destruct (run_steps steps s') as [s'' out']. cbn [fst snd] in *.
  split; [exact Hs'|]. now rewrite existsb_app, Ht, Ht'.
Qed.

(** X20: once auto-restart is off, nothing but a call of [start] makes the
    engine listen again: whatever the browser reports and whatever else is
    called, [configure] included, [recognition.start()] is not called, no
    restart is scheduled, and auto-restart stays off. *)
Theorem only_start_restarts :
  forall steps s,
    existsb is_start steps = false ->
    shouldAutoRestart s = false ->
    shouldAutoRestart (fst (run_steps steps s)) = false /\
    existsb restarts (snd (run_steps steps s)) = false.
Proof. exact run_quiet. Qed.

(** *** What holds of the engine at all times *)

Definition inv (s : engine) : Prop :=
  isInitialized s = recognition s /\
  (isListening s = true -> isInitialized s = true) /\
  (timers s = [] \/
   exists id, timers s = [id] /\ restartTimeout s = Some id /\
              isInitialized s = true) /\
  forall ch, NoDup (subscribers ch (callbacks s)).

Lemma remove_self (id : nat) : List.remove Nat.eq_dec id [id] = [].
Proof. cbn. destruct (Nat.eq_dec id id); [reflexivity | contradiction]. Qed.

Lemma remove_nil (id : nat) : List.remove Nat.eq_dec id [] = [].
Proof. reflexivity. Qed.

Lemma NoDup_add (callback : nat) (l : list nat) : NoDup l -> NoDup (add callback l).
Proof.
  intros H. unfold add. destruct (existsb (Nat.eqb callback) l) eqn:He; [exact H|].
  apply NoDup_app; [exact H | repeat constructor; intros [] |].
  intros x Hx [Heq | []]. subst x.
  assert (existsb (Nat.eqb callback) l = true); [|congruence].
  apply existsb_exists. exists callback. split; [exact Hx | apply Nat.eqb_refl].
Qed.

Lemma NoDup_remove_all (callback : nat) (l : list nat) :
  NoDup l -> NoDup (List.remove Nat.eq_dec callback l).
Proof.
  induction 1 as [|x l Hx Hl IH]; cbn; [constructor|].
  destruct (Nat.eq_dec callback x); [exact IH|].
  constructor; [|exact IH]. intros Hin. apply in_remove in Hin. tauto.
Qed.

Lemma subscribers_with ch ch' l r :
  subscribers ch (with_subscribers ch' l r) =
  if match ch, ch' with
     | Transcript, Transcript | Error, Error | End, End
     | StateChange, StateChange => true
     | _, _ => false
     end
  then l else subscribers ch r.
Proof. destruct ch, ch'; reflexivity. Qed.

Ltac inv_open H :=
  let Hi := fresh "Hi" in
  let Hl := fresh "Hl" in
  let Ht := fresh "Ht" in
  let Hc := fresh "Hc" in
  destruct H as (Hi & Hl & Ht & Hc);
  cbn [isInitialized recognition isListening timers restartTimeout callbacks] in Hi, Hl, Ht, Hc.

Ltac inv_close :=
  unfold inv;
  cbn [isInitialized recognition isListening timers restartTimeout callbacks];
  rewrite ?remove_self, ?remove_nil;
  repeat split;
    try reflexivity; try assumption; try (intros; discriminate);
    try (left; reflexivity);
    try (right; eexists; repeat split; first [reflexivity | assumption]).

Lemma emit_results_state h l n s : state_of (emit_results h n l s) = s.
Proof. apply emit_results_quiet. Qed.

Lemma inv_occurred h o s : inv s -> inv (state_of (occurred h o s)).
Proof.
  destruct s as [rec init lis auto rt cbs cfg tm iss].
  destruct h as [sup st sp ab clock]. intros H. inv_open H. subst init.
  destruct o as [| event | errorType | | id].
  - destruct rec; [|engine_run; inv_close; auto].
    destruct Ht as [-> | (id & -> & -> & _)]; engine_run; engine_cases;
      inv_close.
  - destruct rec; [|engine_run; inv_close; auto].
    cbv beta iota zeta delta [occurred bind get_state recognition].
    unfold handleResult.
    assert (Hs := @emit_results_state
                    {| SpeechRecognition := sup; start_throws := st;
                       stop_throws := sp; abort_throws := ab; now := clock |}
                    (skipn (resultIndex event) (results event)) 0
                    (Engine true true lis auto rt cbs cfg tm iss)).
    unfold state_of in *.
    destruct (emit_results _ 0 _ _) as [[s' out] res]. cbn [fst snd] in *.
    subst s'. inv_close; auto.
  - destruct rec; [|engine_run; inv_close; auto].
    unfold occurred, handleError. generalize (errorInfo_of errorType). intros info.
    engine_run. destruct (truthy (get info "fatal")); engine_run; inv_close; auto.
  - destruct rec; [|engine_run; inv_close; auto].
    destruct Ht as [-> | (id & -> & -> & _)]; destruct auto; engine_run;
      engine_cases; inv_close.
  - destruct Ht as [-> | (id' & -> & -> & Hinit)].
    + engine_run. inv_close.
    + cbv beta iota zeta delta [occurred bind get_state timers].
      cbn [existsb]. destruct (Nat.eqb_spec id id') as [-> | Hne].
      * cbn [orb]. destruct rec; [|discriminate].
        engine_run. rewrite remove_self. engine_cases; inv_close.
      * cbn [orb]. engine_run. inv_close.
Qed.

Lemma inv_called h c s : inv s -> inv (state_of (called h c s)).
Proof.
  destruct s as [rec init lis auto rt cbs cfg tm iss].
  destruct h as [sup st sp ab clock]. intros H. inv_open H. subst init.
  destruct c as [| | | options | | ch callback | ch callback].
  - destruct rec, lis;
      try (specialize (Hl eq_refl); discriminate);
      (destruct Ht as [-> | (id & -> & -> & Hin)]; [|try discriminate Hin]);
      engine_run; engine_cases; inv_close.
  - destruct rec, lis;
      try (specialize (Hl eq_refl); discriminate);
      (destruct Ht as [-> | (id & -> & -> & Hin)]; [|try discriminate Hin]);
      engine_run; engine_cases; inv_close.
  - destruct rec, lis;
      try (specialize (Hl eq_refl); discriminate);
      (destruct Ht as [-> | (id & -> & -> & Hin)]; [|try discriminate Hin]);
      engine_run; engine_cases; inv_close.
  - destruct rec, lis;
      try (specialize (Hl eq_refl); discriminate);
      (destruct Ht as [-> | (id & -> & -> & Hin)]; [|try discriminate Hin]);
      match goal with
      | |- inv (state_of (called ?h _ ?s)) => reconfigure h options s
      end; engine_run; engine_cases; inv_close.
  - destruct rec, lis;
      try (specialize (Hl eq_refl); discriminate);
      (destruct Ht as [-> | (id & -> & -> & Hin)]; [|try discriminate Hin]);
      engine_run; engine_cases; inv_close;
      intros ch; destruct ch; constructor.
  - destruct callback as [callback | v]; engine_run.
    + unfold inv.
      cbn [isInitialized recognition isListening timers restartTimeout callbacks].
      split; [reflexivity|]. split; [exact Hl|]. split; [exact Ht|].
      intros ch'. rewrite subscribers_with.
      destruct ch', ch; try apply Hc; apply NoDup_add, Hc.
    + unfold inv.
      cbn [isInitialized recognition isListening timers restartTimeout callbacks].
      auto.
  - engine_run. unfold inv.
    cbn [isInitialized recognition isListening timers restartTimeout callbacks].
    split; [reflexivity|]. split; [exact Hl|]. split; [exact Ht|].
    intros ch'. rewrite subscribers_with.
    destruct ch', ch; try apply Hc; apply NoDup_remove_all, Hc.
Qed.

Lemma inv_step st s : inv s -> inv (state_of (perform_step st s)).
Proof.
  destruct st as [h c | h o]; cbn [perform_step];
    [apply inv_called | apply inv_occurred].
Qed.

Lemma inv_initial : inv initial.
Proof.
  unfold inv, initial. cbn. repeat split; auto.
  intros ch; destruct ch; constructor.
Qed.



(** *** Stopping *)

Lemma called_stops h c s :
  isInitialized s = true -> recognition s = true ->
  c = Stop \/ c = Abort \/ c = Destroy ->
  shouldAutoRestart (state_of (called h c s)) = false /\
  existsb restarts (trace_of (called h c s)) = false /\
  (inv s -> timers (state_of (called h c s)) = []).
Proof.
  destruct s as [rec init lis auto rt cbs cfg tm iss].
  destruct h as [sup st sp ab clock].
  cbn [isInitialized recognition]. intros -> -> Hc.
  assert (Ht : inv (Engine true true lis auto rt cbs cfg tm iss) ->
               tm = [] \/ exists id, tm = [id] /\ rt = Some id).
  { intros (_ & _ & [H | (id & H1 & H2 & _)] & _); cbn in *; eauto. }
  destruct Hc as [-> | [-> | ->]]; destruct lis; engine_run; engine_cases;
    (split; [reflexivity | split; [traces|]]);
    intros Hi; destruct (Ht Hi) as [-> | (id & -> & Hr)];
    try reflexivity; try discriminate;
    injection Hr as <-; apply remove_self.
Qed.

(** X22: [stop], [abort] and [destroy] end the listening for good.  On an
    initialized engine each of them turns auto-restart off and cancels the
    pending restart, and from then on, whatever the browser reports and
    whatever is called short of [start], [recognition.start()] is not
    called and no restart is scheduled. *)
Theorem stop_ends_listening :
  forall h c steps s,
    inv s ->
    isInitialized s = true ->
    c = Stop \/ c = Abort \/ c = Destroy ->
    existsb is_start steps = false ->
    timers (state_of (called h c s)) = [] /\
    shouldAutoRestart (fst (run_steps (Called h c :: steps) s)) = false /\
    existsb restarts (snd (run_steps (Called h c :: steps) s)) = false.
Proof.
  intros h c steps s Hi Hinit Hc Hn.
  assert (Hrec : recognition s = true) by (destruct Hi as (<- & _); exact Hinit).
  destruct (@called_stops h c s Hinit Hrec Hc) as (Ha & Ht & Htm).
  split; [exact (Htm Hi)|].
  cbn [run_steps perform_step]. unfold state_of, trace_of in *.
  destruct (called h c s) as [[s' out] r]. cbn [fst snd] in *.
  destruct (@run_quiet steps s' Hn Ha) as [Hs' Ht'].
  destruct (run_steps steps s') as [s'' out']. cbn [fst snd] in *.
  split; [exact Hs'|]. now rewrite existsb_app, Ht, Ht'.
Qed.

(** *** Errors *)

Definition fatal_errors : list string :=
  ["audio-capture"; "not-allowed"; "service-not-allowed"].

Lemma errorInfo_fatal errorType :
  truthy (get (errorInfo_of errorType) "fatal") =
  existsb (String.eqb errorType) fatal_errors.
Proof.
  unfold errorInfo_of, fatal_errors. cbn [existsb].
  destruct (String.eqb_spec errorType "no-speech") as [->|_]; [reflexivity|].
  destruct (String.eqb errorType "audio-capture"); [reflexivity|].
  destruct (String.eqb errorType "not-allowed"); [reflexivity|].
  destruct (String.eqb_spec errorType "network") as [->|_]; [reflexivity|].
  destruct (String.eqb_spec errorType "aborted") as [->|_]; [reflexivity|].
  destruct (String.eqb errorType "service-not-allowed"); [reflexivity|].
  destruct (existsb (String.eqb errorType) inherited); reflexivity.
Qed.

Lemma failed_state h errorType s :
  recognition s = true ->
  shouldAutoRestart (state_of (occurred h (Failed errorType) s)) =
  (if existsb (String.eqb errorType) fatal_errors then false
   else shouldAutoRestart s) /\
  isListening (state_of (occurred h (Failed errorType) s)) = false /\
  existsb restarts (trace_of (occurred h (Failed errorType) s)) = false.
Proof.
  destruct s as [rec init lis auto rt cbs cfg tm iss]. cbn [recognition].
  intros ->. rewrite <- errorInfo_fatal.
  unfold occurred, handleError. generalize (errorInfo_of errorType). intros info.
  engine_run. destruct (truthy (get info "fatal")); engine_run;
    (split; [reflexivity | split; [reflexivity | traces]]).
Qed.

(** X23: the errors [audio-capture], [not-allowed] and [service-not-allowed]
    end the listening: once one of them is reported, nothing short of a
    call of [start] makes the engine call [recognition.start()] or schedule
    a restart.  Every other error leaves auto-restart as it was, the errors
    the engine does not know included, although it reports them as not
    recoverable. *)
Theorem fatal_error_ends_restarts :
  forall h errorType s,
    recognition s = true ->
    (In errorType fatal_errors ->
     forall steps,
       existsb is_start steps = false ->
       existsb restarts
         (snd (run_steps (Occurred h (Failed errorType) :: steps) s)) = false)
    /\
    (~ In errorType fatal_errors ->
     shouldAutoRestart (state_of (occurred h (Failed errorType) s)) =
     shouldAutoRestart s /\
     (existsb (String.eqb errorType)
        ["no-speech"; "network"; "aborted"] = false ->
      existsb (String.eqb errorType) inherited = false ->
      errorInfo_of errorType =
      error_info "unknown" ("Unknown error: " ++ errorType) false false)).
Proof.
  intros h errorType s Hrec.
  destruct (@failed_state h errorType s Hrec) as (Ha & _ & Ht).
  split.
  - intros Hin steps Hn.
    assert (Hf : existsb (String.eqb errorType) fatal_errors = true).
    { apply existsb_exists. exists errorType. split; [exact Hin|].
      apply String.eqb_refl. }
    rewrite Hf in Ha.
    cbn [run_steps perform_step]. unfold state_of, trace_of in *.
    destruct (occurred h (Failed errorType) s) as [[s' out] r]. cbn [fst snd] in *.
    destruct (@run_quiet steps s' Hn Ha) as [_ Ht'].
    destruct (run_steps steps s') as [s'' out']. cbn [fst snd] in *.
    now rewrite existsb_app, Ht, Ht'.
  - intros Hn.
    assert (Hf : existsb (String.eqb errorType) fatal_errors = false).
    { destruct (existsb (String.eqb errorType) fatal_errors) eqn:He; [|reflexivity].
      apply existsb_exists in He. destruct He as (x & Hx & Heq).
      apply String.eqb_eq in Heq. subst x. contradiction. }
    rewrite Hf in Ha. split; [exact Ha|].
    intros Hk Hinh. unfold errorInfo_of. revert Hf Hk. unfold fatal_errors.
    cbn [existsb]. intros Hf Hk.
    apply orb_false_iff in Hf. destruct Hf as [H1 Hf].
    apply orb_false_iff in Hf. destruct Hf as [H2 Hf].
    apply orb_false_iff in Hf. destruct Hf as [H3 _].
    apply orb_false_iff in Hk. destruct Hk as [H4 Hk].
    apply orb_false_iff in Hk. destruct Hk as [H5 Hk].
    apply orb_false_iff in Hk. destruct Hk as [H6 _].
    now rewrite H1, H2, H3, H4, H5, H6, Hinh.
Qed.

(** *** Configuration *)

Lemma configure_stops h options s :
  isListening s = true -> isInitialized s = true -> recognition s = true ->
  In RecStop (trace_of (configure h options s)) /\
  isListening (state_of (configure h options s)) = true.
Proof.
  destruct s as [rec init lis auto rt cbs cfg tm iss].
  destruct h as [sup st sp ab clock].
  cbn [isListening isInitialized recognition]. intros -> -> ->.
  reconfigure (Build_host sup st sp ab clock) options
              (Engine true true true auto rt cbs cfg tm iss);
    engine_run; engine_cases;
    (split; [rewrite ?in_app_iff; cbn [In]; auto 10 | reflexivity]).
Qed.

(** X24: [configure] does not restart a listening engine.  It calls
    [recognition.stop()], which leaves [isListening] set until the browser
    reports the end, so that the call of [start] that follows returns at
    once; auto-restart is left off, and from then on nothing short of
    another call of [start] makes the engine listen again. *)
Theorem configure_stops_listening_engine :
  forall h options steps s,
    isListening s = true ->
    isInitialized s = true ->
    recognition s = true ->
    existsb is_start steps = false ->
    In RecStop (trace_of (configure h options s)) /\
    existsb restarts
      (snd (run_steps (Called h (Reconfigure options) :: steps) s)) = false /\
    shouldAutoRestart
      (fst (run_steps (Called h (Reconfigure options) :: steps) s)) = false.
Proof.
  intros h options steps s Hl Hi Hr Hn.
  destruct (@configure_stops h options s Hl Hi Hr) as [Hs _].
  split; [exact Hs|].
  destruct (@configure_quiet h options s (or_intror (conj Hl (conj Hi Hr))))
    as [Ha Ht].
  cbn [run_steps perform_step called]. unfold forget, bind, state_of, trace_of in *.
  destruct (configure h options s) as [[s' out] [b|e]]; cbn [fst snd ret] in *.
  - destruct (@run_quiet steps s' Hn Ha) as [Hs' Ht'].
    destruct (run_steps steps s') as [s'' out']. cbn [fst snd] in *.
    split; [|exact Hs']. now rewrite !existsb_app, Ht, Ht'.
  - destruct (@run_quiet steps s' Hn Ha) as [Hs' Ht'].
    destruct (run_steps steps s') as [s'' out']. cbn [fst snd] in *.
    split; [|exact Hs']. now rewrite !existsb_app, Ht, Ht'.
Qed.

(** *** Restarts and what they answer *)

Definition is_rec_start (e : effect) : bool :=
  match e with RecStart => true | _ => false end.

(** The calls of [recognition.start()] in a trace. *)
Definition starts (out : list effect) : nat :=
  List.length (filter is_rec_start out).

(** The steps that can lead to one: a call of [start], an end event. *)
Definition asks (st : step) : nat :=
  match st with
  | Called _ Start | Occurred _ Ended => 1
  | _ => 0
  end.

Lemma starts_app (a b : list effect) : starts (a ++ b) = starts a + starts b.
Proof. unfold starts. now rewrite filter_app, List.length_app. Qed.

Lemma starts_notify ch data (l : list nat) :
  starts (map (fun callback => Notify ch callback data) l) = 0.
Proof. induction l as [|x l IH]; [reflexivity | exact IH]. Qed.

Lemma starts_quiet (out : list effect) :
  existsb restarts out = false -> starts out = 0.
Proof.
  induction out as [|e out IH]; [reflexivity|]. cbn [existsb].
  intros H. apply orb_false_iff in H. destruct H as [He Ho].
  unfold starts in *. cbn [filter].
  destruct e; try discriminate He; cbn [is_rec_start]; auto.
Qed.

Lemma starts_cons e out :
  starts (e :: out) = (if is_rec_start e then 1 else 0) + starts out.
Proof. unfold starts. cbn [filter]. destruct (is_rec_start e); reflexivity. Qed.

Ltac counting :=
  repeat first [ rewrite starts_cons
               | rewrite starts_app
               | rewrite starts_notify
               | rewrite remove_self
               | rewrite remove_nil ];
  cbn [is_rec_start starts filter List.length]; try lia.

Lemma step_starts st s :
  inv s ->
  starts (trace_of (perform_step st s)) +
  List.length (timers (state_of (perform_step st s))) <=
  asks st + List.length (timers s).
Proof.
  destruct s as [rec init lis auto rt cbs cfg tm iss]. intros H. inv_open H.
  subst init.
  destruct st as [h c | h o]; destruct h as [sup st sp ab clock];
    cbn [perform_step asks].
  - destruct c as [| | | options | | ch callback | ch callback].
    + destruct rec, lis; try (specialize (Hl eq_refl); discriminate);
        (destruct Ht as [-> | (id & -> & -> & Hin)]; [|try discriminate Hin]);
        engine_run; engine_cases; counting.
    + destruct rec, lis; try (specialize (Hl eq_refl); discriminate);
        (destruct Ht as [-> | (id & -> & -> & Hin)]; [|try discriminate Hin]);
        engine_run; engine_cases; counting.
    + destruct rec, lis; try (specialize (Hl eq_refl); discriminate);
        (destruct Ht as [-> | (id & -> & -> & Hin)]; [|try discriminate Hin]);
        engine_run; engine_cases; counting.
    + destruct rec, lis; try (specialize (Hl eq_refl); discriminate);
        (destruct Ht as [-> | (id & -> & -> & Hin)]; [|try discriminate Hin]);
        match goal with
        | |- context [called ?h _ ?s] => reconfigure h options s
        end; engine_run; engine_cases; counting.
    + destruct rec, lis; try (specialize (Hl eq_refl); discriminate);
        (destruct Ht as [-> | (id & -> & -> & Hin)]; [|try discriminate Hin]);
        engine_run; engine_cases; counting.
    + destruct callback; engine_run; counting.
    + engine_run; counting.
  - destruct o as [| event | errorType | | id].
    + destruct rec; [|engine_run; counting].
      destruct Ht as [-> | (id & -> & -> & _)]; engine_run; engine_cases;
        counting.
    + destruct rec; [|engine_run; counting].
      cbv beta iota zeta delta [occurred bind get_state recognition].
      unfold handleResult.
      destruct (emit_results_quiet
                  {| SpeechRecognition := sup; start_throws := st;
                     stop_throws := sp; abort_throws := ab; now := clock |}
                  (skipn (resultIndex event) (results event)) 0
                  (Engine true true lis auto rt cbs cfg tm iss)) as [Hs Hq'].
      unfold state_of, trace_of in *.
      destruct (emit_results _ 0 _ _) as [[s' out] res]. cbn [fst snd] in *.
      subst s'. cbn [app fst snd]. rewrite (starts_quiet _ Hq'). cbn [timers]. lia.
    + destruct rec; [|engine_run; counting].
      unfold occurred, handleError. generalize (errorInfo_of errorType).
      intros info. engine_run.
      destruct (truthy (get info "fatal")); engine_run; counting.
    + destruct rec; [|engine_run; counting].
      destruct Ht as [-> | (id & -> & -> & _)]; destruct auto; engine_run;
        engine_cases; counting.
    + destruct Ht as [-> | (id' & -> & -> & Hinit)].
      * cbv beta iota zeta delta [occurred bind get_state timers].
        cbn [existsb]. engine_run. counting.
      * cbv beta iota zeta delta [occurred bind get_state timers].
        cbn [existsb]. destruct (Nat.eqb_spec id id') as [-> | Hne].
        -- cbn [orb]. destruct rec; [|discriminate].
           engine_run. rewrite ?remove_self. engine_cases; counting.
        -- cbn [orb]. engine_run. counting.
Qed.

Lemma run_starts steps :
  forall s,
    inv s ->
    starts (snd (run_steps steps s)) +
    List.length (timers (fst (run_steps steps s))) <=
    list_sum (map asks steps) + List.length (timers s).
Proof.
  induction steps as [|st steps IH]; intros s H; [cbn; lia|].
  assert (H1 := @step_starts st s H). assert (H2 := @inv_step st s H).
  cbn [run_steps map list_sum]. unfold state_of, trace_of in *.
  destruct (perform_step st s) as [[s' out] r]. cbn [fst snd] in *.
  specialize (IH s' H2).
  destruct (run_steps steps s') as [s'' out']. cbn [fst snd] in *.
  rewrite starts_app.
  change (list_sum (asks st :: map asks steps))
    with (asks st + list_sum (map asks steps)).
  lia.
Qed.

(** X25: no restart loop: in any run of the engine from its first state, the
    calls of [recognition.start()] are no more than the calls of [start]
    and the end events together; a restart that is still pending counts as
    one. *)
Theorem restarts_answer_end_events :
  forall steps,
    starts (snd (run_steps steps initial)) +
    List.length (timers (fst (run_steps steps initial))) <=
    list_sum (map asks steps).
Proof.
  intros steps. assert (H := @run_starts steps initial inv_initial).
  cbn [initial timers List.length] in H. lia.
Qed.

(** *** Subscriptions *)

Definition channel_eqb (a b : channel) : bool :=
  match a, b with
  | Transcript, Transcript | Error, Error | End, End
  | StateChange, StateChange => true
  | _, _ => false
  end.

(** The effect is a call of the callback on the channel. *)
Definition notifies (ch : channel) (callback : nat) (e : effect) : bool :=
  match e with
  | Notify ch' callback' _ => channel_eqb ch ch' && Nat.eqb callback callback'
  | _ => false
  end.

(** The step registers the callback for the channel. *)
Definition resubscribes (ch : channel) (callback : nat) (st : step) : bool :=
  match st with
  | Called _ (Subscribe ch' (Function callback')) =>
      channel_eqb ch ch' && Nat.eqb callback callback'
  | _ => false
  end.

Lemma notify_silent ch callback ch' data cbs :
  ~ In callback (subscribers ch cbs) ->
  existsb (notifies ch callback)
          (map (fun c => Notify ch' c data) (subscribers ch' cbs)) = false.
Proof.
  intros Hn. destruct (channel_eqb ch ch') eqn:He.
  - assert (ch = ch') by (destruct ch, ch'; try discriminate; reflexivity).
    subst ch'. induction (subscribers ch cbs) as [|x l IH]; [reflexivity|].
    cbn [map existsb notifies]. rewrite He. cbn [andb].
    destruct (Nat.eqb_spec callback x) as [-> | _].
    + exfalso. apply Hn. now left.
    + apply IH. intros H. apply Hn. now right.
  - induction (subscribers ch' cbs) as [|x l IH]; [reflexivity|].
    cbn [map existsb notifies]. rewrite He. exact IH.
Qed.

Lemma emit_results_silent ch callback h l :
  forall n s,
    ~ In callback (subscribers ch (callbacks s)) ->
    existsb (notifies ch callback) (trace_of (emit_results h n l s)) = false.
Proof.
  induction l as [|r l IH]; intros n s Hn; [reflexivity|].
  cbn [emit_results]. destruct (alternatives r) as [|a ?]; [reflexivity|].
  unfold bind, emitTranscript, notify.
  specialize (IH (S n) s Hn). unfold trace_of in *.
  destruct (emit_results h (S n) l s) as [[s' out] res]. cbn [fst snd] in *.
  now rewrite existsb_app, (@notify_silent _ _ _ _ _ Hn), IH.
Qed.

Ltac silence Hn :=
  repeat first [ progress cbn [existsb notifies orb]
               | rewrite existsb_app
               | rewrite (@notify_silent _ _ _ _ _ Hn) ];
  try reflexivity.

Lemma not_in_remove (callback : nat) (l : list nat) :
  ~ In callback (List.remove Nat.eq_dec callback l).
Proof. apply remove_In. Qed.

Lemma not_in_add (callback x : nat) (l : list nat) :
  x <> callback -> ~ In x l -> ~ In x (add callback l).
Proof.
  intros Hne Hn. unfold add. destruct (existsb (Nat.eqb callback) l); [exact Hn|].
  rewrite in_app_iff. cbn [In]. intuition congruence.
Qed.

Lemma not_in_remove_other (callback x : nat) (l : list nat) :
  ~ In x l -> ~ In x (List.remove Nat.eq_dec callback l).
Proof. intros Hn H. apply in_remove in H. tauto. Qed.

Lemma step_silent ch callback st s :
  ~ In callback (subscribers ch (callbacks s)) ->
  resubscribes ch callback st = false ->
  ~ In callback (subscribers ch (callbacks (state_of (perform_step st s)))) /\
  existsb (notifies ch callback) (trace_of (perform_step st s)) = false.
Proof.
  destruct s as [rec init lis auto rt cbs cfg tm iss]. cbn [callbacks].
  intros Hn Hr. destruct st as [h c | h o]; destruct h as [sup st sp ab clock];
    cbn [perform_step].
  - destruct c as [| | | options | | ch' arg | ch' callback'].
    + destruct init, rec, lis; engine_run; engine_cases;
        (split; [exact Hn | silence Hn]).
    + destruct init, rec, lis; engine_run; engine_cases;
        (split; [exact Hn | silence Hn]).
    + destruct init, rec, lis; engine_run; engine_cases;
        (split; [exact Hn | silence Hn]).
    + match goal with
      | |- context [called ?h _ ?s] => reconfigure h options s
      end; destruct init, rec, lis; engine_run; engine_cases;
        (split; [exact Hn | silence Hn]).
    + destruct init, rec, lis; engine_run; engine_cases;
        (split; [destruct ch; intros [] | silence Hn]).
    + destruct arg as [callback' | v]; engine_run.
      * split; [|reflexivity]. rewrite subscribers_with.
        cbn [resubscribes] in Hr.
        destruct ch, ch'; try exact Hn; cbn [channel_eqb andb] in Hr;
          (apply not_in_add; [|exact Hn]);
          intros ->; now rewrite Nat.eqb_refl in Hr.
      * split; [exact Hn | reflexivity].
    + engine_run. split; [|reflexivity]. rewrite subscribers_with.
      destruct ch, ch'; try exact Hn; now apply not_in_remove_other.
  - destruct o as [| event | errorType | | id].
    + destruct rec; engine_run; engine_cases; (split; [exact Hn | silence Hn]).
    + destruct rec; [|engine_run; split; [exact Hn | reflexivity]].
      cbv beta iota zeta delta [occurred bind get_state recognition].
      unfold handleResult.
      assert (Hs := @emit_results_state
                      {| SpeechRecognition := sup; start_throws := st;
                         stop_throws := sp; abort_throws := ab; now := clock |}
                      (skipn (resultIndex event) (results event)) 0
                      (Engine true init lis auto rt cbs cfg tm iss)).
      assert (Ht := @emit_results_silent ch callback
                      {| SpeechRecognition := sup; start_throws := st;
                         stop_throws := sp; abort_throws := ab; now := clock |}
                      (skipn (resultIndex event) (results event)) 0
                      (Engine true init lis auto rt cbs cfg tm iss) Hn).
      unfold state_of, trace_of in *.
      destruct (emit_results _ 0 _ _) as [[s' out] res]. cbn [fst snd] in *.
      subst s'. cbn [app callbacks]. split; [exact Hn | exact Ht].
    + destruct rec; [|engine_run; split; [exact Hn | reflexivity]].
      unfold occurred, handleError. generalize (errorInfo_of errorType).
      intros info. engine_run.
      destruct (truthy (get info "fatal")); engine_run;
        (split; [exact Hn | silence Hn]).
    + destruct rec, auto, init; engine_run; engine_cases;
        (split; [exact Hn | silence Hn]).
    + cbv beta iota zeta delta [occurred bind get_state timers].
      destruct (existsb (Nat.eqb id) tm);
        [|split; [exact Hn | reflexivity]].
      destruct rec, auto, lis; engine_run; engine_cases;
        (split; [exact Hn | silence Hn]).
Qed.

Lemma run_silent ch callback steps :
  forall s,
    ~ In callback (subscribers ch (callbacks s)) ->
    existsb (resubscribes ch callback) steps = false ->
    existsb (notifies ch callback) (snd (run_steps steps s)) = false.
Proof.
  induction steps as [|st steps IH]; intros s Hn Hr; [reflexivity|].
  cbn [existsb] in Hr. apply orb_false_iff in Hr. destruct Hr as [H1 H2].
  destruct (@step_silent ch callback st s Hn H1) as [Hs Ht].
  cbn [run_steps]. unfold state_of, trace_of in *.
  destruct (perform_step st s) as [[s' out] r]. cbn [fst snd] in *.
  specialize (IH s' Hs H2).
  destruct (run_steps steps s') as [s'' out']. cbn [fst snd] in *.
  now rewrite existsb_app, Ht, IH.
Qed.

(** X26: once the function that a registration returned has been called, the
    callback hears nothing more on that channel, however often it had been
    registered, until it is registered for the channel anew; the function
    tells whether there was a registration to undo. *)
Theorem unsubscribed_is_silent :
  forall h ch callback steps s,
    existsb (resubscribes ch callback) steps = false ->
    existsb (notifies ch callback)
            (snd (run_steps (Called h (Unsubscribe ch callback) :: steps) s))
    = false /\
    snd (unsubscribe ch callback s) =
    inl (existsb (Nat.eqb callback) (subscribers ch (callbacks s))).
Proof.
  intros h ch callback steps s Hr. split; [|reflexivity].
  cbn [run_steps perform_step called].
  assert (Hn : ~ In callback
                 (subscribers ch
                    (callbacks (state_of (forget (unsubscribe ch callback) s))))).
  { destruct s as [rec init lis auto rt cbs cfg tm iss]. engine_run.
    rewrite subscribers_with. destruct ch; apply not_in_remove. }
  assert (Ht : trace_of (forget (unsubscribe ch callback) s) = []).
  { destruct s as [rec init lis auto rt cbs cfg tm iss]. reflexivity. }
  unfold state_of, trace_of in *.
  destruct (forget (unsubscribe ch callback) s) as [[s' out] r].
  cbn [fst snd] in *. subst out.
  assert (H := @run_silent ch callback steps s' Hn Hr).
  destruct (run_steps steps s') as [s'' out']. exact H.
Qed.


(** *** A browser that obeys, and an engine that listens *)

Definition obeying : host := {|
  SpeechRecognition := Constructs;
  start_throws := None;
  stop_throws := None;
  abort_throws := None;
  now := fun _ => 0%Z
|}.

Definition listening : engine :=
  Engine true true true true None (callbacks initial) (config initial) [] 0.

Lemma inv_listening : inv listening.
Proof.
  unfold inv, listening. cbn. repeat split; auto.
  intros ch; destruct ch; constructor.
Qed.

Lemma only_start_restarts_witness :
  existsb restarts
    (snd (run_steps [Occurred obeying Ended; Occurred obeying (Timer 1);
                     Called obeying (Reconfigure VUndefined);
                     Occurred obeying (Failed "no-speech")]
                    (Engine true true true false (Some 1) (callbacks initial)
                            (config initial) [1] 1))) = false.
Proof.
  apply (@only_start_restarts
           [Occurred obeying Ended; Occurred obeying (Timer 1);
            Called obeying (Reconfigure VUndefined);
            Occurred obeying (Failed "no-speech")]
           (Engine true true true false (Some 1) (callbacks initial)
                   (config initial) [1] 1));
    reflexivity.
Defined.

Lemma stop_ends_listening_witness :
  existsb restarts
    (snd (run_steps [Called obeying Stop; Occurred obeying Ended;
                     Occurred obeying (Timer 1)] listening)) = false.
Proof.
  apply (@stop_ends_listening obeying Stop
           [Occurred obeying Ended; Occurred obeying (Timer 1)] listening).
  - exact inv_listening.
  - reflexivity.
  - left. reflexivity.
  - reflexivity.
Defined.

Lemma fatal_error_ends_restarts_witness :
  existsb restarts
    (snd (run_steps [Occurred obeying (Failed "not-allowed");
                     Occurred obeying Ended; Occurred obeying (Timer 1)]
                    listening)) = false
  /\ shouldAutoRestart
       (state_of (occurred obeying (Failed "bad-grammar") listening)) = true.
Proof.
  destruct (@fatal_error_ends_restarts obeying "not-allowed" listening eq_refl)
    as [H1 _].
  destruct (@fatal_error_ends_restarts obeying "bad-grammar" listening eq_refl)
    as [_ H2].
  split.
  - apply H1; [cbn; auto | reflexivity].
  - destruct H2 as [H2 _].
    + cbn. intros [H | [H | [H | []]]]; discriminate.
    + exact H2.
Defined.

Lemma configure_stops_listening_engine_witness :
  existsb restarts
    (snd (run_steps [Called obeying (Reconfigure (VObj [("language", VStr "fr-FR")]));
                     Occurred obeying Ended; Occurred obeying (Timer 1)]
                    listening)) = false.
Proof.
  apply (@configure_stops_listening_engine obeying
           (VObj [("language", VStr "fr-FR")])
           [Occurred obeying Ended; Occurred obeying (Timer 1)] listening);
    reflexivity.
Defined.

Lemma unsubscribed_is_silent_witness :
  existsb (notifies Transcript 7)
    (snd (run_steps
            [Called obeying (Unsubscribe Transcript 7);
             Occurred obeying
               (Recognised
                  {| resultIndex := 0;
                     results := [ {| alternatives :=
                                       [ {| transcript := " hello ";
                                            confidence := VNum 0.9 |} ];
                                     isFinal := true |} ] |})]
            (Engine true true true true None
                    {| on_transcript := [7; 8]; on_error := []; on_end := [];
                       on_stateChange := [] |}
                    (config initial) [] 0))) = false.
Proof.
  apply (@unsubscribed_is_silent obeying Transcript 7).
  reflexivity.
Defined.

End VoiceEngineFacts.
